(** * Block DOM: a shallow embedding of the block reconciliation core

    The development follows the TypeScript source [Block DOM] class by class.
    The host visual tree (the browser DOM) is a store of nodes addressed by
    identity; a block is a value whose fields hold node identities; every
    method is a computation in a state-and-exception monad over the store.
    A method that mutates [this] returns the new value of [this]. *)

From stdpp Require Import base list strings.

Set Warnings "-register-all".
Set Default Proof Using "Type".

(** ** The host visual tree *)

(** A node identity is the index of the node in the store.  Nodes are never
    freed: a detached node stays in the store with no parent. *)
Abbreviation nid := nat (only parsing).

Inductive NodeKind :=
| KElement (tag : string)
| KText
| KComment.

(** The closure [() => { this.handlers![index][1](); }] of [setupHandler]:
    it captures the block object [this] (by its object identity) and
    [index]; the event type is the first argument of [addEventListener]. *)
Record Listener := mkListener {
  l_event : string;
  l_owner : nat;
  l_index : nat
}.

Record DomNode := mkDomNode {
  nkind : NodeKind;
  nparent : option nid;
  nchildren : list nid;
  ntext : string;
  nattrs : list (string * string);
  nclasses : list string;
  nlisteners : list Listener
}.

Abbreviation Dom := (list DomNode).

Definition with_parent (p : option nid) (x : DomNode) : DomNode :=
  mkDomNode (nkind x) p (nchildren x) (ntext x) (nattrs x) (nclasses x)
            (nlisteners x).
Definition with_children (cs : list nid) (x : DomNode) : DomNode :=
  mkDomNode (nkind x) (nparent x) cs (ntext x) (nattrs x) (nclasses x)
            (nlisteners x).
Definition with_text (s : string) (x : DomNode) : DomNode :=
  mkDomNode (nkind x) (nparent x) (nchildren x) s (nattrs x) (nclasses x)
            (nlisteners x).
Definition with_attrs (a : list (string * string)) (x : DomNode) : DomNode :=
  mkDomNode (nkind x) (nparent x) (nchildren x) (ntext x) a (nclasses x)
            (nlisteners x).
Definition with_classes (c : list string) (x : DomNode) : DomNode :=
  mkDomNode (nkind x) (nparent x) (nchildren x) (ntext x) (nattrs x) c
            (nlisteners x).
Definition with_listeners (l : list Listener) (x : DomNode) : DomNode :=
  mkDomNode (nkind x) (nparent x) (nchildren x) (ntext x) (nattrs x)
            (nclasses x) l.

Definition parent_of (d : Dom) (n : nid) : option nid := d !! n ≫= nparent.
Definition children_of (d : Dom) (n : nid) : list nid :=
  from_option nchildren [] (d !! n).
Definition text_of (d : Dom) (n : nid) : string :=
  from_option ntext EmptyString (d !! n).
Definition listeners_of (d : Dom) (n : nid) : list Listener :=
  from_option nlisteners [] (d !! n).

Definition is_element (d : Dom) (n : nid) : bool :=
  match nkind <$> d !! n with Some (KElement _) => true | _ => false end.
Definition is_comment (d : Dom) (n : nid) : bool :=
  match nkind <$> d !! n with Some KComment => true | _ => false end.
Definition has_tag (tag : string) (x : DomNode) : bool :=
  match nkind x with KElement t => bool_decide (t = tag) | _ => false end.

Definition set_parent (n : nid) (p : option nid) (d : Dom) : Dom :=
  alter (with_parent p) n d.
Definition set_children (n : nid) (cs : list nid) (d : Dom) : Dom :=
  alter (with_children cs) n d.

(** Whether the node is attached somewhere in the tree. *)
Definition attached (d : Dom) (n : nid) : Prop :=
  ∃ p, parent_of d n = Some p ∧ n ∈ children_of d p.

(** ** Errors and the method monad *)

Inductive Error :=
| TypeError
| HierarchyRequestError
| InvalidCharacterError.

(** The outcome of a call: it returns a value and leaves a store, or it
    throws.  The store at the point of a throw is not kept. *)
Inductive Res (A : Type) :=
| Ok (a : A) (d : Dom)
| Throw (e : Error).
Arguments Ok {A} a d.
Arguments Throw {A} e.

Definition M (A : Type) : Type := Dom → Res A.

#[global] Instance M_ret : MRet M := λ A a d, Ok a d.
#[global] Instance M_bind : MBind M := λ A B f m d,
  match m d with
  | Ok a d' => f a d'
  | Throw e => Throw e
  end.
Definition throw {A} (e : Error) : M A := λ _, Throw e.
Definition modify (f : Dom → Dom) : M unit := λ d, Ok () (f d).
Definition gets {A} (f : Dom → A) : M A := λ d, Ok (f d) d.

Section loops.
Context {A B : Type}.

(** [for (let i = i0; i < i0 + l.length; i++) f(i, l[i])], collecting what
    every iteration leaves in its slot. *)
Fixpoint forM_from (f : nat → A → M B) (i : nat) (l : list A)
    : M (list B) :=
  match l with
  | [] => mret []
  | x :: l' => y ← f i x; ys ← forM_from f (S i) l'; mret (y :: ys)
  end.

(** The same loop threading a value [s] the iterations update. *)
Fixpoint foldM_from (f : nat → A → B → M B) (i : nat) (l : list A)
    (s : B) : M B :=
  match l with
  | [] => mret s
  | x :: l' => s' ← f i x s; foldM_from f (S i) l' s'
  end.

(** [for (let x of l) f(x)] *)
Fixpoint iterM (f : A → M unit) (l : list A) : M unit :=
  match l with
  | [] => mret ()
  | x :: l' => f x;; iterM f l'
  end.
End loops.

(** ** JavaScript arrays with holes *)

(** [arr[i]]: a hole, [null], [undefined] and an index out of range are all
    falsy and read as [None]. *)
Definition js_get {A} (arr : list (option A)) (i : nat) : option A :=
  default None (arr !! i).

(** [arr[i] = v]: in range the slot is overwritten, out of range the array
    grows to length [i + 1] and the skipped slots are holes. *)
Definition js_set {A} (arr : list (option A)) (i : nat) (v : option A)
    : list (option A) :=
  if decide (i < length arr) then <[i := v]> arr
  else arr ++ replicate (i - length arr) None ++ [v].

(** ** Host primitives *)

Definition new_node (k : NodeKind) (p : option nid) (s : string)
    (attrs : list (string * string)) (classes : list string) : DomNode :=
  mkDomNode k p [] s attrs classes [].

Definition alloc (x : DomNode) : M nid := λ d, Ok (length d) (d ++ [x]).

(** [document.createTextNode(s)] *)
Definition createTextNode (s : string) : M nid :=
  alloc (new_node KText None s [] []).

(** [document.createElement(tag)] *)
Definition createElement (tag : string) : M nid :=
  alloc (new_node (KElement tag) None EmptyString [] []).

(** Taking a node out of its parent's child list. A node without parent is
    left alone. *)
Definition detach (e : nid) (d : Dom) : Dom :=
  match parent_of d e with
  | None => d
  | Some p =>
      set_parent e None
        (set_children p (filter (λ x, x ≠ e) (children_of d p)) d)
  end.

(** [e.remove()] *)
Definition removeNode (e : nid) : M unit := modify (detach e).

(** Walking up from [x]: is [e] the node [x] or one of its ancestors? *)
Fixpoint inclusive_ancestor (fuel : nat) (d : Dom) (e x : nid) : bool :=
  bool_decide (x = e) ||
  match fuel with
  | 0 => false
  | S f =>
      match parent_of d x with
      | Some q => inclusive_ancestor f d e q
      | None => false
      end
  end.

(** The host refuses to insert [e] under [p] when [e] is [p] or an ancestor
    of [p].  Only an element can have descendants. *)
Definition hierarchy_violation (d : Dom) (e p : nid) : bool :=
  is_element d e && inclusive_ancestor (length d) d e p.

Fixpoint insert_before (a e : nid) (l : list nid) : list nid :=
  match l with
  | [] => []
  | x :: l' => if decide (x = a) then e :: x :: l' else x :: insert_before a e l'
  end.

Fixpoint replace_in (x e : nid) (l : list nid) : list nid :=
  match l with
  | [] => []
  | y :: l' => if decide (y = x) then e :: l' else y :: replace_in x e l'
  end.

Definition place_before (p a e : nid) (d : Dom) : Dom :=
  let d1 := detach e d in
  set_parent e (Some p)
    (set_children p (insert_before a e (children_of d1 p)) d1).

(** [a.before(e)]: [a] may be [undefined] (a missing marker), and then the
    call is a [TypeError].  An anchor without parent makes the call a
    no-op; [a.before(a)] leaves [a] where it is. *)
Definition before (a : option nid) (e : nid) : M unit :=
  match a with
  | None => throw TypeError
  | Some a => λ d,
      match parent_of d a with
      | None => Ok () d
      | Some p =>
          if hierarchy_violation d e p then Throw HierarchyRequestError
          else if decide (e = a) then Ok () d
          else Ok () (place_before p a e d)
      end
  end.

(** [x.replaceWith(e)] *)
Definition replaceWith (x e : nid) : M unit := λ d,
  match parent_of d x with
  | None => Ok () d
  | Some p =>
      if hierarchy_violation d e p then Throw HierarchyRequestError
      else if decide (e = x) then Ok () d
      else
        let d1 := detach e d in
        Ok () (set_parent x None
                 (set_parent e (Some p)
                    (set_children p (replace_in x e (children_of d1 p)) d1)))
  end.

(** [p.appendChild(e)] *)
Definition appendChild (p e : nid) : M unit := λ d,
  if hierarchy_violation d e p then Throw HierarchyRequestError
  else
    let d1 := detach e d in
    Ok () (set_parent e (Some p)
             (set_children p (children_of d1 p ++ [e]) d1)).

(** Detached trees: the templates of the Node blocks and what the markup
    parser returns. *)
Inductive DTree :=
| TElem (tag : string) (attrs : list (string * string))
        (classes : list string) (kids : list DTree)
| TText (s : string)
| TComment (s : string).

(** Building a fresh copy of a detached tree in the store, in document
    order, under parent [p].  This is [cloneNode(true)] of a template, and
    the node-creating half of assigning [innerHTML]. *)
Fixpoint instantiate (t : DTree) (p : option nid) (d : Dom) : nid * Dom :=
  match t with
  | TText s => (length d, d ++ [new_node KText p s [] []])
  | TComment s => (length d, d ++ [new_node KComment p s [] []])
  | TElem tag attrs classes kids =>
      let n := length d in
      let d1 := d ++ [new_node (KElement tag) p EmptyString attrs classes] in
      let '(ids, d2) :=
        (fix go (ks : list DTree) (d : Dom) : list nid * Dom :=
           match ks with
           | [] => ([], d)
           | k :: ks' =>
               let '(i, d') := instantiate k (Some n) d in
               let '(rest, d'') := go ks' d' in
               (i :: rest, d'')
           end) kids d1 in
      (n, set_children n ids d2)
  end.

Definition instantiate_all (p : option nid)
    : list DTree → Dom → list nid * Dom :=
  fix go (ks : list DTree) (d : Dom) : list nid * Dom :=
    match ks with
    | [] => ([], d)
    | k :: ks' =>
        let '(i, d') := instantiate k p d in
        let '(rest, d'') := go ks' d' in
        (i :: rest, d'')
    end.

(** [template.cloneNode(true)] *)
Definition cloneNode (t : DTree) : M nid := λ d,
  let '(n, d') := instantiate t None d in Ok n d'.

(** The elements with the given tag below [n], [n] included, in document
    order. *)
Fixpoint collect_tag (fuel : nat) (d : Dom) (tag : string) (n : nid)
    : list nid :=
  match fuel with
  | 0 => []
  | S f =>
      match d !! n with
      | Some x =>
          (if has_tag tag x then [n] else [])
            ++ flat_map (collect_tag f d tag) (nchildren x)
      | None => []
      end
  end.

(** What the live collection [el.getElementsByTagName(tag)] holds when it
    is read in store [d]: the descendants of [el], not [el] itself. *)
Definition live_collection (d : Dom) (el : nid) (tag : string) : list nid :=
  flat_map (collect_tag (length d) d tag) (children_of d el).

(** [n.textContent] (getter) *)
Fixpoint textContent (fuel : nat) (d : Dom) (n : nid) : string :=
  match fuel with
  | 0 => EmptyString
  | S f =>
      match d !! n with
      | Some x =>
          match nkind x with
          | KElement _ =>
              fold_right String.append EmptyString
                (map (λ c, if is_comment d c then EmptyString
                           else textContent f d c)
                     (nchildren x))
          | _ => ntext x
          end
      | None => EmptyString
      end
  end.

(** [n.textContent = s] on a text leaf *)
Definition set_textContent (n : nid) (s : string) : M unit :=
  modify (alter (with_text s) n).

(** [div.innerHTML = html], given what the host parser makes of [html]:
    the old children go, the parsed trees become the children. *)
Definition set_innerHTML (n : nid) (parsed : list DTree) : M unit := λ d,
  let d0 := foldr detach d (children_of d n) in
  let '(ids, d1) := instantiate_all (Some n) parsed d0 in
  Ok () (set_children n ids d1).

Definition is_space (c : Ascii.ascii) : bool :=
  let n := Ascii.nat_of_ascii c in
  bool_decide (n = 32) || bool_decide (n = 9) || bool_decide (n = 10)
  || bool_decide (n = 12) || bool_decide (n = 13).

Fixpoint has_space (s : string) : bool :=
  match s with
  | EmptyString => false
  | String c s' => is_space c || has_space s'
  end.

(** The tokens of a [class] attribute value: the value split on ASCII
    whitespace, each token kept at its first occurrence. *)
Fixpoint split_spaces (s : string) (cur : string) : list string :=
  match s with
  | EmptyString => if decide (cur = EmptyString) then [] else [cur]
  | String c s' =>
      if is_space c
      then (if decide (cur = EmptyString) then [] else [cur])
             ++ split_spaces s' EmptyString
      else split_spaces s' (cur +:+ String c EmptyString)
  end.

Definition tokens (v : string) : list string :=
  remove_dups (split_spaces v EmptyString).

(** The serialization of a token set: the tokens separated by one
    space. *)
Fixpoint join_spaces (l : list string) : string :=
  match l with
  | [] => EmptyString
  | [x] => x
  | x :: l' => x +:+ " " +:+ join_spaces l'
  end.

(** ASCII lower-casing, as an HTML element applies it to attribute
    names. *)
Definition ascii_lower (c : Ascii.ascii) : Ascii.ascii :=
  let n := Ascii.nat_of_ascii c in
  if (65 <=? n) && (n <=? 90) then Ascii.ascii_of_nat (n + 32) else c.

Fixpoint lower (s : string) : string :=
  match s with
  | EmptyString => EmptyString
  | String c s' => String (ascii_lower c) (lower s')
  end.

Fixpoint attr_set (a v : string) (l : list (string * string))
    : list (string * string) :=
  match l with
  | [] => [(a, v)]
  | (a', v') :: l' =>
      if decide (a' = a) then (a, v) :: l' else (a', v') :: attr_set a v l'
  end.

(** [elem.classList.add(c)]: the token joins the class list, and the
    [class] attribute becomes the serialization of the list. *)
Definition classList_add (elem : option nid) (c : string) : M unit :=
  match elem with
  | None => throw TypeError
  | Some n => λ d,
      if is_element d n then
        if has_space c then Throw InvalidCharacterError
        else Ok () (alter
                      (λ x, let cl := if bool_decide (c ∈ nclasses x)
                                      then nclasses x
                                      else nclasses x ++ [c] in
                            with_attrs
                              (attr_set "class" (join_spaces cl) (nattrs x))
                              (with_classes cl x)) n d)
      else Throw TypeError
  end.

(** ** The host's check of attribute names

    [setAttribute] throws [InvalidCharacterError] on a name the host does
    not accept.  Which names a host accepts is its own matter (the DOM
    standard has changed the rule); the development holds for every such
    check. *)

Section host.
Variable valid_name : string → bool.

(** [elem.setAttribute(a, v)] on an HTML element: the name is checked,
    then lower-cased; setting [class] also sets the class list. *)
Definition setAttribute (elem : option nid) (a v : string) : M unit :=
  match elem with
  | None => throw TypeError
  | Some n => λ d,
      if is_element d n then
        if valid_name a then
          Ok () (alter
                   (λ x, let x' := with_attrs
                                     (attr_set (lower a) v (nattrs x)) x in
                         if decide (lower a = "class")
                         then with_classes (tokens v) x' else x') n d)
        else Throw InvalidCharacterError
      else Throw TypeError
  end.

(** [elem.removeAttribute(a)] on an HTML element: the name is lower-cased
    and not checked; removing [class] empties the class list. *)
Definition removeAttribute (elem : option nid) (a : string) : M unit :=
  match elem with
  | None => throw TypeError
  | Some n => λ d,
      if is_element d n then
        Ok () (alter
                 (λ x, let x' := with_attrs
                                   (filter (λ av, av.1 ≠ lower a) (nattrs x))
                                   x in
                       if decide (lower a = "class")
                       then with_classes [] x' else x') n d)
      else Throw TypeError
  end.

(** [el.addEventListener(type, closure)] *)
Definition addEventListener (el : option nid) (l : Listener) : M unit :=
  match el with
  | None => throw TypeError
  | Some n =>
      modify (alter (λ x, with_listeners (nlisteners x ++ [l]) x) n)
  end.

(** ** Node block classes

    A Node block class is produced by the template compiler, outside this
    core: it supplies the static template [el] and overrides the two hooks
    [update()] and [setupHandlers()], which are empty in [BNode].  An
    override is a sequence of calls to the helpers [BNode] offers for it
    ([updateClass], [updateAttr], [setupHandler]), each on an element
    reached from [this.el] through [childNodes]. *)

Abbreviation Path := (list nat) (only parsing).
Abbreviation Thunk := nat (only parsing).

Inductive UpdateCall :=
| CallUpdateClass (target : Path) (ix : nat)
| CallUpdateAttr (target : Path) (attr : string) (ix : nat).

Record NodeClass := mkNodeClass {
  static_el : DTree;
  update_body : list UpdateCall;
  setupHandlers_body : list (Path * nat)
}.

(** [this.el.childNodes[i].childNodes[j]...] *)
Fixpoint resolve (cur : option nid) (p : Path) : M (option nid) :=
  match p with
  | [] => mret cur
  | i :: p' =>
      match cur with
      | None => throw TypeError
      | Some n => c ← gets (λ d, children_of d n !! i); resolve c p'
      end
  end.

Definition truthy (v : option string) : bool :=
  match v with
  | Some s => negb (bool_decide (s = EmptyString))
  | None => false
  end.

(** [this.data[ix]] *)
Definition data_at (data : option (list string)) (ix : nat)
    : M (option string) :=
  match data with
  | None => throw TypeError
  | Some vs => mret (vs !! ix)
  end.

(** [BNode.updateClass] *)
Definition updateClass (elem : option nid) (_class : option string)
    : M unit :=
  if truthy _class then classList_add elem (default EmptyString _class)
  else mret ().

(** [BNode.updateAttr] *)
Definition updateAttr (elem : option nid) (attr : string)
    (value : option string) : M unit :=
  if truthy value then setAttribute elem attr (default EmptyString value)
  else removeAttribute elem attr.

Definition run_update_call (el : option nid) (data : option (list string))
    (c : UpdateCall) : M unit :=
  match c with
  | CallUpdateClass p ix =>
      elem ← resolve el p; v ← data_at data ix; updateClass elem v
  | CallUpdateAttr p a ix =>
      elem ← resolve el p; v ← data_at data ix; updateAttr elem a v
  end.

(** [this.update()] of a block of class [cls] *)
Definition update (cls : NodeClass) (el : option nid)
    (data : option (list string)) : M unit :=
  iterM (run_update_call el data) (update_body cls).

(** [BNode.setupHandler] *)
Definition setupHandler (oid : nat)
    (handlers : option (list (string * Thunk)))
    (el : option nid) (index : nat) : M unit :=
  match handlers with
  | None => throw TypeError
  | Some hs =>
      match hs !! index with
      | None => throw TypeError
      | Some (eventType, _) =>
          addEventListener el (mkListener eventType oid index)
      end
  end.

(** [this.setupHandlers()] of a block of class [cls] *)
Definition setupHandlers (cls : NodeClass) (oid : nat)
    (handlers : option (list (string * Thunk))) (el : option nid)
    : M unit :=
  iterM (λ '(p, index),
           target ← resolve el p; setupHandler oid handlers target index)
        (setupHandlers_body cls).

Definition anchor_tag : string := "owl-anchor".

(** The loop of [BNode.build]: [n] rounds, each creating a marker and
    putting it in the place of element [0] of the live collection. *)
Fixpoint replace_anchors (el : nid) (n : nat) : M (list nid) :=
  match n with
  | 0 => mret []
  | S n' =>
      text ← createTextNode EmptyString;
      first ← gets (λ d, live_collection d el anchor_tag !! 0);
      match first with
      | None => throw TypeError
      | Some x => replaceWith x text;; ms ← replace_anchors el n'; mret (text :: ms)
      end
  end.

(** The first half of [BNode.build]: the clone and, when [this.children]
    is not null, the markers. [None] for the markers stands for
    [this.anchors] left as it was. *)
Definition build_anchors (cls : NodeClass) (has_children : bool)
    : M (nid * option (list nid)) :=
  el ← cloneNode (static_el cls);
  if has_children then
    is_el ← gets (λ d, is_element d el);
    if is_el : bool then
      n ← gets (λ d, length (live_collection d el anchor_tag));
      ms ← replace_anchors el n;
      mret (el, Some ms)
    else throw TypeError
  else mret (el, None).

(** [BNode.build] *)
Definition BNode_build (oid : nat) (cls : NodeClass) (has_children : bool)
    (anchors : option (list nid)) (data : option (list string))
    (handlers : option (list (string * Thunk)))
    : M (nid * option (list nid)) :=
  '(el, ms) ← build_anchors cls has_children;
  update cls (Some el) data;;
  (if handlers is Some _ then setupHandlers cls oid handlers (Some el)
   else mret ());;
  mret (el, if has_children then ms else anchors).

(** ** Blocks *)

(** The five block classes.  A field holds what the TypeScript field holds:
    [None] is [null] or [undefined].  [oid] is the object identity of a
    Node block, which the listener closures of [setupHandler] capture as
    [this].  [Block.el] is the [el] field of [BHtml], [BText] and [BNode];
    a Multi or Collection block never assigns it and keeps [null]. *)
Inductive Block :=
| BHtml (html : string) (content : list nid) (anchor : nid)
        (el : option nid)
| BText (el : nid)
| BNode (oid : nat) (cls : NodeClass) (el : option nid)
        (children : option (list (option Block)))
        (anchors : option (list nid))
        (data : option (list string))
        (handlers : option (list (string * Thunk)))
| BMulti (children : list (option Block)) (anchors : list (option nid))
| BCollection (children : list (option Block)) (anchor : option nid).

(** [b.el] *)
Definition block_el (b : Block) : option nid :=
  match b with
  | BHtml _ _ _ el => el
  | BText el => Some el
  | BNode _ _ el _ _ _ _ => el
  | BMulti _ _ | BCollection _ _ => None
  end.

(** [b.children], for a [b] of any class *)
Definition block_children (b : Block) : option (list (option Block)) :=
  match b with
  | BNode _ _ _ children _ _ _ => children
  | BMulti children _ | BCollection children _ => Some children
  | BHtml _ _ _ _ | BText _ => None
  end.

(** [b.data], for a [b] of any class *)
Definition block_data (b : Block) : option (list string) :=
  match b with
  | BNode _ _ _ _ _ data _ => data
  | _ => None
  end.

Definition block_anchors (b : Block) : option (list (option nid)) :=
  match b with
  | BNode _ _ _ _ anchors _ _ => fmap (M := list) Some <$> anchors
  | BMulti _ anchors => Some anchors
  | _ => None
  end.

Definition block_handlers (b : Block) : option (list (string * Thunk)) :=
  match b with
  | BNode _ _ _ _ _ _ handlers => handlers
  | _ => None
  end.

(** [this.anchors![i] = m] for every marker of a Multi block, in order *)
Fixpoint set_markers (arr : list (option nid)) (i : nat) (ms : list nid)
    : list (option nid) :=
  match ms with
  | [] => arr
  | m :: ms' => set_markers (js_set arr i (Some m)) (S i) ms'
  end.

Section methods.
(** The markup parser of the host: what assigning [innerHTML] makes of a
    string. *)
Variable parseHTML : string → list DTree.

(** [new BHtml(html)] *)
Definition new_BHtml (html : string) : M Block :=
  anchor ← createTextNode EmptyString;
  mret (BHtml html [] anchor None).

(** [new BText(text)] *)
Definition new_BText (text : string) : M Block :=
  el ← createTextNode text;
  mret (BText el).

(** [new BMulti(n)] *)
Definition new_BMulti (n : nat) : Block :=
  BMulti (replicate n None) (replicate n None).


(** [BHtml.build]: the new [content] and [el] *)
Definition BHtml_build (html : string) : M (list nid * option nid) :=
  div ← createElement "div";
  set_innerHTML div (parseHTML html);;
  content ← gets (λ d, children_of d div);
  mret (content, content !! 0).

(** [mountBefore], by class.  The loops over [this.children] go through
    the list of children as it is on entry: no [mountBefore] writes a
    [children] array. *)
Fixpoint mountBefore (b : Block) (anchor : option nid) : M Block :=
  match b with
  | BHtml html _ a _ =>
      '(content, el) ← BHtml_build html;
      before anchor a;;
      iterM (before (Some a)) content;;
      mret (BHtml html content a el)
  | BText el =>
      before anchor el;;
      mret (BText el)
  | BNode oid cls _ children anchors data handlers =>
      '(el, anchors') ←
        BNode_build oid cls (bool_decide (is_Some children))
                    anchors data handlers;
      children' ←
        match children with
        | None => mret None
        | Some cs =>
            cs' ← forM_from
                    (λ i child,
                       match child with
                       | Some c =>
                           c' ← mountBefore c (anchors' ≫= (.!! i));
                           mret (Some c')
                       | None => mret None
                       end) 0 cs;
            mret (Some cs')
        end;
      before anchor el;;
      mret (BNode oid cls (Some el) children' anchors' data handlers)
  | BMulti cs anchors =>
      slots ← forM_from
                (λ (i : nat) child,
                   childAnchor ← createTextNode EmptyString;
                   before anchor childAnchor;;
                   match child with
                   | Some c =>
                       c' ← mountBefore c (Some childAnchor);
                       mret (Some c', childAnchor)
                   | None => mret (None, childAnchor)
                   end) 0 cs;
      mret (BMulti (slots.*1) (set_markers anchors 0 (slots.*2)))
  | BCollection cs _ =>
      _anchor ← createTextNode EmptyString;
      before anchor _anchor;;
      cs' ← forM_from
              (λ (i : nat) child,
                 match child with
                 | Some c =>
                     c' ← mountBefore c (Some _anchor); mret (Some c')
                 | None => throw TypeError
                 end) 0 cs;
      mret (BCollection cs' (Some _anchor))
  end.

(** [Block.mount] *)
Definition mount (b : Block) (parent : nid) : M Block :=
  anchor ← createTextNode EmptyString;
  appendChild parent anchor;;
  b' ← mountBefore b (Some anchor);
  removeNode anchor;;
  mret b'.

(** [remove], by class; [BText] and [BCollection] inherit the empty
    [Block.remove]. *)
Fixpoint remove (b : Block) : M unit :=
  match b with
  | BHtml _ content a _ =>
      iterM removeNode content;;
      removeNode a
  | BText _ => mret ()
  | BNode _ _ el _ _ _ _ =>
      match el with
      | None => throw TypeError
      | Some e => removeNode e
      end
  | BMulti cs anchors =>
      _ ← forM_from
            (λ i child,
               match child with
               | None => throw TypeError
               | Some c => remove c
               end;;
               match js_get anchors i with
               | None => throw TypeError
               | Some m => removeNode m
               end) 0 cs;
      mret ()
  | BCollection _ _ => mret ()
  end.

(** One round of the loop of [BNode.patch], for slot [i] holding
    [child]: what the round leaves in the slot. *)
Definition node_slot (patch : Block → Block → M Block)
    (anchors : option (list nid)) (newChildren : list (option Block))
    (i : nat) (child : option Block) : M (option Block) :=
  match child, js_get newChildren i with
  | Some c, Some newChild => c' ← patch c newChild; mret (Some c')
  | Some c, None => remove c;; mret None
  | None, Some newChild =>
      match anchors with
      | None => throw TypeError
      | Some ms =>
          newChild' ← mountBefore newChild (ms !! i);
          mret (Some newChild')
      end
  | None, None => mret child
  end.

(** The rounds of [BNode.patch] past the end of [this.children]: the old
    child is [undefined], a new child is stored, which grows the array. *)
Fixpoint node_extend (anchors : option (list nid)) (i : nat)
    (news : list (option Block)) (arr : list (option Block))
    : M (list (option Block)) :=
  match news with
  | [] => mret arr
  | None :: news' => node_extend anchors (S i) news' arr
  | Some newChild :: news' =>
      match anchors with
      | None => throw TypeError
      | Some ms =>
          newChild' ← mountBefore newChild (ms !! i);
          node_extend anchors (S i) news' (js_set arr i (Some newChild'))
      end
  end.

(** One round of the loop of [BMulti.patch], for slot [i] holding
    [block]: the new [this.children]. *)
Definition multi_slot (patch : Block → Block → M Block)
    (anchors : list (option nid)) (newTree : Block)
    (i : nat) (block : option Block) (arr : list (option Block))
    : M (list (option Block)) :=
  match block_children newTree with
  | None => throw TypeError
  | Some newChildren =>
      match block, js_get newChildren i with
      | Some c, Some newBlock =>
          c' ← patch c newBlock; mret (js_set arr i (Some c'))
      | Some c, None => remove c;; mret (js_set arr 0 None)
      | None, Some newBlock =>
          newBlock' ← mountBefore newBlock (js_get anchors i);
          mret (js_set arr i (Some newBlock'))
      | None, None => mret arr
      end
  end.

(** [patch], by class. *)
Fixpoint patch (b : Block) (other : Block) : M Block :=
  match b with
  | BHtml html content a _ =>
      iterM removeNode content;;
      '(content', el') ← BHtml_build html;
      iterM (before (Some a)) content';;
      mret (BHtml html content' a el')
  | BText el =>
      match block_el other with
      | None => throw TypeError
      | Some oel =>
          s ← gets (λ d, textContent (length d) d oel);
          set_textContent el s;;
          mret (BText el)
      end
  | BNode oid cls el children anchors _ handlers =>
      let data := block_data other in
      update cls el data;;
      children' ←
        match children with
        | None => mret None
        | Some cs =>
            match block_children other with
            | None => throw TypeError
            | Some newChildren =>
                cs1 ← forM_from
                        (λ i child,
                           if decide (i < length newChildren)
                           then node_slot patch anchors newChildren i child
                           else mret child) 0 cs;
                cs2 ← node_extend anchors (length cs)
                        (drop (length cs) newChildren) cs1;
                mret (Some cs2)
            end
        end;
      mret (BNode oid cls el children' anchors data handlers)
  | BMulti cs anchors =>
      cs' ← foldM_from (multi_slot patch anchors other) 0 cs cs;
      mret (BMulti cs' anchors)
  | BCollection cs a => mret (BCollection cs a)
  end.

(** [BHtml.toString] and [BText.toString] *)
Definition BHtml_toString (b : Block) : option string :=
  match b with
  | BHtml html _ _ _ => Some html
  | _ => None
  end.

Definition BText_toString (b : Block) (d : Dom) : option string :=
  match b with
  | BText el => Some (textContent (length d) d el)
  | _ => None
  end.
End methods.

(** ** Event dispatch *)

(** What the listener registered by [setupHandler(el, index)] does when the
    event fires: [this.handlers![index][1]()], on the block as it is at
    that time.  [None] is the [TypeError] of a missing entry; otherwise the
    thunk that gets called. *)
Definition listener_call (this : Block) (index : nat) : option Thunk :=
  hs ← block_handlers this; snd <$> hs !! index.

(** The listeners in the store that the closures of block [oid] make up for
    handler [index]. *)
Definition owned_by (oid index : nat) (l : Listener) : bool :=
  bool_decide (l_owner l = oid) && bool_decide (l_index l = index).
Definition registrations (oid index : nat) (d : Dom) : nat :=
  length (filter (λ l, owned_by oid index l = true)
                 (concat (nlisteners <$> d))).

(** The object identities of the Node blocks of a block tree. *)
Fixpoint oids (b : Block) : list nat :=
  let oids_of :=
    fix go (cs : list (option Block)) : list nat :=
      match cs with
      | [] => []
      | Some c :: cs' => oids c ++ go cs'
      | None :: cs' => go cs'
      end in
  match b with
  | BNode oid _ _ children _ _ _ => oid :: from_option oids_of [] children
  | BMulti cs _ | BCollection cs _ => oids_of cs
  | BHtml _ _ _ _ | BText _ => []
  end.

(** ** Templates and their placeholders *)

Definition is_placeholder (t : DTree) : bool :=
  match t with
  | TElem tag _ _ _ => bool_decide (tag = anchor_tag)
  | _ => false
  end.

Definition kids_of (t : DTree) : list DTree :=
  match t with
  | TElem _ _ _ kids => kids
  | _ => []
  end.

(** The number of placeholder elements in [t], [t] included. *)
Fixpoint count_tagged (t : DTree) : nat :=
  (if is_placeholder t then 1 else 0) +
  match t with
  | TElem _ _ _ kids =>
      (fix go (ks : list DTree) : nat :=
         match ks with
         | [] => 0
         | k :: ks' => count_tagged k + go ks'
         end) kids
  | _ => 0
  end.

(** The number of placeholder elements a template contains: the ones below
    its root, as [getElementsByTagName] sees them. *)
Definition placeholders (t : DTree) : nat :=
  list_sum (count_tagged <$> kids_of t).

(** No placeholder lies inside another one. *)
Fixpoint flat (t : DTree) : bool :=
  match t with
  | TElem _ _ _ kids =>
      if is_placeholder t
      then bool_decide (list_sum (count_tagged <$> kids) = 0)
      else (fix go (ks : list DTree) : bool :=
              match ks with
              | [] => true
              | k :: ks' => flat k && go ks'
              end) kids
  | _ => true
  end.

Definition flat_template (t : DTree) : bool := forallb flat (kids_of t).

Definition is_TElem (t : DTree) : bool :=
  match t with TElem _ _ _ _ => true | _ => false end.

(** Trees of store nodes: the shape a part of the store has. *)
Inductive ITree := INode (id : nid) (k : NodeKind) (kids : list ITree).

Definition root_id (T : ITree) : nid := match T with INode n _ _ => n end.
Definition root_kind (T : ITree) : NodeKind :=
  match T with INode _ k _ => k end.
Definition ikids (T : ITree) : list ITree :=
  match T with INode _ _ ks => ks end.

Fixpoint tsize (t : DTree) : nat :=
  match t with
  | TElem _ _ _ kids =>
      S ((fix go (ks : list DTree) : nat :=
            match ks with
            | [] => 0
            | k :: ks' => tsize k + go ks'
            end) kids)
  | _ => 1
  end.

Definition dkind (t : DTree) : NodeKind :=
  match t with
  | TElem tag _ _ _ => KElement tag
  | TText _ => KText
  | TComment _ => KComment
  end.

(** The copy of [t] that [instantiate] builds at store index [n]: the nodes
    are numbered in document order. *)
Fixpoint label (t : DTree) (n : nid) : ITree :=
  INode n (dkind t)
    match t with
    | TElem _ _ _ kids =>
        (fix go (ks : list DTree) (n : nid) : list ITree :=
           match ks with
           | [] => []
           | k :: ks' => label k n :: go ks' (n + tsize k)
           end) kids (S n)
    | _ => []
    end.

Definition ikind_tagged (tag : string) (k : NodeKind) : bool :=
  match k with KElement t => bool_decide (t = tag) | _ => false end.

(** The nodes of [T] with the given tag, in document order. *)
Fixpoint tagged_ids (tag : string) (T : ITree) : list nid :=
  match T with
  | INode n k kids =>
      (if ikind_tagged tag k then [n] else [])
        ++ (fix go (ks : list ITree) : list nid :=
              match ks with
              | [] => []
              | k :: ks' => tagged_ids tag k ++ go ks'
              end) kids
  end.

Fixpoint ids (T : ITree) : list nid :=
  match T with
  | INode n _ kids =>
      n :: (fix go (ks : list ITree) : list nid :=
              match ks with
              | [] => []
              | k :: ks' => ids k ++ go ks'
              end) kids
  end.

(** [T] with the subtree at node [x] replaced by the text leaf [m]. *)
Fixpoint subst (x m : nid) (T : ITree) : ITree :=
  match T with
  | INode n k kids =>
      INode n k
        ((fix go (ks : list ITree) : list ITree :=
            match ks with
            | [] => []
            | kid :: ks' =>
                (if decide (root_id kid = x) then INode m KText []
                 else subst x m kid) :: go ks'
            end) kids)
  end.

(** The store holds the tree [T]: kinds, child lists and parent pointers
    are those of [T]. *)
Fixpoint Rep (d : Dom) (T : ITree) : Prop :=
  match T with
  | INode n k kids =>
      nkind <$> d !! n = Some k ∧
      children_of d n = root_id <$> kids ∧
      (fix go (ks : list ITree) : Prop :=
         match ks with
         | [] => True
         | kid :: ks' =>
             (parent_of d (root_id kid) = Some n ∧ Rep d kid) ∧ go ks'
         end) kids
  end.

(** The copies of a list of siblings, numbered from [n] on. *)
Fixpoint label_kids (ks : list DTree) (n : nid) : list ITree :=
  match ks with
  | [] => []
  | k :: ks' => label k n :: label_kids ks' (n + tsize k)
  end.

(** The placeholders below the root of [T], in document order: what the
    live collection of the root holds. *)
Definition placeholder_ids (T : ITree) : list nid :=
  concat (tagged_ids anchor_tag <$> ikids T).

(** No placeholder of [T] has another placeholder below it. *)
Fixpoint iflat (T : ITree) : Prop :=
  match T with
  | INode n k kids =>
      (ikind_tagged anchor_tag k = true →
       tagged_ids anchor_tag T = [n]) ∧
      (fix go (ks : list ITree) : Prop :=
         match ks with
         | [] => True
         | kid :: ks' => iflat kid ∧ go ks'
         end) kids
  end.

(** [T] after the placeholders [xs] made way for the markers [ms], one by
    one. *)
Definition subst_all (T : ITree) (xs ms : list nid) : ITree :=
  foldl (λ T xm, subst xm.1 xm.2 T) T (zip xs ms).

Section tree_induction.
Variable P : ITree → Prop.
Hypothesis HNode : ∀ n k kids, Forall P kids → P (INode n k kids).

Fixpoint ITree_nested_ind (T : ITree) : P T :=
  match T with
  | INode n k kids =>
      HNode n k kids
        ((fix go (ks : list ITree) : Forall P ks :=
            match ks with
            | [] => List.Forall_nil _
            | kid :: ks' =>
                List.Forall_cons _ _ _ (ITree_nested_ind kid) (go ks')
            end) kids)
  end.
End tree_induction.

Section template_induction.
Variable P : DTree → Prop.
Hypothesis HElem : ∀ tag attrs classes kids,
  Forall P kids → P (TElem tag attrs classes kids).
Hypothesis HText : ∀ s, P (TText s).
Hypothesis HComment : ∀ s, P (TComment s).

Fixpoint DTree_nested_ind (t : DTree) : P t :=
  match t with
  | TElem tag attrs classes kids =>
      HElem tag attrs classes kids
        ((fix go (ks : list DTree) : Forall P ks :=
            match ks with
            | [] => List.Forall_nil _
            | kid :: ks' =>
                List.Forall_cons _ _ _ (DTree_nested_ind kid) (go ks')
            end) kids)
  | TText s => HText s
  | TComment s => HComment s
  end.
End template_induction.

(** What [subst] does to a child. *)
Definition subst_kid (x m : nid) (kid : ITree) : ITree :=
  if decide (root_id kid = x) then INode m KText [] else subst x m kid.

(** What [instantiate] does: it appends the nodes of the copy to the
    store, numbered in document order, with no listener. *)
Definition instantiate_ok (t : DTree) : Prop :=
  ∀ p d, ∃ ext,
    instantiate t p d = (length d, d ++ ext) ∧
    length ext = tsize t ∧
    Rep (d ++ ext) (label t (length d)) ∧
    parent_of (d ++ ext) (length d) = p ∧
    concat (nlisteners <$> ext) = [].

(** The store after [x.replaceWith(m)], for [x] under [q] and a detached
    [m]. *)
Definition swap_store (q x m : nid) (d : Dom) : Dom :=
  set_parent x None
    (set_parent m (Some q)
       (set_children q (replace_in x m (children_of d q)) d)).

(** All the listeners registered in the store. *)
Definition all_listeners (d : Dom) : list Listener :=
  concat (nlisteners <$> d).

(** A computation that, whenever it returns, leaves a measure of the store
    as it was. *)
Definition preserves {X A} (Φ : Dom → X) (m : M A) : Prop :=
  ∀ d a d', m d = Ok a d' → Φ d' = Φ d.

(** The object identities of the Node blocks in a list of slots. *)
Definition oids_below (cs : list (option Block)) : list nat :=
  concat (from_option oids [] <$> cs).

(** The number of [setupHandler] calls of a class for handler [index]. *)
Definition sites (cls : NodeClass) (index : nat) : nat :=
  length (filter (λ s, s.2 = index) (setupHandlers_body cls)).

(** The shape of the store: kinds, parents and child lists. *)
Definition skeleton (d : Dom) : list (NodeKind * option nat * list nat) :=
  (λ x, (nkind x, nparent x, nchildren x)) <$> d.

(** ** Induction over block trees *)

Section Block_induction.
Variable P : Block → Prop.
Hypothesis HHtml : ∀ html content anchor el, P (BHtml html content anchor el).
Hypothesis HText : ∀ el, P (BText el).
Hypothesis HNode : ∀ oid cls el children anchors data handlers,
  Forall (from_option P True) (default [] children) →
  P (BNode oid cls el children anchors data handlers).
Hypothesis HMulti : ∀ cs anchors,
  Forall (from_option P True) cs → P (BMulti cs anchors).
Hypothesis HCollection : ∀ cs anchor,
  Forall (from_option P True) cs → P (BCollection cs anchor).

Fixpoint Block_nested_ind (b : Block) : P b :=
  let all :=
    fix go (cs : list (option Block)) : Forall (from_option P True) cs :=
      match cs with
      | [] => List.Forall_nil _
      | c :: cs' =>
          List.Forall_cons _ _ _
            (match c return from_option P True c with
             | Some b' => Block_nested_ind b'
             | None => I
             end) (go cs')
      end in
  match b with
  | BHtml html content anchor el => HHtml html content anchor el
  | BText el => HText el
  | BNode oid cls el children anchors data handlers =>
      HNode oid cls el children anchors data handlers
        (match children with
         | Some cs => all cs
         | None => List.Forall_nil _
         end)
  | BMulti cs anchors => HMulti cs anchors (all cs)
  | BCollection cs anchor => HCollection cs anchor (all cs)
  end.
End Block_induction.


(** The nodes [remove] detaches, in the order it detaches them. *)
Fixpoint removed_nodes (b : Block) : list nat :=
  match b with
  | BHtml _ content a _ => content ++ [a]
  | BText _ => []
  | BNode _ _ el _ _ _ _ => match el with Some e => [e] | None => [] end
  | BMulti cs anchors =>
      (fix go (cs : list (option Block)) (i : nat) : list nat :=
         match cs with
         | [] => []
         | c :: cs' =>
             match c with Some b' => removed_nodes b' | None => [] end
             ++ match js_get anchors i with Some m => [m] | None => [] end
             ++ go cs' (S i)
         end) cs 0
  | BCollection _ _ => []
  end.

Definition detach_all (l : list nat) (d : Dom) : Dom :=
  foldl (λ d e, detach e d) d l.

(** ** The documented behaviour, in the words of the specification *)

Section documented.
Variable parseHTML : string → list DTree.


(** The slot transition of Node and Multi reconciliation: "if both old
    and new children are absent, no-op; if old present and new absent,
    remove the old child and null the slot; if old absent and new
    present, mount the new child before that slot's marker and install
    it; if both present, recursively patch the old child with the new
    child". *)
Definition documented_transition (marker : option nid)
    (old new : option Block) : M (option Block) :=
  match old, new with
  | None, None => mret None
  | Some c, None => remove c;; mret None
  | None, Some n => n' ← mountBefore parseHTML n marker; mret (Some n')
  | Some c, Some n => c' ← patch parseHTML c n; mret (Some c')
  end.
End documented.

(** ** Sample inputs *)

(** A host parser for markup without tags or entities: the whole string
    becomes one text leaf, and the empty string gives no node. *)
Definition text_parser (s : string) : list DTree :=
  if decide (s = EmptyString) then [] else [TText s].

(** A host check of attribute names for the sample runs: a name is
    accepted when it is not empty and holds no ASCII whitespace. *)
Definition name_ok (a : string) : bool :=
  negb (bool_decide (a = EmptyString)) && negb (has_space a).

(** A store holding one empty [div], the container, at index [0]. *)
Definition container_store : Dom :=
  [new_node (KElement "div") None EmptyString [] []].

(** [<p></p>], no slot, no hook *)
Definition cls_p : NodeClass := mkNodeClass (TElem "p" [] [] []) [] [].

(** [<div><owl-anchor/><span><owl-anchor/></span></div>] with a click
    handler on the root *)
Definition cls_two_slots : NodeClass :=
  mkNodeClass
    (TElem "div" [] []
       [TElem anchor_tag [] [] [];
        TElem "span" [] [] [TElem anchor_tag [] [] []]])
    [] [([], 0)].

(** [<div><owl-anchor><owl-anchor/></owl-anchor></div>] *)
Definition cls_nested : NodeClass :=
  mkNodeClass
    (TElem "div" [] [] [TElem anchor_tag [] [] [TElem anchor_tag [] [] []]])
    [] [].

(** [<button></button>] with a click handler on the root *)
Definition cls_button : NodeClass :=
  mkNodeClass (TElem "button" [] [] []) [] [([], 0)].

Definition leaf_node (oid : nat) : Block :=
  BNode oid cls_p None None None None None.

(** The detached tree a part of the store reads back as. *)
Fixpoint readback (fuel : nat) (d : Dom) (n : nid) : option DTree :=
  match fuel with
  | 0 => None
  | S f =>
      x ← d !! n;
      match nkind x with
      | KText => Some (TText (ntext x))
      | KComment => Some (TComment (ntext x))
      | KElement tag =>
          kids ← mapM (readback f d) (nchildren x);
          Some (TElem tag (nattrs x) (nclasses x) kids)
      end
  end.

(** An Html block created with markup [own], mounted in the container and
    patched with an Html block created with markup [successor]. *)
Definition html_patch_scenario (own successor : string) : M Block :=
  b ← new_BHtml own;
  b' ← mount text_parser b 0;
  other ← new_BHtml successor;
  patch text_parser b' other.

(** A Multi block with two children, and its successor without the
    second child. *)
Definition multi_both : Block :=
  BMulti [Some (leaf_node 1); Some (leaf_node 2)] [None; None].
Definition multi_first_only : Block :=
  BMulti [Some (leaf_node 3); None] [None; None].

(** A button block whose click handler is [thunk]. *)
Definition button (oid : nat) (thunk : Thunk) : Block :=
  BNode oid cls_button None None None None (Some [("click", thunk)]).

(** A block of two slots, and a successor with the children the other way
    round. *)
Definition two_slots : Block :=
  BNode 7 cls_two_slots None (Some [Some (leaf_node 1); None]) None None
        (Some [("click", 11)]).

(** A store holding the container and, under it, one text marker at
    index [1]. *)
Definition marked_store : Dom :=
  [with_children [1] (new_node (KElement "div") None EmptyString [] []);
   new_node KText (Some 0) EmptyString [] []].

(** The block [two_slots] once mounted in the container, with the store
    the mount leaves. *)
Definition two_slots_mounted : Res Block :=
  Eval vm_compute in mount text_parser two_slots 0 container_store.

(** A block of two slots over the template with nested placeholders. *)
Definition nested_block : Block :=
  BNode 7 cls_nested None (Some [None; None]) None None None.


(** ** Further definitions: removal, attributes, closed stores,
    serialization *)

(** The blocks on which [remove] finds what it dereferences: every Node
    block has its element, every slot of a Multi block holds a block and
    has its marker. *)
Fixpoint removable (b : Block) : bool :=
  match b with
  | BHtml _ _ _ _ | BText _ | BCollection _ _ => true
  | BNode _ _ el _ _ _ _ => bool_decide (is_Some el)
  | BMulti cs anchors =>
      (fix go (cs : list (option Block)) (i : nat) : bool :=
         match cs with
         | [] => true
         | c :: cs' =>
             match c with Some b' => removable b' | None => false end
             && bool_decide (is_Some (js_get anchors i))
             && go cs' (S i)
         end) cs 0
  end.

(** [n.classList], as a list *)
Definition classes_of (d : Dom) (n : nat) : list string :=
  from_option nclasses [] (d !! n).



(** Every parent and child reference of the store points into the
    store. *)
Definition closed (d : Dom) : bool :=
  forallb (λ x, from_option (λ q, bool_decide (q < length d)) true (nparent x)
                && forallb (λ c, bool_decide (c < length d)) (nchildren x)) d.

(** The nodes below index [n0] have their parents below [n0]. *)
Definition up_closed (n0 : nat) (d : Dom) : Prop :=
  ∀ n q, n < n0 → parent_of d n = Some q → q < n0.

Section serialization.
Variable parseHTML : string → list DTree.
(** The serializer of the host: what reading [innerHTML] makes of the
    children of an element. *)
Variable serializeHTML : list DTree → string.

(** [n.innerHTML] (getter) *)
Definition innerHTML (n : nat) : M string :=
  gets (λ d, serializeHTML
               (omap (readback (length d) d) (children_of d n))).

(** [toString], by class, with the block as the call leaves it.
    [BCollection] defines none and inherits [Object.prototype.toString]. *)
Fixpoint toString (b : Block) : M (string * Block) :=
  match b with
  | BHtml html _ _ _ => mret (html, b)
  | BText el => s ← gets (λ d, textContent (length d) d el); mret (s, b)
  | BNode _ _ _ _ _ _ _ =>
      div ← createElement "div";
      b' ← mount parseHTML b div;
      s ← innerHTML div;
      mret (s, b')
  | BMulti cs anchors =>
      rs ← forM_from
             (λ (i : nat) c,
                match c with
                | Some c => '(s, c') ← toString c; mret (s, Some c')
                | None => mret (EmptyString, None)
                end) 0 cs;
      mret (fold_right String.append EmptyString (rs.*1),
            BMulti (rs.*2) anchors)
  | BCollection _ _ => mret ("[object Object]", b)
  end.

(** What a Text or Html block serializes to; [None] for the other
    classes. *)
Definition leaf_string (d : Dom) (b : Block) : option string :=
  match b with
  | BHtml html _ _ _ => Some html
  | BText el => Some (textContent (length d) d el)
  | _ => None
  end.
End serialization.

(** A host serializer for trees of text leaves: the texts, concatenated;
    any other node gives nothing. *)
Definition text_serializer (ts : list DTree) : string :=
  fold_right String.append EmptyString
    (map (λ t, match t with TText s => s | _ => EmptyString end) ts).

(** An Html block created with markup ["a"] and mounted in the
    container, with the store the mount leaves. *)
Definition html_mounted : Res Block :=
  Eval vm_compute in
    (b ← new_BHtml "a"; mount text_parser b 0) container_store.

(** A Multi block holding its first child only, mounted in the
    container. *)
Definition multi_first_mounted : Res Block :=
  Eval vm_compute in
    mount text_parser (BMulti [Some (leaf_node 1); None] [None; None]) 0
          container_store.

(** A successor of [two_slots] with one slot. *)
Definition one_slot_successor : Block :=
  BNode 8 cls_two_slots None (Some [None]) None None (Some [("click", 12)]).


(** ** Mounted trees of Node blocks *)

(** A tree of Node blocks over well-formed templates: every block is a
    Node block, as the type of [BNode.children] has it; its template is an
    element; a block with slots has as many slots as its template has
    placeholders. *)
Fixpoint node_tree (b : Block) : bool :=
  match b with
  | BNode _ cls _ children _ _ _ =>
      is_TElem (static_el cls) &&
      match children with
      | None => true
      | Some cs =>
          bool_decide (length cs = placeholders (static_el cls)) &&
          (fix go (cs : list (option Block)) : bool :=
             match cs with
             | [] => true
             | c :: cs' =>
                 match c with Some b' => node_tree b' | None => true end
                 && go cs'
             end) cs
      end
  | _ => false
  end.

(** The successor has the shape of the block: the same number of slots,
    and so on wherever both hold a child. *)
Fixpoint same_shape (b other : Block) : bool :=
  match b with
  | BNode _ _ _ children _ _ _ =>
      match children with
      | None => true
      | Some cs =>
          match block_children other with
          | None => false
          | Some ncs =>
              bool_decide (length ncs = length cs) &&
              (fix go (cs ncs : list (option Block)) : bool :=
                 match cs, ncs with
                 | c :: cs', n :: ncs' =>
                     match c, n with
                     | Some c, Some n => same_shape c n
                     | _, _ => true
                     end && go cs' ncs'
                 | _, _ => true
                 end) cs ncs
          end
      end
  | _ => true
  end.

(** [m] is a text node that sits in the child list of its parent. *)
Definition marker_at (d : Dom) (m : nid) : Prop :=
  nkind <$> d !! m = Some KText ∧ attached d m.

(** A tree of Node blocks as [mountBefore] leaves it: every block has its
    element, an element node, and, when it has slots, one marker per slot,
    each a text node in the tree; the children are mounted in turn. *)
Fixpoint mounted (d : Dom) (b : Block) : Prop :=
  match b with
  | BNode _ _ el children anchors _ _ =>
      (∃ e, el = Some e ∧ is_element d e = true) ∧
      match children with
      | None => True
      | Some cs =>
          ∃ ms, anchors = Some ms ∧ length ms = length cs ∧
                Forall (marker_at d) ms ∧
                (fix go (cs : list (option Block)) : Prop :=
                   match cs with
                   | [] => True
                   | c :: cs' =>
                       match c with Some b' => mounted d b' | None => True end
                       ∧ go cs'
                   end) cs
      end
  | _ => False
  end.

(** From one store to a later one: no node is freed or changes kind, and
    every text node that sits in the child list of its parent stays there,
    under the same parent. *)
Definition stable (d d' : Dom) : Prop :=
  length d ≤ length d' ∧
  (∀ n, n < length d → nkind <$> d' !! n = nkind <$> d !! n) ∧
  (∀ m, marker_at d m → parent_of d' m = parent_of d m ∧ attached d' m).

(** The rounds of a loop over [l] from index [i] on, each with the effect
    [E] on the store, one after the other: from [d] to [d'], leaving
    [rs]. *)
Fixpoint rounds {A B} (E : nat → A → Dom → B → Dom → Prop) (i : nat)
    (l : list A) (d : Dom) (rs : list B) (d' : Dom) : Prop :=
  match l, rs with
  | [], [] => d' = d
  | x :: l', r :: rs' => ∃ d1, E i x d r d1 ∧ rounds E (S i) l' d1 rs' d'
  | _, _ => False
  end.

(** From [d] to [d'] the block [b'] has been mounted before [m], a child
    of [p]: its element is a node that [d] did not have, put immediately
    before [m] in the child list of [p]; the block is mounted; every node
    of [d] keeps its kind and its parent and, [p] apart, its children. *)
Definition mounted_before (m p : nid) (d : Dom) (b' : Block) (d' : Dom)
    : Prop :=
  block_el b' = Some (length d) ∧
  length d < length d' ∧
  mounted d' b' ∧
  parent_of d' (length d) = Some p ∧
  (∀ pre suf, children_of d p = pre ++ m :: suf → m ∉ pre →
              children_of d' p = pre ++ length d :: m :: suf) ∧
  (∀ x, x < length d →
        nkind <$> d' !! x = nkind <$> d !! x ∧
        parent_of d' x = parent_of d x ∧
        (x ≠ p → children_of d' x = children_of d x)).

Section transitions.
Variable parseHTML : string → list DTree.

(** The documented transition of one slot, as an effect on the store.
    Both absent: nothing happens.  Old present, new absent: the slot is
    emptied and the element of the old child is taken out of the child
    list of its parent.  Old absent, new present: the slot holds the new
    child, mounted immediately before the marker of the slot.  Both
    present: the slot holds the old child, patched with the new one; it
    keeps its element and has the data of the new child. *)
Definition slot_effect (marker : option nid) (old new : option Block)
    (d : Dom) (r : option Block) (d' : Dom) : Prop :=
  match old, new with
  | None, None => r = None ∧ d' = d
  | Some c, None =>
      r = None ∧
      ∃ e, block_el c = Some e ∧ d' = detach e d ∧
           parent_of d' e = None ∧
           (∀ q, parent_of d e = Some q →
                 children_of d' q = filter (λ x, x ≠ e) (children_of d q))
  | None, Some n =>
      ∃ n' m p,
        r = Some n' ∧ marker = Some m ∧ parent_of d m = Some p ∧
        mountBefore parseHTML n (Some m) d = Ok n' d' ∧
        mounted_before m p d n' d' ∧
        node_tree n' = true ∧ block_data n' = block_data n
  | Some c, Some n =>
      ∃ c',
        r = Some c' ∧ patch parseHTML c n d = Ok c' d' ∧
        block_el c' = block_el c ∧ block_data c' = block_data n ∧
        mounted d' c' ∧ node_tree c' = true
  end.

(** The transitions of the slots [olds], from slot [i] on, against the
    new children [news], one after the other; no transition moves a text
    node that sits in the child list of its parent. *)
Definition transitions (marker : nat → option nid)
    (news : list (option Block)) : nat → list (option Block) → Dom →
    list (option Block) → Dom → Prop :=
  rounds (λ i old d r d',
            slot_effect (marker i) old (js_get news i) d r d' ∧
            stable d d').

(** What [patch] keeps of a mounted tree of Node blocks, patched with a
    tree of Node blocks of its shape: the tree is mounted, with the same
    element and the data of the successor, and no text node that sits in
    the child list of its parent has moved. *)
Definition patch_keeps_mounted (b : Block) : Prop :=
  node_tree b = true →
  ∀ other d b' d',
    node_tree other = true → same_shape b other = true →
    mounted d b → up_closed (length d) d →
    patch parseHTML b other d = Ok b' d' →
    stable d d' ∧ up_closed (length d') d' ∧
    mounted d' b' ∧ node_tree b' = true ∧
    block_el b' = block_el b ∧ block_data b' = block_data other.
End transitions.


(** * Reasoning about the store *)

Lemma bind_Ok {A B} (m : M A) (f : A → M B) d b d' :
  (m ≫= f) d = Ok b d' ↔ ∃ a d1, m d = Ok a d1 ∧ f a d1 = Ok b d'.
Proof.
  unfold mbind, M_bind. destruct (m d) as [a d1|e]; split.
  - eauto.
  - by intros (? & ? & [= <- <-] & ?).
  - done.
  - by intros (? & ? & ? & ?).
Qed.

Lemma bind_eq {A B} (m : M A) (f : A → M B) d a d1 :
  m d = Ok a d1 → (m ≫= f) d = f a d1.
Proof. unfold mbind, M_bind. by intros ->. Qed.

Lemma bind_throw {A B} (m : M A) (f : A → M B) d e :
  m d = Throw e → (m ≫= f) d = Throw e.
Proof. unfold mbind, M_bind. by intros ->. Qed.

Section store.
Implicit Types (d : Dom) (n m e : nat).

Lemma lookup_alter_proj {X} (g : DomNode → X) (f : DomNode → DomNode) d n m :
  (∀ x, g (f x) = g x) → g <$> alter f n d !! m = g <$> d !! m.
Proof.
  intros Hg. rewrite list_lookup_alter.
  destruct (decide (n = m)) as [->|Hnm]; [|done].
  destruct (d !! m); simpl; [by rewrite Hg|done].
Qed.

Lemma text_of_alter f d n m :
  (∀ x, ntext (f x) = ntext x) → text_of (alter f n d) m = text_of d m.
Proof.
  intros Hf. unfold text_of.
  pose proof (lookup_alter_proj ntext f d n m Hf) as H.
  destruct (alter f n d !! m), (d !! m); simplify_eq/=; done.
Qed.

Lemma kind_alter f d n m :
  (∀ x, nkind (f x) = nkind x) →
  nkind <$> alter f n d !! m = nkind <$> d !! m.
Proof. apply lookup_alter_proj. Qed.

Lemma parent_of_alter f d n m :
  (∀ x, nparent (f x) = nparent x) →
  parent_of (alter f n d) m = parent_of d m.
Proof.
  intros Hf. unfold parent_of.
  pose proof (lookup_alter_proj nparent f d n m Hf) as H.
  destruct (alter f n d !! m), (d !! m); simplify_eq/=; done.
Qed.

Lemma children_of_alter f d n m :
  (∀ x, nchildren (f x) = nchildren x) →
  children_of (alter f n d) m = children_of d m.
Proof.
  intros Hf. unfold children_of.
  pose proof (lookup_alter_proj nchildren f d n m Hf) as H.
  destruct (alter f n d !! m), (d !! m); simplify_eq/=; done.
Qed.

Lemma parent_of_set_parent d n p m :
  parent_of (set_parent n p d) m =
  if decide (n = m ∧ m < length d) then p else parent_of d m.
Proof.
  unfold parent_of, set_parent. rewrite list_lookup_alter.
  destruct (decide (n = m)) as [->|Hnm].
  - destruct (d !! m) eqn:Hm; simpl.
    + apply lookup_lt_Some in Hm. by rewrite decide_True.
    + apply lookup_ge_None in Hm. rewrite decide_False; [done|lia].
  - rewrite decide_False; [done|]. by intros [? _].
Qed.

Lemma children_of_set_children d n cs m :
  children_of (set_children n cs d) m =
  if decide (n = m ∧ m < length d) then cs else children_of d m.
Proof.
  unfold children_of, set_children. rewrite list_lookup_alter.
  destruct (decide (n = m)) as [->|Hnm].
  - destruct (d !! m) eqn:Hm; simpl.
    + apply lookup_lt_Some in Hm. by rewrite decide_True.
    + apply lookup_ge_None in Hm. rewrite decide_False; [done|lia].
  - rewrite decide_False; [done|]. by intros [? _].
Qed.

Lemma parent_of_set_children d n cs m :
  parent_of (set_children n cs d) m = parent_of d m.
Proof. by apply parent_of_alter. Qed.

Lemma children_of_set_parent d n p m :
  children_of (set_parent n p d) m = children_of d m.
Proof. by apply children_of_alter. Qed.

Lemma length_set_parent d n p : length (set_parent n p d) = length d.
Proof. apply length_alter. Qed.
Lemma length_set_children d n cs : length (set_children n cs d) = length d.
Proof. apply length_alter. Qed.

Lemma length_detach d e : length (detach e d) = length d.
Proof.
  unfold detach. destruct (parent_of d e); [|done].
  by rewrite length_set_parent, length_set_children.
Qed.

Lemma detach_orphan d e : parent_of d e = None → detach e d = d.
Proof. unfold detach. by intros ->. Qed.

Lemma parent_of_detach d e m :
  parent_of (detach e d) m = if decide (e = m) then None else parent_of d m.
Proof.
  unfold detach. destruct (parent_of d e) as [p|] eqn:Hp.
  - rewrite parent_of_set_parent, parent_of_set_children,
      length_set_children.
    destruct (decide (e = m)) as [->|Hne].
    + destruct (decide (m < length d)) as [Hlt|Hge].
      * rewrite decide_True; done.
      * rewrite decide_False by (by intros [_ ?]).
        unfold parent_of. rewrite lookup_ge_None_2; [done|lia].
    + rewrite decide_False; [done|]. by intros [? _].
  - destruct (decide (e = m)) as [->|Hne]; done.
Qed.

Lemma children_of_detach d e m :
  children_of (detach e d) m =
  if decide (parent_of d e = Some m)
  then filter (λ x, x ≠ e) (children_of d m) else children_of d m.
Proof.
  unfold detach. destruct (parent_of d e) as [p|] eqn:Hp.
  - rewrite children_of_set_parent, children_of_set_children.
    destruct (decide (Some p = Some m)) as [[= ->]|Hne].
    + destruct (decide (m < length d)) as [Hlt|Hge].
      * rewrite decide_True; done.
      * rewrite decide_False by (by intros [_ ?]).
        unfold children_of. rewrite lookup_ge_None_2; [done|lia].
    + rewrite decide_False; [done|]. intros [-> _]. done.
  - by rewrite decide_False.
Qed.

Lemma text_of_detach d e m : text_of (detach e d) m = text_of d m.
Proof.
  unfold detach. destruct (parent_of d e); [|done].
  unfold set_parent, set_children. by rewrite !text_of_alter.
Qed.

Lemma kind_detach d e m : nkind <$> detach e d !! m = nkind <$> d !! m.
Proof.
  unfold detach. destruct (parent_of d e); [|done].
  unfold set_parent, set_children. by rewrite !kind_alter.
Qed.

Lemma is_element_kind d d' n :
  nkind <$> d' !! n = nkind <$> d !! n → is_element d' n = is_element d n.
Proof. unfold is_element. by intros ->. Qed.

Lemma elem_of_insert_before a e l : a ∈ l → e ∈ insert_before a e l.
Proof.
  induction l as [|x l IH]; simpl; [by intros ?%elem_of_nil|].
  destruct (decide (x = a)) as [->|Hne]; [intros _; apply elem_of_cons; auto|].
  intros [?|?]%elem_of_cons; [done|].
  apply elem_of_cons. right. auto.
Qed.

Lemma insert_before_split a e l1 l2 :
  a ∉ l1 → insert_before a e (l1 ++ a :: l2) = l1 ++ e :: a :: l2.
Proof.
  induction l1 as [|x l1 IH]; simpl; intros Hn.
  - by rewrite decide_True.
  - apply not_elem_of_cons in Hn as [Hxa Hn].
    rewrite decide_False by done. f_equal. by apply IH.
Qed.
End store.

Section store_primitives.
Implicit Types (d : Dom).

Lemma parent_of_app d x n :
  parent_of (d ++ [x]) n =
  if decide (n = length d) then nparent x else parent_of d n.
Proof.
  unfold parent_of. destruct (decide (n = length d)) as [->|Hne].
  - by rewrite list_lookup_middle.
  - destruct (decide (n < length d)).
    + by rewrite lookup_app_l.
    + rewrite !lookup_ge_None_2; [done|lia|rewrite length_app; simpl; lia].
Qed.

Lemma children_of_app d x n :
  children_of (d ++ [x]) n =
  if decide (n = length d) then nchildren x else children_of d n.
Proof.
  unfold children_of. destruct (decide (n = length d)) as [->|Hne].
  - by rewrite list_lookup_middle.
  - destruct (decide (n < length d)).
    + by rewrite lookup_app_l.
    + rewrite !lookup_ge_None_2; [done|lia|rewrite length_app; simpl; lia].
Qed.

Lemma text_of_app d x n :
  text_of (d ++ [x]) n =
  if decide (n = length d) then ntext x else text_of d n.
Proof.
  unfold text_of. destruct (decide (n = length d)) as [->|Hne].
  - by rewrite list_lookup_middle.
  - destruct (decide (n < length d)).
    + by rewrite lookup_app_l.
    + rewrite !lookup_ge_None_2; [done|lia|rewrite length_app; simpl; lia].
Qed.

Lemma is_element_app d x n :
  is_element (d ++ [x]) n =
  if decide (n = length d)
  then match nkind x with KElement _ => true | _ => false end
  else is_element d n.
Proof.
  unfold is_element. destruct (decide (n = length d)) as [->|Hne].
  - by rewrite list_lookup_middle.
  - destruct (decide (n < length d)).
    + by rewrite lookup_app_l.
    + rewrite !lookup_ge_None_2; [done|lia|rewrite length_app; simpl; lia].
Qed.

Lemma is_element_lt d n : is_element d n = true → n < length d.
Proof.
  unfold is_element. destruct (d !! n) eqn:Hn; [|done].
  intros _. by apply lookup_lt_Some in Hn.
Qed.

Lemma is_element_alter f d n m :
  (∀ x, nkind (f x) = nkind x) →
  is_element (alter f n d) m = is_element d m.
Proof. intros Hf. unfold is_element. by rewrite kind_alter. Qed.

Lemma is_element_detach d e m : is_element (detach e d) m = is_element d m.
Proof. unfold is_element. by rewrite kind_detach. Qed.

(** A node that is not an element never stops an insertion. *)
Lemma hierarchy_ok_leaf d e p :
  is_element d e = false → hierarchy_violation d e p = false.
Proof. unfold hierarchy_violation. by intros ->. Qed.

Lemma createTextNode_eq s d :
  createTextNode s d = Ok (length d) (d ++ [new_node KText None s [] []]).
Proof. done. Qed.

(** [a.before(e)] for a leaf [e] and an attached marker [a]. *)
Lemma before_leaf d a e p :
  parent_of d a = Some p → is_element d e = false → e ≠ a →
  before (Some a) e d = Ok () (place_before p a e d).
Proof.
  intros Hp He Hne. unfold before. rewrite Hp, hierarchy_ok_leaf by done.
  by rewrite decide_False.
Qed.

Lemma appendChild_leaf d p e :
  is_element d e = false →
  appendChild p e d =
    Ok () (set_parent e (Some p)
             (set_children p (children_of (detach e d) p ++ [e])
                (detach e d))).
Proof. intros He. unfold appendChild. by rewrite hierarchy_ok_leaf. Qed.

Lemma parent_of_place_before d p a e m :
  parent_of (place_before p a e d) m =
  if decide (e = m)
  then (if decide (m < length d) then Some p else None)
  else parent_of d m.
Proof.
  unfold place_before.
  rewrite parent_of_set_parent, parent_of_set_children, parent_of_detach.
  rewrite length_set_children, length_detach.
  destruct (decide (e = m)) as [->|Hne].
  - destruct (decide (m < length d)).
    + rewrite decide_True; done.
    + rewrite decide_False; [done|]. by intros [_ ?].
  - rewrite decide_False; [done|]. by intros [? _].
Qed.

Lemma text_of_place_before d p a e m :
  text_of (place_before p a e d) m = text_of d m.
Proof.
  unfold place_before, set_parent, set_children.
  by rewrite !text_of_alter, text_of_detach.
Qed.

Lemma kind_place_before d p a e m :
  nkind <$> place_before p a e d !! m = nkind <$> d !! m.
Proof.
  unfold place_before, set_parent, set_children.
  by rewrite !kind_alter, kind_detach.
Qed.

Lemma length_place_before d p a e :
  length (place_before p a e d) = length d.
Proof.
  unfold place_before.
  by rewrite length_set_parent, length_set_children, length_detach.
Qed.

Lemma children_of_place_before d p a e :
  p < length d →
  children_of (place_before p a e d) p =
  insert_before a e (children_of (detach e d) p).
Proof.
  intros Hp. unfold place_before.
  rewrite children_of_set_parent, children_of_set_children, length_detach.
  rewrite decide_True; done.
Qed.
End store_primitives.

(** * Text block *)

Section text_block.
Variable parseHTML : string → list DTree.

Lemma textContent_text d n x :
  d !! n = Some x → nkind x = KText → textContent (length d) d n = ntext x.
Proof.
  intros Hn Hk. pose proof (lookup_lt_Some _ _ _ Hn) as Hlt.
  destruct (length d) as [|f] eqn:Hlen; [lia|]. simpl.
  by rewrite Hn, Hk.
Qed.

(** [BText.patch] copies the text of the successor's leaf onto the
    block's own leaf and changes nothing else in the store. *)
Lemma BText_patch_eq el el2 d x2 :
  d !! el2 = Some x2 → nkind x2 = KText →
  patch parseHTML (BText el) (BText el2) d =
    Ok (BText el) (alter (with_text (ntext x2)) el d).
Proof.
  intros H2 Hk. simpl. unfold mbind, M_bind, gets, set_textContent, modify.
  simpl. by rewrite (textContent_text _ _ _ H2 Hk).
Qed.

Lemma BText_mount_eq el parent d :
  is_element d parent = true → parent_of d el = None →
  is_element d el = false → el < length d →
  ∃ d',
    mount parseHTML (BText el) parent d = Ok (BText el) d' ∧
    text_of d' el = text_of d el ∧
    nkind <$> d' !! el = nkind <$> d !! el ∧
    parent_of d' el = Some parent ∧
    el ∈ children_of d' parent.
Proof.
  intros Hpar Hel Hleaf Hlt.
  pose proof (is_element_lt _ _ Hpar) as Hplt.
  unfold mount.
  rewrite (bind_eq _ _ _ _ _ (createTextNode_eq _ _)).
  set (a := length d).
  set (d1 := d ++ [new_node KText None EmptyString [] []]).
  assert (is_element d1 a = false) as Ha1.
  { unfold d1, a. rewrite is_element_app, decide_True; done. }
  assert (parent_of d1 a = None) as Hpa1.
  { unfold d1, a. rewrite parent_of_app, decide_True; done. }
  rewrite (bind_eq _ _ _ _ _ (appendChild_leaf _ _ _ Ha1)).
  rewrite (detach_orphan _ _ Hpa1).
  set (d2 := set_parent a (Some parent) _).
  assert (length d1 = S (length d)) as Hlen1.
  { unfold d1. rewrite length_app. simpl. lia. }
  assert (length d2 = S (length d)) as Hlen2.
  { unfold d2. by rewrite length_set_parent, length_set_children. }
  assert (parent_of d2 a = Some parent) as Hpa2.
  { unfold d2. rewrite parent_of_set_parent, length_set_children.
    rewrite decide_True; [done|]. split; [done|]. unfold a. lia. }
  assert (a ∈ children_of d2 parent) as Hin2.
  { unfold d2. rewrite children_of_set_parent, children_of_set_children.
    rewrite decide_True by (split; [done|lia]).
    apply elem_of_app. right. by apply list_elem_of_singleton. }
  assert (is_element d2 el = false) as Hel2.
  { unfold d2, set_parent, set_children.
    rewrite !is_element_alter by done.
    unfold d1. rewrite is_element_app, decide_False; [done|unfold a; lia]. }
  assert (parent_of d2 el = None) as Hpel2.
  { unfold d2. rewrite parent_of_set_parent, parent_of_set_children.
    rewrite decide_False by (intros [? _]; unfold a in *; lia).
    unfold d1. rewrite parent_of_app, decide_False; [done|lia]. }
  assert (el ≠ a) as Hne by (unfold a; lia).
  cbn [mountBefore]. unfold mbind, M_bind.
  rewrite (before_leaf _ _ _ _ Hpa2 Hel2 Hne).
  unfold mret, M_ret, removeNode, modify.
  eexists. split; [done|].
  assert (text_of d2 el = text_of d el) as Ht2.
  { unfold d2, set_parent, set_children. rewrite !text_of_alter by done.
    unfold d1. rewrite text_of_app, decide_False; [done|lia]. }
  assert (nkind <$> d2 !! el = nkind <$> d !! el) as Hk2.
  { unfold d2, set_parent, set_children. rewrite !kind_alter by done.
    unfold d1. by rewrite lookup_app_l. }
  split; [by rewrite text_of_detach, text_of_place_before|].
  split; [by rewrite kind_detach, kind_place_before|].
  split.
  - rewrite parent_of_detach, decide_False by done.
    rewrite parent_of_place_before, decide_True by done.
    rewrite decide_True; [done|lia].
  - rewrite children_of_detach.
    assert (el ∈ children_of (place_before parent a el d2) parent) as Hin.
    { rewrite children_of_place_before by lia.
      apply elem_of_insert_before. by rewrite (detach_orphan _ _ Hpel2). }
    destruct (decide _); [|done].
    apply list_elem_of_filter. done.
Qed.
(** Creating a Text block and mounting it in a container. *)
Lemma BText_new_mount (d : Dom) (parent : nid) (s : string) :
  is_element d parent = true →
  ∃ el d1 d2,
    new_BText s d = Ok (BText el) d1 ∧
    mount parseHTML (BText el) parent d1 = Ok (BText el) d2 ∧
    text_of d2 el = s ∧
    parent_of d2 el = Some parent ∧ el ∈ children_of d2 parent ∧
    el = length d.
Proof.
  intros Hpar. pose proof (is_element_lt _ _ Hpar) as Hplt.
  set (d1 := d ++ [new_node KText None s [] []]).
  destruct (BText_mount_eq (length d) parent d1)
    as (d2 & Hm & Ht & Hk & Hp & Hin).
  - unfold d1. rewrite is_element_app, decide_False; [done|lia].
  - unfold d1. rewrite parent_of_app, decide_True; done.
  - unfold d1. rewrite is_element_app, decide_True; done.
  - unfold d1. rewrite length_app. simpl. lia.
  - exists (length d), d1, d2. split; [done|]. split; [done|].
    split. { rewrite Ht. unfold d1. rewrite text_of_app, decide_True; done. }
    done.
Qed.

(** C9. A Text block created with text [s] and mounted in a container
    shows [s] on its leaf [el], attached under the container.  Patching
    it with a Text block created with [s2] returns the block with the
    same leaf [el], whose text is now [s2]; the store is otherwise what
    it was: no node is created, moved or replaced. *)
Theorem BText_mount_patch_keeps_handle (d : Dom) (parent : nid)
    (s : string) :
  is_element d parent = true →
  ∃ el d1 d2,
    new_BText s d = Ok (BText el) d1 ∧
    mount parseHTML (BText el) parent d1 = Ok (BText el) d2 ∧
    text_of d2 el = s ∧
    parent_of d2 el = Some parent ∧ el ∈ children_of d2 parent ∧
    ∀ (d3 : Dom) (s2 : string), el < length d3 →
      ∃ el2 d3' d4,
        new_BText s2 d3 = Ok (BText el2) d3' ∧
        patch parseHTML (BText el) (BText el2) d3' = Ok (BText el) d4 ∧
        block_el (BText el) = Some el ∧
        text_of d4 el = s2 ∧
        d4 = alter (with_text s2) el d3' ∧
        ∀ n, parent_of d4 n = parent_of d3' n ∧
             children_of d4 n = children_of d3' n ∧
             nkind <$> d4 !! n = nkind <$> d3' !! n.
Proof.
  intros Hpar.
  destruct (BText_new_mount d parent s Hpar)
    as (el & d1 & d2 & Hnew & Hm & Ht & Hp & Hin & ->).
  exists (length d), d1, d2. do 5 (split; [done|]).
  intros d3 s2 Hlt.
  set (x2 := new_node KText None s2 [] []).
  exists (length d3), (d3 ++ [x2]),
    (alter (with_text s2) (length d) (d3 ++ [x2])).
  split; [done|].
  split.
  { apply (BText_patch_eq _ _ _ x2); [|done]. by apply list_lookup_middle. }
  split; [done|].
  split.
  { unfold text_of. rewrite list_lookup_alter_eq, lookup_app_l by done.
    destruct (d3 !! length d) eqn:Hl; [done|].
    apply lookup_ge_None in Hl. lia. }
  split; [done|]. intros n.
  by rewrite parent_of_alter, children_of_alter, kind_alter.
Qed.

(** [BText] has no [remove] of its own: the call is the empty
    [Block.remove] and leaves the store as it is. *)
Lemma BText_remove_noop el d : remove (BText el) d = Ok () d.
Proof. done. Qed.

(** C3. After a Text block is created, mounted in a container and
    removed, its text leaf is still attached under the container:
    [remove()] on a Text block releases nothing. *)
Theorem BText_remove_keeps_leaf (d : Dom) (parent : nid) (s : string) :
  is_element d parent = true →
  ∃ el d1 d2,
    new_BText s d = Ok (BText el) d1 ∧
    mount parseHTML (BText el) parent d1 = Ok (BText el) d2 ∧
    remove (BText el) d2 = Ok () d2 ∧
    attached d2 el ∧ text_of d2 el = s.
Proof.
  intros Hpar.
  destruct (BText_new_mount d parent s Hpar)
    as (el & d1 & d2 & Hnew & Hm & Ht & Hp & Hin & _).
  exists el, d1, d2. repeat split; try done. by exists parent.
Qed.
End text_block.

(** * Loops *)

Lemma bind_Throw {A B} (m : M A) (f : A → M B) d e :
  (m ≫= f) d = Throw e ↔
  m d = Throw e ∨ ∃ a d1, m d = Ok a d1 ∧ f a d1 = Throw e.
Proof.
  unfold mbind, M_bind. destruct (m d) as [a d1|e1]; split.
  - intros H. right. exists a, d1. split; [reflexivity|exact H].
  - by intros [?|(? & ? & [= <- <-] & ?)].
  - intros [= ->]. by left.
  - by intros [[= ->]|(? & ? & ? & ?)].
Qed.

Section loop_lemmas.
Context {A B : Type}.
Implicit Types (l : list A) (d : Dom).

Lemma forM_from_length (f : nat → A → M B) i l d (r : list B) d' :
  forM_from f i l d = Ok r d' → length r = length l.
Proof.
  revert i d r d'. induction l as [|x l IH]; intros i d r d' H.
  - by injection H as <- <-.
  - simpl in H. apply bind_Ok in H as (y & d1 & _ & H).
    apply bind_Ok in H as (ys & d2 & Hys & H).
    injection H as <- <-. simpl. f_equal. eauto.
Qed.

(** Two loop bodies that agree on the indices the loop visits. *)
Lemma forM_from_ext (f g : nat → A → M B) i l d :
  (∀ j x d, l !! j = Some x → f (i + j) x d = g (i + j) x d) →
  forM_from f i l d = forM_from g i l d.
Proof.
  revert i d. induction l as [|x l IH]; intros i d H; [done|].
  simpl. unfold mbind, M_bind.
  specialize (H 0 x d eq_refl) as H0. rewrite Nat.add_0_r in H0.
  rewrite H0. destruct (g i x d) as [y d1|]; [|done].
  rewrite IH; [done|]. intros j x' d2 Hj.
  replace (S i + j) with (i + S j) by lia. by apply H.
Qed.


(** A loop all of whose throws are of one kind, run on a list with an
    element the body always throws on, throws that kind. *)
Lemma forM_from_throws_kind (f : nat → A → M B) (bad : A → Prop)
    (err : Error) i l d :
  (∀ j x d e, f j x d = Throw e → e = err) →
  (∀ j x d, bad x → f j x d = Throw err) →
  Exists bad l → forM_from f i l d = Throw err.
Proof.
  intros Hkind Hbad Hex. revert i d.
  induction Hex as [x l Hx|x l Hex IH]; intros i d; simpl;
    unfold mbind, M_bind.
  - by rewrite (Hbad i x d Hx).
  - destruct (f i x d) as [y d1|e] eqn:Hf.
    + by rewrite IH.
    + by rewrite (Hkind _ _ _ _ Hf).
Qed.
End loop_lemmas.

(** * Multi block: [remove] *)

Lemma iterM_removeNode_Ok (l : list nat) (d : Dom) :
  iterM removeNode l d = Ok () (foldl (λ d e, detach e d) d l).
Proof.
  revert d. induction l as [|e l IH]; intros d; [done|].
  simpl. unfold mbind, M_bind, removeNode, modify. by rewrite IH.
Qed.

(** [remove] throws nothing but [TypeError]. *)
Lemma remove_throws_TypeError (b : Block) :
  ∀ d e, remove b d = Throw e → e = TypeError.
Proof.
  induction b as [html content a el|el|oid cls el children anchors data handlers _
                 |cs anchors IH|cs a _] using Block_nested_ind; intros d e.
  - simpl. unfold mbind, M_bind. by rewrite iterM_removeNode_Ok.
  - done.
  - simpl. destruct el; [done|]. by intros [= <-].
  - cbn [remove]. intros H.
    apply bind_Throw in H as [H|(? & ? & _ & ?)]; [|done].
    revert H. generalize 0 as i. revert d.
    induction IH as [|c cs Hc _ IHcs]; intros d i; [done|].
    cbn [forM_from]. intros H.
    apply bind_Throw in H as [H|(y & d1 & Hy & H)].
    + apply bind_Throw in H as [H|([] & d1 & Hy & H)].
      * destruct c as [c|]; [by apply (Hc d)|by injection H].
      * destruct (js_get anchors i); [done|by injection H].
    + apply bind_Throw in H as [H|(? & ? & _ & ?)]; [|done].
      by apply (IHcs d1 (S i)).
  - done.
Qed.

Lemma bind_assoc {A B C} (m : M A) (f : A → M B) (g : B → M C) d :
  ((m ≫= f) ≫= g) d = (m ≫= λ a, f a ≫= g) d.
Proof. unfold mbind, M_bind. by destruct (m d). Qed.

Lemma bind_ret_l {A B} (a : A) (f : A → M B) d : (mret a ≫= f) d = f a d.
Proof. done. Qed.

Lemma bind_throw_l {A B} (e : Error) (f : A → M B) d :
  (throw e ≫= f) d = Throw e.
Proof. done. Qed.

Lemma forM_from_cons {A B} (f : nat → A → M B) i x l :
  forM_from f i (x :: l) =
  (y ← f i x; ys ← forM_from f (S i) l; mret (y :: ys)).
Proof. done. Qed.


(** [m ≫= f] at [d] depends on [m] through [m d] only. *)
Lemma bind_cong_l {A B} (m1 m2 : M A) (f : A → M B) d :
  m1 d = m2 d → (m1 ≫= f) d = (m2 ≫= f) d.
Proof. unfold mbind, M_bind. by intros ->. Qed.

Ltac mnorm :=
  cbv beta;
  repeat (first [rewrite bind_assoc | rewrite bind_ret_l
                | rewrite bind_throw_l]; cbv beta).

(** Runs the computation at the head of both sides of the goal. *)
Ltac mrun m d :=
  let a := fresh "a" in
  let d1 := fresh "d" in
  let e := fresh "e" in
  let E := fresh "E" in
  destruct (m d) as [a d1|e] eqn:E;
  [repeat rewrite (bind_eq _ _ _ _ _ E)
  |repeat rewrite (bind_throw _ _ _ _ E)];
  cbv beta.

(** C6. [remove] on a Multi block with an absent slot throws a
    [TypeError], whatever the store and the markers are: the loop calls
    [remove] on the missing child. *)
Theorem BMulti_remove_faults_on_absent_slot (cs : list (option Block))
    (anchors : list (option nat)) (d : Dom) :
  None ∈ cs → remove (BMulti cs anchors) d = Throw TypeError.
Proof.
  intros Hin. cbn [remove]. apply bind_throw.
  apply (forM_from_throws_kind _ (λ c, c = None)).
  - intros j x d0 e H. apply bind_Throw in H as [H|([] & d1 & _ & H)].
    + destruct x as [c|]; [by apply (remove_throws_TypeError c d0)|].
      by injection H.
    + destruct (js_get anchors j); [done|by injection H].
  - by intros j x d0 ->.
  - apply Exists_exists. by exists None.
Qed.

Section collection.
Variable parseHTML : string → list DTree.



End collection.

Lemma bind_cong_r {A B} (m : M A) (f g : A → M B) d :
  (∀ a d1, m d = Ok a d1 → f a d1 = g a d1) → (m ≫= f) d = (m ≫= g) d.
Proof. unfold mbind, M_bind. destruct (m d); auto. Qed.

Lemma detach_all_app l1 l2 d :
  detach_all (l1 ++ l2) d = detach_all l2 (detach_all l1 d).
Proof. apply foldl_app. Qed.

(** [remove] detaches the nodes of [removed_nodes], and nothing else
    changes in the store. *)
Lemma remove_detaches (b : Block) :
  ∀ d d', remove b d = Ok () d' → d' = detach_all (removed_nodes b) d.
Proof.
  induction b as [html content a el|el|oid cls el children anchors data handlers _
                 |cs anchors IH|cs a _] using Block_nested_ind; intros d d'.
  - cbn [remove removed_nodes]. intros H.
    apply bind_Ok in H as ([] & d1 & H1 & H2).
    rewrite iterM_removeNode_Ok in H1. injection H1 as <-.
    injection H2 as <-. by rewrite detach_all_app.
  - by intros [= <-].
  - cbn [remove removed_nodes]. destruct el; [|done]. by intros [= <-].
  - cbn [remove removed_nodes]. intros H.
    apply bind_Ok in H as (r & d1 & H & [= <-]).
    revert H. generalize 0 as i. revert d r.
    induction IH as [|c cs Hc _ IHcs]; intros d r i H.
    + by injection H as <- <-.
    + rewrite forM_from_cons in H.
      apply bind_Ok in H as ([] & d2 & H1 & H2).
      apply bind_Ok in H2 as (r' & d3 & H2 & [= <- <-]).
      apply bind_Ok in H1 as ([] & d4 & H1 & H3).
      destruct c as [c|]; [|done].
      destruct (js_get anchors i) as [m|]; [|done].
      injection H3 as <-.
      rewrite !detach_all_app. rewrite <- (Hc _ _ H1).
      by apply (IHcs _ _ _ H2).
  - by intros [= <-].
Qed.

Lemma parent_of_detach_all l d m :
  m ∉ l → parent_of (detach_all l d) m = parent_of d m.
Proof.
  revert d. induction l as [|e l IH]; intros d Hm; [done|].
  apply not_elem_of_cons in Hm as [Hne Hm]. cbn. unfold detach_all in IH.
  rewrite IH by done. rewrite parent_of_detach, decide_False; done.
Qed.

Lemma parent_of_detach_all_in l d e :
  e ∈ l → parent_of (detach_all l d) e = None.
Proof.
  revert d. induction l as [|x l IH]; intros d He; [by apply elem_of_nil in He|].
  cbn. destruct (decide (e ∈ l)) as [Hin|Hnin].
  - by apply IH.
  - apply elem_of_cons in He as [->|?]; [|done].
    pose proof (parent_of_detach_all l (detach x d) x Hnin) as H.
    unfold detach_all in H. rewrite H, parent_of_detach, decide_True; done.
Qed.

Lemma elem_of_children_detach d e q m :
  m ≠ e → m ∈ children_of d q → m ∈ children_of (detach e d) q.
Proof.
  intros Hne Hin. rewrite children_of_detach.
  destruct (decide _); [|done]. by apply list_elem_of_filter.
Qed.

Lemma elem_of_children_detach_all l d q m :
  m ∉ l → m ∈ children_of d q → m ∈ children_of (detach_all l d) q.
Proof.
  revert d. induction l as [|e l IH]; intros d Hm Hin; [done|].
  apply not_elem_of_cons in Hm as [Hne Hm]. cbn. unfold detach_all in IH.
  apply IH; [done|]. by apply elem_of_children_detach.
Qed.

Section node_patch.
Variable parseHTML : string → list DTree.

(** With the markers in place, a round of the loop of [BNode.patch] is
    the documented transition of its slot. *)
Lemma node_slot_documented ms ncs i child d :
  node_slot parseHTML (patch parseHTML) (Some ms) ncs i child d =
  documented_transition parseHTML (ms !! i) child (js_get ncs i) d.
Proof.
  unfold node_slot, documented_transition.
  destruct child, (js_get ncs i); reflexivity.
Qed.

End node_patch.

(** * Templates, clones and the build loop *)

(** * Trees in the store *)

Lemma elem_of_concat {A} (x : A) (ls : list (list A)) :
  x ∈ concat ls ↔ ∃ l, x ∈ l ∧ l ∈ ls.
Proof.
  induction ls as [|l ls IH]; cbn.
  - split; [by intros ?%elem_of_nil|]. by intros (? & _ & ?%elem_of_nil).
  - rewrite elem_of_app, IH. split.
    + intros [?|(l' & ? & ?)].
      * exists l. split; [done|]. apply elem_of_cons. by left.
      * exists l'. split; [done|]. apply elem_of_cons. by right.
    + intros (l' & ? & [->|?]%elem_of_cons); [by left|].
      right. by exists l'.
Qed.

Section trees.
Implicit Types (d : Dom) (T : ITree) (t : DTree).

Lemma ids_eq n k kids : ids (INode n k kids) = n :: concat (ids <$> kids).
Proof.
  cbn [ids]. f_equal. induction kids as [|kid ks IH]; [done|].
  cbn. by rewrite IH.
Qed.

Lemma tagged_ids_eq tag n k kids :
  tagged_ids tag (INode n k kids) =
  (if ikind_tagged tag k then [n] else [])
    ++ concat (tagged_ids tag <$> kids).
Proof.
  cbn [tagged_ids]. f_equal. induction kids as [|kid ks IH]; [done|].
  cbn. by rewrite IH.
Qed.

Lemma subst_eq x m n k kids :
  subst x m (INode n k kids) = INode n k (subst_kid x m <$> kids).
Proof.
  cbn [subst]. f_equal.
Qed.

Lemma Rep_eq d n k kids :
  Rep d (INode n k kids) ↔
  nkind <$> d !! n = Some k ∧
  children_of d n = root_id <$> kids ∧
  Forall (λ kid, parent_of d (root_id kid) = Some n ∧ Rep d kid) kids.
Proof.
  cbn [Rep].
  assert ((fix go (ks : list ITree) : Prop :=
             match ks with
             | [] => True
             | kid :: ks' =>
                 (parent_of d (root_id kid) = Some n ∧ Rep d kid) ∧ go ks'
             end) kids ↔
          Forall (λ kid, parent_of d (root_id kid) = Some n ∧ Rep d kid)
                 kids) as ->; [|done].
  induction kids as [|kid ks IH]; [by rewrite Forall_nil|].
  by rewrite Forall_cons, IH.
Qed.

Lemma iflat_eq n k kids :
  iflat (INode n k kids) ↔
  (ikind_tagged anchor_tag k = true →
   tagged_ids anchor_tag (INode n k kids) = [n]) ∧
  Forall iflat kids.
Proof.
  cbn [iflat].
  assert ((fix go (ks : list ITree) : Prop :=
             match ks with
             | [] => True
             | kid :: ks' => iflat kid ∧ go ks'
             end) kids ↔ Forall iflat kids) as ->; [|done].
  induction kids as [|kid ks IH]; [by rewrite Forall_nil|].
  by rewrite Forall_cons, IH.
Qed.

Lemma tsize_eq tag attrs classes kids :
  tsize (TElem tag attrs classes kids) = S (list_sum (tsize <$> kids)).
Proof.
  cbn [tsize]. f_equal. induction kids as [|kid ks IH]; [done|].
  cbn. by rewrite IH.
Qed.

Lemma count_tagged_eq tag attrs classes kids :
  count_tagged (TElem tag attrs classes kids) =
  (if bool_decide (tag = anchor_tag) then 1 else 0)
    + list_sum (count_tagged <$> kids).
Proof.
  cbn [count_tagged is_placeholder]. f_equal.
  induction kids as [|kid ks IH]; [done|]. cbn. by rewrite IH.
Qed.

Lemma flat_eq tag attrs classes kids :
  flat (TElem tag attrs classes kids) =
  if bool_decide (tag = anchor_tag)
  then bool_decide (list_sum (count_tagged <$> kids) = 0)
  else forallb flat kids.
Proof.
  cbn [flat is_placeholder]. by destruct (bool_decide _).
Qed.

Lemma label_eq t n :
  label t n = INode n (dkind t) (label_kids (kids_of t) (S n)).
Proof.
  by destruct t.
Qed.

Lemma root_id_label t n : root_id (label t n) = n.
Proof. by rewrite label_eq. Qed.

Lemma tsize_pos t : 0 < tsize t.
Proof. destruct t; cbn; lia. Qed.

Lemma tsize_kids t : tsize t = S (list_sum (tsize <$> kids_of t)).
Proof. destruct t; [apply tsize_eq|done..]. Qed.

(** [instantiate] numbers the nodes in document order. *)
Lemma ids_label t : ∀ n, ids (label t n) = seq n (tsize t).
Proof.
  induction t as [tag attrs classes kids IH|s|s] using DTree_nested_ind;
    intros n; [|done..].
  rewrite label_eq, ids_eq, tsize_eq. cbn [kids_of seq]. f_equal.
  generalize (S n). induction IH as [|kid ks Hk _ IHks]; intros i; [done|].
  cbn. rewrite Hk, IHks. by rewrite seq_app.
Qed.

Lemma ids_label_kids ks n :
  concat (ids <$> label_kids ks n) = seq n (list_sum (tsize <$> ks)).
Proof.
  revert n. induction ks as [|kid ks IH]; intros n; [done|].
  cbn. by rewrite ids_label, IH, seq_app.
Qed.

Lemma root_in_ids T : root_id T ∈ ids T.
Proof. destruct T. rewrite ids_eq. apply elem_of_cons. by left. Qed.

(** The nodes of a tree the store holds are in the store. *)
Lemma Rep_ids_lt d T : Rep d T → Forall (λ i, i < length d) (ids T).
Proof.
  induction T as [n k kids IH] using ITree_nested_ind.
  rewrite Rep_eq, ids_eq. intros (Hk & _ & Hkids).
  apply Forall_cons. split.
  - destruct (d !! n) eqn:Hn; [|done]. by apply lookup_lt_Some in Hn.
  - apply Forall_concat, Forall_fmap.
    induction IH as [|kid ks Hkid _ IHks]; [done|].
    apply Forall_cons in Hkids as [[_ Hr] Hrest].
    apply Forall_cons. split; [by apply Hkid|by apply IHks].
Qed.

(** [Rep] looks at the nodes of the tree only. *)
Lemma Rep_ext d d' T :
  (∀ i, i ∈ ids T → d' !! i = d !! i) → Rep d T → Rep d' T.
Proof.
  induction T as [n k kids IH] using ITree_nested_ind.
  rewrite !Rep_eq, ids_eq. intros Hext (Hk & Hc & Hkids).
  assert (d' !! n = d !! n) as Hn.
  { apply Hext, elem_of_cons. by left. }
  split; [by rewrite Hn|]. split.
  { unfold children_of. by rewrite Hn. }
  assert (∀ i, i ∈ concat (ids <$> kids) → d' !! i = d !! i) as Hext'.
  { intros i Hi. apply Hext, elem_of_cons. by right. }
  clear Hext Hc Hk Hn.
  induction IH as [|kid ks Hkid _ IHks]; [done|].
  apply Forall_cons in Hkids as [[Hp Hr] Hrest].
  cbn in Hext'.
  apply Forall_cons. split.
  - split.
    + unfold parent_of in *. rewrite Hext'; [done|].
      apply elem_of_app. left. apply root_in_ids.
    + apply Hkid; [|done]. intros i Hi. apply Hext', elem_of_app. by left.
  - apply IHks; [done|]. intros i Hi. apply Hext', elem_of_app. by right.
Qed.

Lemma Rep_app d ext T : Rep d T → Rep (d ++ ext) T.
Proof.
  intros HR. apply (Rep_ext d); [|done]. intros i Hi.
  apply lookup_app_l.
  pose proof (Rep_ids_lt _ _ HR) as Hlt.
  by apply (proj1 (Forall_forall _ _) Hlt).
Qed.
End trees.

Section cloning.
Implicit Types (d : Dom) (T : ITree) (t : DTree).

Lemma parent_of_app_lt d ext i :
  i < length d → parent_of (d ++ ext) i = parent_of d i.
Proof. intros Hi. unfold parent_of. by rewrite lookup_app_l. Qed.

Lemma children_of_app_lt d ext i :
  i < length d → children_of (d ++ ext) i = children_of d i.
Proof. intros Hi. unfold children_of. by rewrite lookup_app_l. Qed.

Lemma instantiate_eq tag attrs classes kids p d :
  instantiate (TElem tag attrs classes kids) p d =
  let n := length d in
  let '(roots, d2) :=
    instantiate_all (Some n) kids
      (d ++ [new_node (KElement tag) p EmptyString attrs classes]) in
  (n, set_children n roots d2).
Proof. done. Qed.

Lemma instantiate_all_cons p k ks d :
  instantiate_all p (k :: ks) d =
  let '(i, d') := instantiate k p d in
  let '(rest, d'') := instantiate_all p ks d' in
  (i :: rest, d'').
Proof. done. Qed.

Lemma instantiate_all_spec ks :
  Forall instantiate_ok ks →
  ∀ p d, ∃ ext,
    instantiate_all p ks d =
      (root_id <$> label_kids ks (length d), d ++ ext) ∧
    length ext = list_sum (tsize <$> ks) ∧
    Forall (λ T, parent_of (d ++ ext) (root_id T) = p
                 ∧ Rep (d ++ ext) T)
           (label_kids ks (length d)) ∧
    concat (nlisteners <$> ext) = [].
Proof.
  induction 1 as [|k ks Hk _ IH]; intros p d.
  - exists []. by rewrite app_nil_r.
  - destruct (Hk p d) as (e1 & Hi & Hl1 & HR1 & Hp1 & HL1).
    destruct (IH p (d ++ e1)) as (e2 & Hi2 & Hl2 & HR2 & HL2).
    exists (e1 ++ e2). rewrite instantiate_all_cons, Hi, Hi2.
    rewrite length_app, Hl1 in HR2. rewrite length_app, Hl1, app_assoc.
    split; [|split; [|split]].
    + cbn. by rewrite root_id_label.
    + by rewrite length_app, Hl1, Hl2.
    + cbn [label_kids]. apply Forall_cons. split; [|done].
      rewrite root_id_label. split.
      * rewrite parent_of_app_lt; [done|]. rewrite length_app.
        pose proof (tsize_pos k). lia.
      * by apply Rep_app.
    + by rewrite fmap_app, concat_app, HL1, HL2.
Qed.

Lemma instantiate_spec t : instantiate_ok t.
Proof.
  induction t as [tag attrs classes kids IH|s|s] using DTree_nested_ind;
    intros p d.
  - set (root := new_node (KElement tag) p EmptyString attrs classes).
    destruct (instantiate_all_spec kids IH (Some (length d)) (d ++ [root]))
      as (e2 & Hi & Hl & HR & HL).
    rewrite length_app in Hi, HR. cbn [length] in Hi, HR.
    rewrite Nat.add_1_r in Hi, HR.
    set (roots := root_id <$> label_kids kids (S (length d))) in *.
    exists (with_children roots root :: e2).
    assert (set_children (length d) roots ((d ++ [root]) ++ e2) =
            d ++ with_children roots root :: e2) as Hset.
    { unfold set_children. rewrite <- app_assoc.
      rewrite <- (Nat.add_0_r (length d)) at 1. by rewrite alter_app_r. }
    rewrite instantiate_eq. cbn zeta. fold root. rewrite Hi, Hset.
    split; [done|]. split; [rewrite tsize_eq; cbn; by rewrite Hl|].
    split; [|split].
    + rewrite label_eq. apply Rep_eq. cbn [kids_of dkind].
      rewrite <- Hset.
      split; [|split].
      * unfold set_children. rewrite kind_alter by done.
        rewrite <- app_assoc. cbn [app]. by rewrite list_lookup_middle.
      * rewrite children_of_set_children, decide_True; [done|].
        split; [done|]. rewrite !length_app. cbn. lia.
      * apply Forall_forall. intros T HT.
        apply (proj1 (Forall_forall _ _) HR) in HT as HT'.
        destruct HT' as [HpT HRT]. split.
        -- by rewrite parent_of_set_children.
        -- apply (Rep_ext ((d ++ [root]) ++ e2)); [|done].
           intros i Hi'. unfold set_children.
           apply list_lookup_alter_ne. intros <-.
           assert (length d ∈ concat (ids <$> label_kids kids (S (length d))))
             as Hin.
           { apply elem_of_concat. exists (ids T). split; [done|].
             apply list_elem_of_fmap. by exists T. }
           rewrite ids_label_kids in Hin. apply elem_of_seq in Hin. lia.
    + unfold parent_of. by rewrite list_lookup_middle.
    + done.
  - exists [new_node KText p s [] []].
    split; [done|]. split; [done|]. split; [|split; [|done]].
    + apply (Rep_eq _ _ _ []).
      rewrite list_lookup_middle by done. split; [done|]. split; [|done].
      unfold children_of. by rewrite list_lookup_middle.
    + unfold parent_of. by rewrite list_lookup_middle.
  - exists [new_node KComment p s [] []].
    split; [done|]. split; [done|]. split; [|split; [|done]].
    + apply (Rep_eq _ _ _ []).
      rewrite list_lookup_middle by done. split; [done|]. split; [|done].
      unfold children_of. by rewrite list_lookup_middle.
    + unfold parent_of. by rewrite list_lookup_middle.
Qed.
End cloning.

Section live_collection.
Implicit Types (d : Dom) (T : ITree).

Lemma Rep_lookup d n k kids :
  Rep d (INode n k kids) →
  ∃ x, d !! n = Some x ∧ nkind x = k ∧ nchildren x = root_id <$> kids.
Proof.
  rewrite Rep_eq. intros (Hk & Hc & _). unfold children_of in Hc.
  destruct (d !! n) as [x|]; [|done]. exists x. cbn in *.
  split; [done|]. split; [congruence|done].
Qed.

Lemma length_ids_pos T : 0 < length (ids T).
Proof. destruct T. rewrite ids_eq. cbn. lia. Qed.

(** With enough fuel, the walk of [collect_tag] over a tree the store
    holds finds the tagged nodes of the tree, in document order. *)
Lemma collect_tag_Rep tag T :
  ∀ fuel d, Rep d T → length (ids T) ≤ fuel →
            collect_tag fuel d tag (root_id T) = tagged_ids tag T.
Proof.
  induction T as [n k kids IH] using ITree_nested_ind.
  intros fuel d HR Hfuel. rewrite ids_eq in Hfuel. cbn [length] in Hfuel.
  destruct fuel as [|f]; [lia|].
  destruct (Rep_lookup _ _ _ _ HR) as (x & Hx & Hk & Hc).
  apply Rep_eq in HR as (_ & _ & Hkids).
  cbn [collect_tag root_id]. rewrite Hx, Hc, tagged_ids_eq.
  unfold has_tag. rewrite Hk. f_equal.
  assert (length (concat (ids <$> kids)) ≤ f) as Hf by lia.
  clear Hfuel Hx Hc Hk.
  induction IH as [|kid ks Hkid _ IHks]; [done|].
  apply Forall_cons in Hkids as [[_ HRk] Hrest].
  cbn in Hf. rewrite length_app in Hf.
  cbn. rewrite Hkid by (done || lia). f_equal. apply IHks; [done|lia].
Qed.

Lemma NoDup_bounded_length (l : list nat) n :
  NoDup l → Forall (λ i, i < n) l → length l ≤ n.
Proof.
  intros Hnd Hlt. rewrite <- (length_seq n 0).
  apply submseteq_length, NoDup_submseteq; [done|].
  intros i Hi. apply elem_of_seq.
  apply (proj1 (Forall_forall _ _) Hlt) in Hi. lia.
Qed.

(** What the live collection holds when the store holds the tree. *)
Lemma live_collection_Rep d T :
  Rep d T → NoDup (ids T) →
  live_collection d (root_id T) anchor_tag = placeholder_ids T.
Proof.
  intros HR Hnd. destruct T as [n k kids].
  pose proof (NoDup_bounded_length _ _ Hnd (Rep_ids_lt _ _ HR)) as Hlen.
  rewrite ids_eq in Hlen, Hnd. cbn [length] in Hlen.
  apply NoDup_cons in Hnd as [_ Hnd].
  unfold live_collection, placeholder_ids. cbn [root_id ikids].
  apply Rep_eq in HR as (_ & -> & Hkids).
  assert (length (concat (ids <$> kids)) ≤ length d) as Hf by lia.
  clear Hlen. induction kids as [|kid ks IH]; [done|].
  apply Forall_cons in Hkids as [[_ HRk] Hrest].
  cbn in Hf, Hnd. rewrite length_app in Hf.
  apply NoDup_app in Hnd as (_ & _ & Hnd).
  cbn. rewrite collect_tag_Rep by (done || lia). f_equal. apply IH; [done..|lia].
Qed.

Lemma tagged_in_ids tag T i : i ∈ tagged_ids tag T → i ∈ ids T.
Proof.
  induction T as [n k kids IH] using ITree_nested_ind.
  rewrite tagged_ids_eq, ids_eq. intros [Hi|Hi]%elem_of_app.
  - destruct (ikind_tagged tag k); [|by apply elem_of_nil in Hi].
    apply list_elem_of_singleton in Hi as ->. apply elem_of_cons. by left.
  - apply elem_of_cons. right.
    apply elem_of_concat in Hi as (l & Hi & Hl).
    apply list_elem_of_fmap in Hl as (kid & -> & Hkid).
    apply elem_of_concat. exists (ids kid). split.
    + by apply (proj1 (Forall_forall _ _) IH kid).
    + apply list_elem_of_fmap. by exists kid.
Qed.
End live_collection.

Section substitution.
Variables (x m : nat).
Implicit Types (T kid : ITree) (ks : list ITree).

Lemma root_id_subst T : root_id (subst x m T) = root_id T.
Proof. destruct T. by rewrite subst_eq. Qed.

Lemma subst_notin T : x ∉ ids T → subst x m T = T.
Proof.
  induction T as [n k kids IH] using ITree_nested_ind.
  rewrite subst_eq, ids_eq. intros Hn. f_equal.
  apply not_elem_of_cons in Hn as [_ Hn].
  induction IH as [|kid ks Hkid _ IHks]; [done|].
  cbn in Hn. apply not_elem_of_app in Hn as [Hk Hrest].
  cbn. f_equal; [|by apply IHks].
  unfold subst_kid. rewrite decide_False; [by apply Hkid|].
  intros <-. apply Hk, root_in_ids.
Qed.

Lemma subst_kid_notin kid : x ∉ ids kid → subst_kid x m kid = kid.
Proof.
  intros Hn. unfold subst_kid. rewrite decide_False; [by apply subst_notin|].
  intros <-. apply Hn, root_in_ids.
Qed.

Lemma subst_kids_notin ks :
  x ∉ concat (ids <$> ks) → subst_kid x m <$> ks = ks.
Proof.
  induction ks as [|kid ks IH]; [done|]. cbn.
  intros [Hk Hrest]%not_elem_of_app.
  by rewrite subst_kid_notin, IH.
Qed.

(** The nodes of the new tree: those of the old one and, if [x] was in
    it, the marker. *)
Lemma ids_subst_elem T i :
  i ∈ ids (subst x m T) → i ∈ ids T ∨ (i = m ∧ x ∈ ids T).
Proof.
  induction T as [n k kids IH] using ITree_nested_ind.
  rewrite subst_eq, !ids_eq. intros [->|Hi]%elem_of_cons.
  { left. apply elem_of_cons. by left. }
  apply elem_of_concat in Hi as (l & Hi & Hl).
  apply list_elem_of_fmap in Hl as (kid' & -> & Hkid').
  apply list_elem_of_fmap in Hkid' as (kid & -> & Hkid).
  assert (ids kid ∈ ids <$> kids) as Hin
    by (apply list_elem_of_fmap; by exists kid).
  unfold subst_kid in Hi. destruct (decide (root_id kid = x)) as [Hx|Hx].
  - rewrite ids_eq in Hi. cbn in Hi.
    apply list_elem_of_singleton in Hi as ->. right. split; [done|].
    apply elem_of_cons. right. apply elem_of_concat.
    exists (ids kid). split; [|done]. rewrite <- Hx. apply root_in_ids.
  - apply (proj1 (Forall_forall _ _) IH kid Hkid) in Hi as [Hi|[-> Hi]].
    + left. apply elem_of_cons. right. apply elem_of_concat. by exists (ids kid).
    + right. split; [done|].
      apply elem_of_cons. right. apply elem_of_concat. by exists (ids kid).
Qed.

Lemma ids_subst_kid_elem kid i :
  i ∈ ids (subst_kid x m kid) → i ∈ ids kid ∨ (i = m ∧ x ∈ ids kid).
Proof.
  unfold subst_kid. destruct (decide (root_id kid = x)) as [Hx|Hx].
  - rewrite ids_eq. cbn. intros ->%list_elem_of_singleton.
    right. split; [done|]. rewrite <- Hx. apply root_in_ids.
  - apply ids_subst_elem.
Qed.

Lemma ids_subst_kids_elem ks i :
  i ∈ concat (ids <$> (subst_kid x m <$> ks)) →
  i ∈ concat (ids <$> ks) ∨ (i = m ∧ x ∈ concat (ids <$> ks)).
Proof.
  induction ks as [|kid ks IH]; [by intros ?%elem_of_nil|]. cbn.
  intros [Hi|Hi]%elem_of_app.
  - apply ids_subst_kid_elem in Hi as [Hi|[-> Hi]].
    + left. apply elem_of_app. by left.
    + right. split; [done|]. apply elem_of_app. by left.
  - apply IH in Hi as [Hi|[-> Hi]].
    + left. apply elem_of_app. by right.
    + right. split; [done|]. apply elem_of_app. by right.
Qed.

Lemma NoDup_ids_subst T :
  NoDup (ids T) → m ∉ ids T → NoDup (ids (subst x m T)).
Proof.
  induction T as [n k kids IH] using ITree_nested_ind.
  rewrite subst_eq, !ids_eq. intros [Hn Hnd]%NoDup_cons Hm.
  apply not_elem_of_cons in Hm as [Hmn Hm].
  apply NoDup_cons. split.
  { intros [Hi|[-> _]]%ids_subst_kids_elem; done. }
  clear Hn Hmn. induction IH as [|kid ks Hkid _ IHks]; [apply NoDup_nil_2|].
  cbn in Hnd, Hm. apply NoDup_app in Hnd as (Hndk & Hdisj & Hndr).
  apply not_elem_of_app in Hm as [Hmk Hmr].
  cbn. apply NoDup_app. split; [|split].
  - unfold subst_kid. destruct (decide _).
    + rewrite ids_eq. cbn. apply NoDup_singleton.
    + by apply Hkid.
  - intros i Hi Hi'.
    apply ids_subst_kid_elem in Hi as [Hi|[-> Hi]];
      apply ids_subst_kids_elem in Hi' as [Hi'|[? Hi']]; subst;
      try done; by apply (Hdisj _ Hi).
  - by apply IHks.
Qed.

Lemma tagged_ids_subst_nil tag T :
  tagged_ids tag T = [] → tagged_ids tag (subst x m T) = [].
Proof.
  induction T as [n k kids IH] using ITree_nested_ind.
  rewrite subst_eq, !tagged_ids_eq.
  intros [Hk Hkids]%app_eq_nil. rewrite Hk. cbn [app].
  induction IH as [|kid ks Hkid _ IHks]; [done|].
  cbn in Hkids. apply app_eq_nil in Hkids as [Hk1 Hrest].
  cbn. rewrite IHks by done. rewrite app_nil_r.
  unfold subst_kid. destruct (decide _); [done|]. by apply Hkid.
Qed.

Lemma tagged_ids_subst_kid_nil tag kid :
  tagged_ids tag kid = [] → tagged_ids tag (subst_kid x m kid) = [].
Proof.
  unfold subst_kid. destruct (decide _); [done|].
  apply tagged_ids_subst_nil.
Qed.

Lemma iflat_leaf : iflat (INode m KText []).
Proof. by apply iflat_eq. Qed.

Lemma iflat_subst T : iflat T → iflat (subst x m T).
Proof.
  induction T as [n k kids IH] using ITree_nested_ind.
  rewrite subst_eq, !iflat_eq. intros [Htag Hkids]. split.
  - intros Hk. specialize (Htag Hk). rewrite tagged_ids_eq, Hk in *.
    cbn [app] in *. f_equal. injection Htag as Htag.
    clear Hkids IH. induction kids as [|kid ks IHks]; [done|].
    cbn in Htag. apply app_eq_nil in Htag as [Hk1 Hrest].
    cbn. by rewrite tagged_ids_subst_kid_nil, IHks.
  - apply Forall_fmap. clear Htag.
    induction IH as [|kid ks Hkid _ IHks]; [done|].
    apply Forall_cons in Hkids as [Hk1 Hrest].
    apply Forall_cons. split; [|by apply IHks].
    cbn. unfold subst_kid. destruct (decide _); [apply iflat_leaf|].
    by apply Hkid.
Qed.

Lemma filter_ne_notin (l : list nat) :
  x ∉ l → filter (λ i, i ≠ x) l = l.
Proof.
  induction l as [|i l IH]; [done|].
  intros [Hne Hl]%not_elem_of_cons.
  rewrite filter_cons_True by done. by rewrite IH.
Qed.

(** Replacing a placeholder by a marker takes exactly this placeholder
    out of the tagged nodes. *)
Lemma tagged_ids_subst T :
  iflat T → NoDup (ids T) → x ≠ root_id T →
  x ∈ tagged_ids anchor_tag T ∨ x ∉ ids T →
  tagged_ids anchor_tag (subst x m T)
  = filter (λ i, i ≠ x) (tagged_ids anchor_tag T).
Proof.
  induction T as [n k kids IH] using ITree_nested_ind.
  intros Hflat Hnd Hroot [Hx|Hx]; last first.
  { rewrite subst_notin by done. rewrite filter_ne_notin; [done|].
    intros Hin. by apply Hx, (tagged_in_ids anchor_tag). }
  cbn [root_id] in Hroot.
  apply iflat_eq in Hflat as [_ Hflat].
  rewrite subst_eq, !tagged_ids_eq in *. rewrite ids_eq in Hnd.
  apply NoDup_cons in Hnd as [_ Hnd].
  rewrite filter_app. f_equal.
  { destruct (ikind_tagged anchor_tag k); [|done].
    by rewrite filter_cons_True by done. }
  assert (x ∈ concat (tagged_ids anchor_tag <$> kids)) as Hxk.
  { apply elem_of_app in Hx as [Hx|Hx]; [|done].
    destruct (ikind_tagged anchor_tag k); [|by apply elem_of_nil in Hx].
    by apply list_elem_of_singleton in Hx. }
  clear Hx.
  assert (x ∈ concat (tagged_ids anchor_tag <$> kids)
          ∨ x ∉ concat (ids <$> kids)) as Hx by (by left).
  clear Hxk.
  induction IH as [|kid ks Hkid _ IHks]; [done|].
  apply Forall_cons in Hflat as [Hfk Hfr].
  cbn in Hnd. apply NoDup_app in Hnd as (Hndk & Hdisj & Hndr).
  cbn. rewrite filter_app.
  assert ((x ∈ tagged_ids anchor_tag kid ∧ x ∉ concat (ids <$> ks))
          ∨ ((x ∉ ids kid) ∧
             (x ∈ concat (tagged_ids anchor_tag <$> ks)
              ∨ x ∉ concat (ids <$> ks)))) as [[Hk Hr]|[Hk Hr]].
  { destruct Hx as [Hx|Hx].
    - cbn in Hx. apply elem_of_app in Hx as [Hx|Hx].
      + left. split; [done|]. by apply Hdisj, (tagged_in_ids anchor_tag).
      + right. split; [|by left]. intros Hin.
        apply (Hdisj _ Hin).
        apply elem_of_concat in Hx as (l & Hx & Hl).
        apply list_elem_of_fmap in Hl as (kid' & -> & Hkid').
        apply elem_of_concat. exists (ids kid'). split.
        * by apply (tagged_in_ids anchor_tag).
        * apply list_elem_of_fmap. by exists kid'.
    - cbn in Hx. apply not_elem_of_app in Hx as [Hx1 Hx2].
      right. split; [done|]. by right. }
  - (* [x] is a placeholder of this kid *)
    rewrite (IHks Hfr Hndr) by (by right).
    f_equal. unfold subst_kid.
    destruct (decide (root_id kid = x)) as [Hrx|Hrx].
    + destruct kid as [n' k' kids']. cbn in Hrx. subst n'.
      apply iflat_eq in Hfk as [Htag _].
      assert (ikind_tagged anchor_tag k' = true) as Hk'.
      { rewrite tagged_ids_eq in Hk.
        destruct (ikind_tagged anchor_tag k'); [done|].
        cbn [app] in Hk. rewrite ids_eq in Hndk.
        apply NoDup_cons in Hndk as [Hn _]. exfalso. apply Hn.
        apply elem_of_concat in Hk as (l & Hk & Hl).
        apply list_elem_of_fmap in Hl as (kid' & -> & Hkid').
        apply elem_of_concat. exists (ids kid'). split.
        - by apply (tagged_in_ids anchor_tag).
        - apply list_elem_of_fmap. by exists kid'. }
      rewrite (Htag Hk'). cbn. rewrite decide_False; [done|by intros ?].
    + apply Hkid; [done..|by left].
  - (* [x] is not in this kid *)
    rewrite subst_kid_notin by done.
    rewrite (IHks Hfr Hndr Hr). f_equal.
    rewrite filter_ne_notin; [done|].
    intros Hin. by apply Hk, (tagged_in_ids anchor_tag).
Qed.
End substitution.

Lemma replace_in_notin x m (l : list nat) : x ∉ l → replace_in x m l = l.
Proof.
  induction l as [|y l IH]; [done|]. intros [Hne Hl]%not_elem_of_cons.
  cbn. rewrite decide_False by done. by rewrite IH.
Qed.

Section replace.
Variables (d : Dom) (q x m : nat).
Hypothesis Hq : parent_of d x = Some q.
Hypothesis Hm_lt : m < length d.
Hypothesis Hm_kind : nkind <$> d !! m = Some KText.
Hypothesis Hm_children : children_of d m = [].
Hypothesis Hmx : m ≠ x.
Implicit Types (T kid : ITree) (ks : list ITree).

Local Abbreviation d' := (swap_store q x m d).

Lemma replaceWith_swap :
  parent_of d m = None →
  replaceWith x m d = Ok () d'.
Proof using Hq Hm_kind Hmx.
  intros Hpm. unfold replaceWith. rewrite Hq.
  rewrite hierarchy_ok_leaf.
  - rewrite decide_False by done. by rewrite (detach_orphan _ _ Hpm).
  - unfold is_element. by rewrite Hm_kind.
Qed.

Lemma length_swap : length d' = length d.
Proof.
  unfold swap_store.
  by rewrite !length_set_parent, length_set_children.
Qed.

Lemma kind_swap i : nkind <$> d' !! i = nkind <$> d !! i.
Proof.
  unfold swap_store, set_parent, set_children.
  by rewrite !kind_alter.
Qed.

Lemma lookup_swap_ne i : i ≠ q → i ≠ x → i ≠ m → d' !! i = d !! i.
Proof.
  intros ? ? ?. unfold swap_store, set_parent, set_children.
  by rewrite !list_lookup_alter_ne.
Qed.

Lemma parent_of_swap_ne i : i ≠ x → i ≠ m → parent_of d' i = parent_of d i.
Proof.
  intros ? ?. unfold swap_store.
  rewrite !parent_of_set_parent, parent_of_set_children.
  rewrite !decide_False; [done|by intros [? _]..].
Qed.

Lemma parent_of_swap_m : parent_of d' m = Some q.
Proof using Hm_lt Hmx.
  unfold swap_store.
  rewrite !parent_of_set_parent, length_set_parent, !length_set_children.
  rewrite decide_False by (intros [? _]; congruence).
  by rewrite decide_True.
Qed.

Lemma children_of_swap_ne i : i ≠ q → children_of d' i = children_of d i.
Proof.
  intros ?. unfold swap_store.
  rewrite !children_of_set_parent, children_of_set_children.
  rewrite decide_False; [done|by intros [? _]].
Qed.

Lemma children_of_swap_q :
  q < length d → children_of d' q = replace_in x m (children_of d q).
Proof.
  intros ?. unfold swap_store.
  rewrite !children_of_set_parent, children_of_set_children.
  by rewrite decide_True.
Qed.

(** A tree away from the three nodes involved is still there. *)
Lemma Rep_swap_frame T :
  Rep d T → x ∉ ids T → q ∉ ids T → m ∉ ids T → Rep d' T.
Proof.
  intros HR Hx Hq' Hm. apply (Rep_ext d); [|done].
  intros i Hi. apply lookup_swap_ne; by intros ->.
Qed.

(** In a tree the store holds, the parent of a node other than the root
    is a node of the tree. *)
Lemma parent_in_tree T i :
  Rep d T → i ∈ ids T → i ≠ root_id T →
  ∃ p, parent_of d i = Some p ∧ p ∈ ids T.
Proof.
  induction T as [n k kids IH] using ITree_nested_ind.
  rewrite Rep_eq, ids_eq. cbn [root_id].
  intros (_ & _ & Hkids) [->|Hi]%elem_of_cons Hne; [done|].
  apply elem_of_concat in Hi as (l & Hi & Hl).
  apply list_elem_of_fmap in Hl as (kid & -> & Hkid).
  apply (proj1 (Forall_forall _ _) Hkids) in Hkid as HRk.
  destruct HRk as [Hp HRk].
  assert (ids kid ∈ ids <$> kids) as Hin
    by (apply list_elem_of_fmap; by exists kid).
  destruct (decide (i = root_id kid)) as [->|Hnr].
  - exists n. split; [done|]. apply elem_of_cons. by left.
  - destruct (proj1 (Forall_forall _ _) IH kid Hkid HRk Hi Hnr)
      as (p & Hpp & Hpin).
    exists p. split; [done|]. apply elem_of_cons. right.
    apply elem_of_concat. by exists (ids kid).
Qed.

Lemma parent_in_forest n ks i p :
  Forall (λ kid, parent_of d (root_id kid) = Some n ∧ Rep d kid) ks →
  i ∈ concat (ids <$> ks) → parent_of d i = Some p →
  p = n ∨ p ∈ concat (ids <$> ks).
Proof.
  intros Hks Hi Hp.
  apply elem_of_concat in Hi as (l & Hi & Hl).
  apply list_elem_of_fmap in Hl as (kid & -> & Hkid).
  apply (proj1 (Forall_forall _ _) Hks) in Hkid as HRk.
  destruct HRk as [Hpk HRk].
  destruct (decide (i = root_id kid)) as [->|Hnr].
  - left. congruence.
  - destruct (parent_in_tree kid i HRk Hi Hnr) as (p' & Hpp & Hpin).
    right. assert (p' = p) as -> by congruence.
    apply elem_of_concat. exists (ids kid). split; [done|].
    apply list_elem_of_fmap. by exists kid.
Qed.

Lemma roots_subst ks :
  NoDup (concat (ids <$> ks)) →
  root_id <$> (subst_kid x m <$> ks) = replace_in x m (root_id <$> ks).
Proof.
  induction ks as [|kid ks IH]; [done|]. cbn.
  intros (Hndk & Hdisj & Hndr)%NoDup_app.
  unfold subst_kid at 1. destruct (decide (root_id kid = x)) as [Hx|Hx].
  - cbn. f_equal. rewrite subst_kids_notin; [done|].
    apply Hdisj. rewrite <- Hx. apply root_in_ids.
  - rewrite root_id_subst. f_equal. by apply IH.
Qed.

Lemma Rep_subst_kids n ks :
  Forall (λ kid, Rep d kid → NoDup (ids kid) → m ∉ ids kid →
                 x ∈ ids kid → x ≠ root_id kid →
                 Rep d' (subst x m kid)) ks →
  Forall (λ kid, parent_of d (root_id kid) = Some n ∧ Rep d kid) ks →
  NoDup (concat (ids <$> ks)) →
  n ∉ concat (ids <$> ks) → m ∉ concat (ids <$> ks) → m ≠ n →
  (x ∉ concat (ids <$> ks) → q ∉ concat (ids <$> ks)) →
  Forall (λ kid, parent_of d' (root_id kid) = Some n ∧ Rep d' kid)
         (subst_kid x m <$> ks).
Proof using Hq Hm_lt Hm_kind Hm_children Hmx.
  intros IH. induction IH as [|kid ks Hkid _ IHks]; [done|].
  intros [[Hpk HRk] Hrest]%Forall_cons Hnd Hn Hm Hmn Hout.
  cbn in Hnd, Hn, Hm, Hout.
  apply NoDup_app in Hnd as (Hndk & Hdisj & Hndr).
  apply not_elem_of_app in Hn as [Hnk Hnr].
  apply not_elem_of_app in Hm as [Hmk Hmr].
  assert (root_id kid ≠ m) as Hrm.
  { intros <-. apply Hmk, root_in_ids. }
  cbn. apply Forall_cons.
  destruct (decide (x ∈ ids kid)) as [Hxk|Hxk].
  - (* the placeholder is in this kid *)
    assert (x ∉ concat (ids <$> ks)) as Hxr by (by apply Hdisj).
    split.
    + unfold subst_kid.
      destruct (decide (root_id kid = x)) as [Hrx|Hrx].
      * assert (n = q) as -> by (rewrite Hrx in Hpk; congruence).
        cbn [root_id]. split; [apply parent_of_swap_m|].
        apply (Rep_eq _ _ _ []). rewrite kind_swap.
        split; [done|]. split; [|done].
        by rewrite children_of_swap_ne.
      * rewrite root_id_subst. split.
        -- by rewrite parent_of_swap_ne.
        -- by apply Hkid.
    + apply IHks; try done. intros _.
      destruct (decide (root_id kid = x)) as [Hrx|Hrx].
      * assert (n = q) as -> by (rewrite Hrx in Hpk; congruence). done.
      * destruct (parent_in_tree kid x HRk Hxk) as (p & Hp & Hpin);
          [done|].
        assert (p = q) as -> by congruence. by apply Hdisj.
  - (* the placeholder is elsewhere *)
    rewrite subst_kid_notin by done.
    assert (q ∉ ids kid) as Hqk.
    { destruct (decide (x ∈ concat (ids <$> ks))) as [Hxr|Hxr].
      - destruct (parent_in_forest n ks x q Hrest Hxr Hq) as [->|Hqr];
          [done|].
        intros Hin. by apply (Hdisj _ Hin).
      - assert (q ∉ ids kid ++ concat (ids <$> ks)) as Hqn.
        { apply Hout. by intros [?|?]%elem_of_app. }
        by apply not_elem_of_app in Hqn as [? _]. }
    split.
    + split.
      * rewrite parent_of_swap_ne; [done| |done].
        intros Hrx. apply Hxk. rewrite <- Hrx. apply root_in_ids.
      * by apply Rep_swap_frame.
    + apply IHks; try done. intros Hxr.
      assert (q ∉ ids kid ++ concat (ids <$> ks)) as Hqn.
      { apply Hout. by intros [?|?]%elem_of_app. }
      by apply not_elem_of_app in Hqn as [_ ?].
Qed.

(** After [x.replaceWith(m)] the store holds the tree with the marker
    in the place of the placeholder. *)
Lemma Rep_subst T :
  Rep d T → NoDup (ids T) → m ∉ ids T → x ∈ ids T → x ≠ root_id T →
  Rep d' (subst x m T).
Proof using Hq Hm_lt Hm_kind Hm_children Hmx.
  induction T as [n k kids IH] using ITree_nested_ind.
  intros HR Hnd Hm Hx Hroot. cbn [root_id] in Hroot.
  pose proof (Rep_ids_lt _ _ HR) as Hlt.
  rewrite ids_eq in Hnd, Hm, Hx, Hlt.
  apply Forall_cons in Hlt as [Hnlt _].
  apply NoDup_cons in Hnd as [Hn Hnd].
  apply not_elem_of_cons in Hm as [Hmn Hm].
  apply elem_of_cons in Hx as [->|Hx]; [done|].
  apply Rep_eq in HR as (Hk & Hc & Hkids).
  destruct (parent_in_forest n kids x q Hkids Hx Hq) as [Hqn|Hqk].
  - subst n. rewrite subst_eq. apply Rep_eq. rewrite kind_swap.
    split; [done|]. split.
    + rewrite children_of_swap_q by done. rewrite Hc.
      by rewrite roots_subst.
    + by apply Rep_subst_kids.
  - assert (q ≠ n) as Hqn by (by intros ->).
    rewrite subst_eq. apply Rep_eq. rewrite kind_swap.
    split; [done|]. split.
    + rewrite children_of_swap_ne by done. rewrite Hc.
      rewrite roots_subst by done. rewrite replace_in_notin; [done|].
      intros Hin. apply list_elem_of_fmap in Hin as (kid & -> & Hkid).
      apply (proj1 (Forall_forall _ _) Hkids) in Hkid as [Hp _].
      congruence.
    + by apply Rep_subst_kids.
Qed.
End replace.

Section placeholders.
Implicit Types (d : Dom) (T : ITree) (t : DTree).

Lemma tagged_sublist tag T : tagged_ids tag T `sublist_of` ids T.
Proof.
  induction T as [n k kids IH] using ITree_nested_ind.
  rewrite tagged_ids_eq, ids_eq.
  assert (concat (tagged_ids tag <$> kids)
            `sublist_of` concat (ids <$> kids)) as Hk.
  { induction IH as [|kid ks Hkid _ IHks]; [done|]. cbn.
    by apply sublist_app. }
  destruct (ikind_tagged tag k).
  - by apply sublist_skip.
  - by apply sublist_cons.
Qed.

Lemma placeholder_sublist T :
  placeholder_ids T `sublist_of` concat (ids <$> ikids T).
Proof.
  unfold placeholder_ids. induction (ikids T) as [|kid ks IH]; [done|].
  cbn. apply sublist_app; [apply tagged_sublist|done].
Qed.

Lemma ids_kids T : ids T = root_id T :: concat (ids <$> ikids T).
Proof. destruct T. apply ids_eq. Qed.

Lemma placeholder_in_ids T i :
  NoDup (ids T) → i ∈ placeholder_ids T → i ∈ ids T ∧ i ≠ root_id T.
Proof.
  rewrite ids_kids. intros [Hr _]%NoDup_cons Hi.
  assert (i ∈ concat (ids <$> ikids T)) as Hin.
  { eapply elem_of_sublist; [done|apply placeholder_sublist]. }
  split; [apply elem_of_cons; by right|]. by intros ->.
Qed.

Lemma NoDup_placeholder_ids T : NoDup (ids T) → NoDup (placeholder_ids T).
Proof.
  rewrite ids_kids. intros [_ Hnd]%NoDup_cons.
  eapply sublist_NoDup; [done|apply placeholder_sublist].
Qed.

(** Replacing a placeholder by a marker takes exactly this placeholder
    out of the live collection. *)
Lemma placeholder_ids_subst x m T :
  Forall iflat (ikids T) → NoDup (ids T) → x ∈ placeholder_ids T →
  placeholder_ids (subst x m T)
  = filter (λ i, i ≠ x) (placeholder_ids T).
Proof.
  intros Hflat Hnd Hx. destruct T as [n k kids]. cbn [ikids] in Hflat.
  pose proof (placeholder_in_ids _ _ Hnd Hx) as [_ Hne].
  pose proof (tagged_ids_subst x m (INode n KText kids)) as H.
  rewrite subst_eq, !tagged_ids_eq in H. cbn [ikind_tagged app] in H.
  rewrite subst_eq. unfold placeholder_ids in *. cbn [ikids] in *.
  apply H; [by apply iflat_eq| |done|by left].
  by rewrite ids_eq in *.
Qed.

Lemma ikids_subst x m T : ikids (subst x m T) = subst_kid x m <$> ikids T.
Proof. destruct T. by rewrite subst_eq. Qed.

Lemma iflat_kids_subst x m T :
  Forall iflat (ikids T) → Forall iflat (ikids (subst x m T)).
Proof.
  rewrite ikids_subst. intros H. apply Forall_fmap.
  eapply Forall_impl; [done|]. intros kid Hk. cbn. unfold subst_kid.
  destruct (decide _); [apply iflat_leaf|by apply iflat_subst].
Qed.

Lemma length_tagged_label t :
  ∀ n, length (tagged_ids anchor_tag (label t n)) = count_tagged t.
Proof.
  induction t as [tag attrs classes kids IH|s|s] using DTree_nested_ind;
    intros n; [|done..].
  rewrite label_eq, tagged_ids_eq, count_tagged_eq, length_app.
  cbn [dkind ikind_tagged kids_of]. f_equal.
  { by destruct (bool_decide _). }
  generalize (S n). induction IH as [|kid ks Hkid _ IHks]; intros i;
    [done|].
  cbn. by rewrite length_app, Hkid, IHks.
Qed.

Lemma length_placeholder_label t n :
  length (placeholder_ids (label t n)) = placeholders t.
Proof.
  rewrite label_eq. unfold placeholder_ids, placeholders. cbn [ikids].
  generalize (S n). induction (kids_of t) as [|kid ks IH]; intros i;
    [done|].
  cbn. by rewrite length_app, length_tagged_label, IH.
Qed.

Lemma iflat_untagged T : tagged_ids anchor_tag T = [] → iflat T.
Proof.
  induction T as [n k kids IH] using ITree_nested_ind.
  rewrite tagged_ids_eq, iflat_eq. intros [Hk Hkids]%app_eq_nil. split.
  - intros Htag. by rewrite Htag in Hk.
  - clear Hk. induction IH as [|kid ks Hkid _ IHks]; [done|].
    cbn in Hkids. apply app_eq_nil in Hkids as [Hk1 Hrest].
    apply Forall_cons. split; [by apply Hkid|by apply IHks].
Qed.

Lemma untagged_kids ks n :
  list_sum (count_tagged <$> ks) = 0 →
  concat (tagged_ids anchor_tag <$> label_kids ks n) = [].
Proof.
  revert n. induction ks as [|kid ks IH]; intros n; [done|].
  intros H.
  change (count_tagged kid + list_sum (count_tagged <$> ks) = 0) in H.
  cbn [label_kids fmap list_fmap concat].
  rewrite IH by lia. rewrite app_nil_r.
  apply length_zero_iff_nil. rewrite length_tagged_label. lia.
Qed.

Lemma flat_iflat t : ∀ n, flat t = true → iflat (label t n).
Proof.
  induction t as [tag attrs classes kids IH|s|s] using DTree_nested_ind;
    intros n; [|intros _; by apply (iflat_eq _ _ [])..].
  rewrite flat_eq, label_eq. cbn [kids_of dkind]. intros Hflat.
  apply iflat_eq. cbn [ikind_tagged].
  destruct (bool_decide (tag = anchor_tag)) eqn:Htag.
  - apply bool_decide_eq_true in Hflat.
    pose proof (untagged_kids kids (S n) Hflat) as Hnil.
    split.
    + intros _. rewrite tagged_ids_eq. cbn [ikind_tagged].
      by rewrite Htag, Hnil.
    + clear IH Hflat. revert Hnil. generalize (S n).
      induction kids as [|kid ks IHks]; intros i Hnil; [done|].
      cbn in Hnil. apply app_eq_nil in Hnil as [Hk1 Hrest].
      cbn. apply Forall_cons.
      split; [by apply iflat_untagged|by apply IHks].
  - split; [done|]. revert Hflat. generalize (S n).
    induction IH as [|kid ks Hkid _ IHks]; intros i Hflat; [done|].
    cbn in Hflat. apply andb_true_iff in Hflat as [Hk1 Hrest].
    cbn. apply Forall_cons. split; [by apply Hkid|by apply IHks].
Qed.

Lemma flat_template_iflat t n :
  flat_template t = true → Forall iflat (ikids (label t n)).
Proof.
  unfold flat_template. rewrite label_eq. cbn [ikids].
  generalize (S n). induction (kids_of t) as [|kid ks IH]; intros i;
    [done|].
  cbn. intros [Hk Hrest]%andb_true_iff. apply Forall_cons.
  split; [by apply flat_iflat|by apply IH].
Qed.
End placeholders.

Section build.
Implicit Types (d : Dom) (T : ITree) (t : DTree).

Lemma fmap_alter_proj {X} (g : DomNode → X) (f : DomNode → DomNode) d n :
  (∀ x, g (f x) = g x) → g <$> alter f n d = g <$> d.
Proof.
  intros Hg. apply list_eq. intros i. rewrite !list_lookup_fmap.
  by apply lookup_alter_proj.
Qed.

Lemma all_listeners_alter f d n :
  (∀ x, nlisteners (f x) = nlisteners x) →
  all_listeners (alter f n d) = all_listeners d.
Proof. intros Hf. unfold all_listeners. by rewrite fmap_alter_proj. Qed.

Lemma all_listeners_app d ext :
  all_listeners (d ++ ext) = all_listeners d ++ all_listeners ext.
Proof. unfold all_listeners. by rewrite fmap_app, concat_app. Qed.

Lemma all_listeners_swap q x m d :
  all_listeners (swap_store q x m d) = all_listeners d.
Proof.
  unfold swap_store, set_parent, set_children.
  by rewrite !all_listeners_alter.
Qed.

Lemma subst_all_cons T x xs m ms :
  subst_all T (x :: xs) (m :: ms) = subst_all (subst x m T) xs ms.
Proof. done. Qed.

(** One round of the loop of [BNode.build], when the live collection
    holds [x] at position [0]: the fresh marker takes the place of
    [x]. *)
Lemma replace_round d T x rest :
  Rep d T → NoDup (ids T) → placeholder_ids T = x :: rest →
  let m := length d in
  let d1 := d ++ [new_node KText None EmptyString [] []] in
  ∃ d2,
    live_collection d1 (root_id T) anchor_tag = x :: rest ∧
    replaceWith x m d1 = Ok () d2 ∧
    length d2 = S (length d) ∧
    Rep d2 (subst x m T) ∧ NoDup (ids (subst x m T)) ∧
    all_listeners d2 = all_listeners d ∧
    parent_of d2 (root_id T) = parent_of d (root_id T) ∧
    (∀ i, i < length d → i ∉ ids T → d2 !! i = d !! i).
Proof.
  intros HR Hnd Hph m d1.
  assert (Rep d1 T) as HR1 by (by apply Rep_app).
  assert (x ∈ placeholder_ids T) as Hx.
  { rewrite Hph. apply elem_of_cons. by left. }
  destruct (placeholder_in_ids _ _ Hnd Hx) as [Hxin Hxroot].
  pose proof (Rep_ids_lt _ _ HR) as Hlt.
  assert (m ∉ ids T) as Hm.
  { intros Hin. apply (proj1 (Forall_forall _ _) Hlt) in Hin.
    unfold m in Hin. lia. }
  assert (m ≠ x) as Hmx by (by intros ->).
  destruct (parent_in_tree d1 T x HR1 Hxin Hxroot) as (q & Hq & Hqin).
  assert (length d1 = S (length d)) as Hlen1.
  { unfold d1. rewrite length_app. cbn. lia. }
  assert (d1 !! m = Some (new_node KText None EmptyString [] [])) as Hm1.
  { unfold d1, m. by apply list_lookup_middle. }
  exists (swap_store q x m d1).
  split; [by rewrite live_collection_Rep|].
  split.
  { apply replaceWith_swap; try done.
    - by rewrite Hm1.
    - unfold parent_of. by rewrite Hm1. }
  split; [by rewrite length_swap|].
  split.
  { apply Rep_subst; try done.
    - unfold m. lia.
    - by rewrite Hm1.
    - unfold children_of. by rewrite Hm1. }
  split; [by apply NoDup_ids_subst|].
  split.
  { rewrite all_listeners_swap. unfold d1.
    rewrite all_listeners_app. apply app_nil_r. }
  split.
  { rewrite parent_of_swap_ne.
    - unfold d1. rewrite parent_of_app_lt; [done|].
      apply (proj1 (Forall_forall _ _) Hlt), root_in_ids.
    - congruence.
    - intros Heq. apply Hm. rewrite <- Heq. apply root_in_ids. }
  intros i Hi Hni. rewrite lookup_swap_ne.
  - unfold d1. by rewrite lookup_app_l.
  - by intros ->.
  - by intros ->.
  - unfold m. lia.
Qed.

(** The loop of [BNode.build] on a clone without nested placeholders:
    every round finds a placeholder at position [0] of the live
    collection, and the [n] rounds put the [n] fresh markers in the
    places of the [n] placeholders, in document order. *)
Lemma replace_anchors_spec n :
  ∀ d T,
    Rep d T → NoDup (ids T) → Forall iflat (ikids T) →
    length (placeholder_ids T) = n →
    ∃ d',
      replace_anchors (root_id T) n d = Ok (seq (length d) n) d' ∧
      length d' = length d + n ∧
      Rep d' (subst_all T (placeholder_ids T) (seq (length d) n)) ∧
      all_listeners d' = all_listeners d ∧
      parent_of d' (root_id T) = parent_of d (root_id T) ∧
      (∀ i, i < length d → i ∉ ids T → d' !! i = d !! i).
Proof.
  induction n as [|n IH]; intros d T HR Hnd Hflat Hlen.
  { exists d. apply nil_length_inv in Hlen. rewrite Hlen.
    rewrite Nat.add_0_r. by repeat split. }
  destruct (placeholder_ids T) as [|x rest] eqn:Hph; [done|].
  injection Hlen as Hlen.
  destruct (replace_round d T x rest HR Hnd Hph)
    as (d2 & Hlive & Hrep & Hlen2 & HR2 & Hnd2 & HL2 & Hpr2 & Hfr2).
  assert (x ∈ placeholder_ids T) as Hx.
  { rewrite Hph. apply elem_of_cons. by left. }
  assert (placeholder_ids (subst x (length d) T) = rest) as Hph2.
  { rewrite placeholder_ids_subst by done. rewrite Hph.
    rewrite filter_cons_False by (by intros ?).
    apply filter_ne_notin.
    pose proof (NoDup_placeholder_ids _ Hnd) as Hndp.
    rewrite Hph in Hndp. by apply NoDup_cons in Hndp as [? _]. }
  destruct (IH d2 (subst x (length d) T))
    as (d' & Hrun & Hlen' & HR' & HL' & Hpr' & Hfr').
  { done. }
  { done. }
  { by apply iflat_kids_subst. }
  { by rewrite Hph2. }
  rewrite root_id_subst, Hph2 in *. rewrite Hlen2 in *.
  exists d'. split; [|split; [|split; [|split; [|split]]]].
  - cbn [replace_anchors].
    rewrite (bind_eq _ _ _ _ _ (createTextNode_eq _ _)).
    assert (gets (λ d0, live_collection d0 (root_id T) anchor_tag !! 0)
              (d ++ [new_node KText None EmptyString [] []])
            = Ok (Some x) (d ++ [new_node KText None EmptyString [] []]))
      as Hg.
    { unfold gets. by rewrite Hlive. }
    rewrite (bind_eq _ _ _ _ _ Hg).
    rewrite (bind_eq _ _ _ _ _ Hrep).
    by rewrite (bind_eq _ _ _ _ _ Hrun).
  - lia.
  - cbn [seq]. by rewrite subst_all_cons.
  - by rewrite HL'.
  - by rewrite Hpr'.
  - intros i Hi Hni. rewrite Hfr'.
    + by apply Hfr2.
    + lia.
    + intros [Hin|[-> _]]%ids_subst_elem; [done|]. lia.
Qed.

(** Whenever the loop returns, the store holds a tree under the same
    root, and no listener has been registered. *)
Lemma replace_anchors_Rep n :
  ∀ d T ms d',
    Rep d T → NoDup (ids T) →
    replace_anchors (root_id T) n d = Ok ms d' →
    all_listeners d' = all_listeners d ∧
    ∃ T', Rep d' T' ∧ root_id T' = root_id T.
Proof.
  induction n as [|n IH]; intros d T ms d' HR Hnd H.
  { injection H as <- <-. split; [done|]. by exists T. }
  cbn [replace_anchors] in H.
  rewrite (bind_eq _ _ _ _ _ (createTextNode_eq _ _)) in H.
  apply bind_Ok in H as (first & d1 & [= <- <-] & H).
  destruct (live_collection _ _ _ !! 0) as [x|] eqn:Hfirst; [|done].
  apply bind_Ok in H as ([] & d2 & Hrep & H).
  apply bind_Ok in H as (ms' & d3 & Hrun & [= <- <-]).
  rewrite live_collection_Rep in Hfirst by (done || by apply Rep_app).
  destruct (placeholder_ids T) as [|x' rest] eqn:Hph; [done|].
  injection Hfirst as ->.
  destruct (replace_round d T x rest HR Hnd Hph)
    as (d2' & _ & Hrep' & _ & HR2 & Hnd2 & HL2 & _).
  rewrite Hrep' in Hrep. injection Hrep as <-.
  rewrite <- (root_id_subst x (length d) T) in Hrun.
  destruct (IH _ _ _ _ HR2 Hnd2 Hrun) as (HL' & T' & HR' & Hroot').
  split; [by rewrite HL'|]. exists T'. split; [done|].
  by rewrite Hroot', root_id_subst.
Qed.

Lemma dkind_TElem t :
  is_TElem t = true → ∃ tag, dkind t = KElement tag.
Proof. destruct t; [by eexists|done..]. Qed.

Lemma cloneNode_eq t d ext :
  instantiate t None d = (length d, d ++ ext) →
  cloneNode t d = Ok (length d) (d ++ ext).
Proof. unfold cloneNode. by intros ->. Qed.

(** The first half of [BNode.build] for a block with children, on an
    element template without nested placeholders. *)
Lemma build_anchors_spec cls d :
  is_TElem (static_el cls) = true →
  flat_template (static_el cls) = true →
  let t := static_el cls in
  let el := length d in
  let k := placeholders t in
  let ms := seq (el + tsize t) k in
  ∃ d',
    build_anchors cls true d = Ok (el, Some ms) d' ∧
    length d' = el + tsize t + k ∧
    Rep d' (subst_all (label t el) (placeholder_ids (label t el)) ms) ∧
    parent_of d' el = None ∧
    all_listeners d' = all_listeners d ∧
    (∀ i, i < el → d' !! i = d !! i).
Proof.
  intros Hel Hflat t el k ms.
  destruct (instantiate_spec t None d) as (ext & Hi & Hlext & HR & Hp & HL).
  fold el in Hi, HR, Hp.
  set (d1 := d ++ ext) in *.
  assert (length d1 = el + tsize t) as Hlen1.
  { unfold d1. rewrite length_app. unfold el. lia. }
  assert (NoDup (ids (label t el))) as Hnd.
  { rewrite ids_label. apply NoDup_seq. }
  destruct (replace_anchors_spec k d1 (label t el))
    as (d' & Hrun & Hlen' & HR' & HL' & Hpr' & Hfr'); try done.
  { by apply flat_template_iflat. }
  { apply length_placeholder_label. }
  rewrite root_id_label, Hlen1 in *.
  exists d'. split; [|split; [|split; [|split; [|split]]]].
  - unfold build_anchors. fold t.
    rewrite (bind_eq _ _ _ _ _ (cloneNode_eq _ _ _ Hi)). fold d1.
    assert (is_element d1 el = true) as Hisel.
    { rewrite label_eq in HR. apply Rep_eq in HR as (Hk & _).
      unfold is_element. rewrite Hk.
      by destruct (dkind_TElem t Hel) as [tag ->]. }
    assert (gets (λ d0, is_element d0 el) d1 = Ok true d1) as Hg1.
    { unfold gets. by rewrite Hisel. }
    rewrite (bind_eq _ _ _ _ _ Hg1).
    assert (gets (λ d0, length (live_collection d0 el anchor_tag)) d1
            = Ok k d1) as Hg2.
    { unfold gets. f_equal.
      rewrite <- (root_id_label t el) at 1.
      rewrite live_collection_Rep by done.
      apply length_placeholder_label. }
    rewrite (bind_eq _ _ _ _ _ Hg2).
    by rewrite (bind_eq _ _ _ _ _ Hrun).
  - lia.
  - done.
  - by rewrite Hpr'.
  - rewrite HL'. unfold d1. rewrite all_listeners_app.
    unfold all_listeners at 2. rewrite HL. apply app_nil_r.
  - intros i Hi'. rewrite Hfr'.
    + unfold d1. by rewrite lookup_app_l.
    + lia.
    + rewrite ids_label. intros Hin%elem_of_seq. lia.
Qed.
End build.

Section node_lengths.
Variable parseHTML : string → list DTree.
Implicit Types (d : Dom).

Lemma replace_anchors_length el n :
  ∀ d ms d', replace_anchors el n d = Ok ms d' → length ms = n.
Proof.
  induction n as [|n IH]; intros d ms d' H.
  - by injection H as <- <-.
  - cbn [replace_anchors] in H.
    apply bind_Ok in H as (text & d1 & _ & H).
    apply bind_Ok in H as (first & d2 & _ & H).
    destruct first as [x|]; [|done].
    apply bind_Ok in H as ([] & d3 & _ & H).
    apply bind_Ok in H as (ms' & d4 & Hms & [= <- <-]).
    cbn. f_equal. eauto.
Qed.

(** Whenever the first half of [build] returns for a block with
    children, it returns as many markers as the template has
    placeholders. *)
Lemma build_anchors_length cls d el o d' :
  build_anchors cls true d = Ok (el, o) d' →
  ∃ ms, o = Some ms ∧ length ms = placeholders (static_el cls).
Proof.
  unfold build_anchors. intros H.
  apply bind_Ok in H as (el' & d1 & Hclone & H).
  apply bind_Ok in H as (is_el & d2 & [= <- <-] & H).
  destruct (is_element d1 el'); [|done].
  apply bind_Ok in H as (n & d3 & [= <- <-] & H).
  apply bind_Ok in H as (ms & d4 & Hms & [= <- <- <-]).
  exists ms. split; [done|].
  rewrite (replace_anchors_length _ _ _ _ _ Hms).
  destruct (instantiate_spec (static_el cls) None d)
    as (ext & Hi & _ & HR & _).
  unfold cloneNode in Hclone. rewrite Hi in Hclone.
  injection Hclone as <- <-.
  rewrite <- (root_id_label (static_el cls) (length d)) at 1.
  rewrite live_collection_Rep; [apply length_placeholder_label|done|].
  rewrite ids_label. apply NoDup_seq.
Qed.

Lemma BNode_build_length oid cls anchors data handlers d el o d' :
  BNode_build oid cls true anchors data handlers d = Ok (el, o) d' →
  ∃ ms, o = Some ms ∧ length ms = placeholders (static_el cls).
Proof.
  unfold BNode_build. intros H.
  apply bind_Ok in H as ([el' ms'] & d1 & Hb & H).
  apply bind_Ok in H as ([] & d2 & _ & H).
  apply bind_Ok in H as ([] & d3 & _ & [= <- <- <-]).
  by apply build_anchors_length in Hb.
Qed.

(** [mountBefore] on a Node block with children leaves the block with
    as many markers as the template has placeholders, and with the
    children array at its length. *)
Lemma BNode_mountBefore_lengths oid cls el0 cs anchors0 data handlers
    a d b' d' :
  mountBefore parseHTML
    (BNode oid cls el0 (Some cs) anchors0 data handlers) a d = Ok b' d' →
  ∃ el ms cs',
    b' = BNode oid cls (Some el) (Some cs') (Some ms) data handlers ∧
    length ms = placeholders (static_el cls) ∧ length cs' = length cs.
Proof.
  cbn [mountBefore]. intros H.
  apply bind_Ok in H as ([el o] & d1 & Hb & H).
  apply bind_Ok in H as (children' & d2 & Hc & H).
  apply bind_Ok in H as ([] & d3 & _ & [= <- <-]).
  apply bind_Ok in Hc as (cs' & d4 & Hcs & [= <- <-]).
  apply BNode_build_length in Hb as (ms & -> & Hms).
  apply forM_from_length in Hcs.
  by exists el, ms, cs'.
Qed.

Lemma node_extend_nil anchors i arr d :
  node_extend parseHTML anchors i [] arr d = Ok arr d.
Proof. done. Qed.

(** [patch] on a Node block with a successor that has no more slots
    writes within the children array, and never touches the markers. *)
Lemma BNode_patch_lengths oid cls el cs ms data handlers other ncs d
    b' d' :
  block_children other = Some ncs → length ncs ≤ length cs →
  patch parseHTML (BNode oid cls el (Some cs) (Some ms) data handlers)
        other d = Ok b' d' →
  ∃ cs',
    b' = BNode oid cls el (Some cs') (Some ms) (block_data other)
               handlers ∧
    length cs' = length cs.
Proof.
  intros Hncs Hlen. cbn [patch]. rewrite Hncs. intros H.
  apply bind_Ok in H as ([] & d1 & _ & H).
  apply bind_Ok in H as (children' & d2 & Hc & [= <- <-]).
  apply bind_Ok in Hc as (cs1 & d3 & Hcs1 & Hc).
  apply bind_Ok in Hc as (cs2 & d4 & Hcs2 & [= <- <-]).
  rewrite drop_ge in Hcs2 by done. injection Hcs2 as <- <-.
  apply forM_from_length in Hcs1. by exists cs1.
Qed.
End node_lengths.

(** * Listeners *)

Section preservation.
Context {X : Type} (Φ : Dom → X).

Lemma preserves_ret {A} (a : A) : preserves Φ (mret a).
Proof. by intros d a' d' [= <- <-]. Qed.

Lemma preserves_throw {A} e : preserves Φ (throw (A := A) e).
Proof. by intros d a d' ?. Qed.

Lemma preserves_gets {A} (f : Dom → A) : preserves Φ (gets f).
Proof. by intros d a d' [= <- <-]. Qed.

Lemma preserves_modify f : (∀ d, Φ (f d) = Φ d) → preserves Φ (modify f).
Proof. intros Hf d [] d' [= <-]. apply Hf. Qed.

Lemma preserves_bind {A B} (m : M A) (f : A → M B) :
  preserves Φ m → (∀ a, preserves Φ (f a)) → preserves Φ (m ≫= f).
Proof.
  intros Hm Hf d b d' H. apply bind_Ok in H as (a & d1 & H1 & H2).
  rewrite (Hf _ _ _ _ H2). by apply (Hm _ _ _ H1).
Qed.

Lemma preserves_forM_from {A B} (f : nat → A → M B) (l : list A) :
  Forall (λ x, ∀ i, preserves Φ (f i x)) l →
  ∀ i, preserves Φ (forM_from f i l).
Proof.
  induction 1 as [|x l Hx _ IH]; intros i; [apply preserves_ret|].
  rewrite forM_from_cons. apply preserves_bind; [apply Hx|]. intros y.
  apply preserves_bind; [apply IH|]. intros ys. apply preserves_ret.
Qed.

Lemma preserves_foldM_from {A B} (f : nat → A → B → M B) (l : list A) :
  Forall (λ x, ∀ i s, preserves Φ (f i x s)) l →
  ∀ i s, preserves Φ (foldM_from f i l s).
Proof.
  induction 1 as [|x l Hx _ IH]; intros i s; [apply preserves_ret|].
  cbn [foldM_from]. apply preserves_bind; [apply Hx|]. intros s'. apply IH.
Qed.

Lemma preserves_iterM {A} (f : A → M unit) (l : list A) :
  (∀ x, preserves Φ (f x)) → preserves Φ (iterM f l).
Proof.
  intros Hf. induction l as [|x l IH]; [apply preserves_ret|].
  cbn [iterM]. apply preserves_bind; [apply Hf|]. by intros [].
Qed.
End preservation.

Section listener_frames.
Implicit Types (d : Dom).

Lemma all_listeners_detach e d : all_listeners (detach e d) = all_listeners d.
Proof.
  unfold detach. destruct (parent_of d e); [|done].
  unfold set_parent, set_children. by rewrite !all_listeners_alter.
Qed.

Lemma all_listeners_place_before p a e d :
  all_listeners (place_before p a e d) = all_listeners d.
Proof.
  unfold place_before, set_parent, set_children.
  by rewrite !all_listeners_alter, all_listeners_detach.
Qed.

Lemma all_listeners_alloc k p s attrs classes d :
  all_listeners (d ++ [new_node k p s attrs classes]) = all_listeners d.
Proof. rewrite all_listeners_app. apply app_nil_r. Qed.

Lemma keeps_createTextNode s : preserves all_listeners (createTextNode s).
Proof. intros d a d' [= <- <-]. apply all_listeners_alloc. Qed.

Lemma keeps_createElement tag : preserves all_listeners (createElement tag).
Proof. intros d a d' [= <- <-]. apply all_listeners_alloc. Qed.

Lemma keeps_removeNode e : preserves all_listeners (removeNode e).
Proof. apply preserves_modify. intros d. apply all_listeners_detach. Qed.

Lemma keeps_before a e : preserves all_listeners (before a e).
Proof.
  intros d [] d'. unfold before. destruct a as [a|]; [|done].
  destruct (parent_of d a); [|by intros [= <-]].
  destruct (hierarchy_violation d e n); [done|].
  destruct (decide (e = a)); intros [= <-]; [done|].
  apply all_listeners_place_before.
Qed.

Lemma keeps_replaceWith x e : preserves all_listeners (replaceWith x e).
Proof.
  intros d [] d'. unfold replaceWith.
  destruct (parent_of d x); [|by intros [= <-]].
  destruct (hierarchy_violation d e n); [done|].
  destruct (decide (e = x)); intros [= <-]; [done|].
  unfold set_parent, set_children.
  by rewrite !all_listeners_alter, all_listeners_detach.
Qed.

Lemma keeps_appendChild p e : preserves all_listeners (appendChild p e).
Proof.
  intros d [] d'. unfold appendChild.
  destruct (hierarchy_violation d e p); [done|]. intros [= <-].
  unfold set_parent, set_children.
  by rewrite !all_listeners_alter, all_listeners_detach.
Qed.

Lemma keeps_set_textContent n s :
  preserves all_listeners (set_textContent n s).
Proof.
  apply preserves_modify. intros d. by apply all_listeners_alter.
Qed.

Lemma all_listeners_instantiate_all p ks d :
  all_listeners (instantiate_all p ks d).2 = all_listeners d.
Proof.
  destruct (instantiate_all_spec ks) with (p := p) (d := d)
    as (ext & -> & _ & _ & HL).
  { apply Forall_forall. intros t _. apply instantiate_spec. }
  cbn [snd]. rewrite all_listeners_app. unfold all_listeners at 2.
  rewrite HL. apply app_nil_r.
Qed.

Lemma keeps_cloneNode t : preserves all_listeners (cloneNode t).
Proof.
  intros d a d'. unfold cloneNode.
  destruct (instantiate_spec t None d) as (ext & -> & _ & _ & _ & HL).
  intros [= <- <-]. rewrite all_listeners_app. unfold all_listeners at 2.
  rewrite HL. apply app_nil_r.
Qed.

Lemma keeps_set_innerHTML n parsed :
  preserves all_listeners (set_innerHTML n parsed).
Proof.
  intros d [] d'. unfold set_innerHTML.
  pose proof (all_listeners_instantiate_all (Some n) parsed
                (foldr detach d (children_of d n))) as H.
  destruct (instantiate_all _ _ _) as [roots d1]. intros [= <-].
  unfold set_children. rewrite all_listeners_alter by done.
  cbn [snd] in H. rewrite H. clear H.
  induction (children_of d n) as [|c cs IH]; [done|].
  cbn [foldr]. by rewrite all_listeners_detach.
Qed.

Lemma keeps_classList_add elem c :
  preserves all_listeners (classList_add elem c).
Proof.
  intros d [] d'. unfold classList_add. destruct elem as [n|]; [|done].
  destruct (is_element d n); [|done]. destruct (has_space c); [done|].
  intros [= <-]. by apply all_listeners_alter.
Qed.

Lemma keeps_setAttribute elem a v :
  preserves all_listeners (setAttribute elem a v).
Proof.
  intros d [] d'. unfold setAttribute. destruct elem as [n|]; [|done].
  destruct (is_element d n); [|done]. destruct (valid_name a); [|done].
  intros [= <-]. apply all_listeners_alter.
  intros x. by destruct (decide _).
Qed.

Lemma keeps_removeAttribute elem a :
  preserves all_listeners (removeAttribute elem a).
Proof.
  intros d [] d'. unfold removeAttribute. destruct elem as [n|]; [|done].
  destruct (is_element d n); [|done].
  intros [= <-]. apply all_listeners_alter.
  intros x. by destruct (decide _).
Qed.

Lemma keeps_resolve cur p : preserves all_listeners (resolve cur p).
Proof.
  revert cur. induction p as [|i p IH]; intros cur; [apply preserves_ret|].
  cbn [resolve]. destruct cur; [|apply preserves_throw].
  apply preserves_bind; [apply preserves_gets|]. intros c. apply IH.
Qed.

Lemma keeps_update cls el data : preserves all_listeners (update cls el data).
Proof.
  apply preserves_iterM. intros [p ix|p a ix]; cbn [run_update_call].
  - apply preserves_bind; [apply keeps_resolve|]. intros elem.
    apply preserves_bind.
    { unfold data_at. destruct data; [apply preserves_ret|apply preserves_throw]. }
    intros v. unfold updateClass.
    destruct (truthy v); [apply keeps_classList_add|apply preserves_ret].
  - apply preserves_bind; [apply keeps_resolve|]. intros elem.
    apply preserves_bind.
    { unfold data_at. destruct data; [apply preserves_ret|apply preserves_throw]. }
    intros v. unfold updateAttr.
    destruct (truthy v); [apply keeps_setAttribute|apply keeps_removeAttribute].
Qed.

Lemma keeps_BHtml_build parseHTML html :
  preserves all_listeners (BHtml_build parseHTML html).
Proof.
  unfold BHtml_build.
  apply preserves_bind; [apply keeps_createElement|]. intros div.
  apply preserves_bind; [apply keeps_set_innerHTML|]. intros [].
  apply preserves_bind; [apply preserves_gets|]. intros content.
  apply preserves_ret.
Qed.

Lemma registrations_eq o i d :
  registrations o i d
  = length (filter (λ l, owned_by o i l = true) (all_listeners d)).
Proof. done. Qed.

Lemma preserves_registrations {A} o i (m : M A) :
  preserves all_listeners m → preserves (registrations o i) m.
Proof.
  intros Hm d a d' H. rewrite !registrations_eq. by rewrite (Hm _ _ _ H).
Qed.
End listener_frames.

Section registrations.
Variable parseHTML : string → list DTree.
Implicit Types (d : Dom) (b : Block).

Lemma oids_below_eq cs :
  (fix go (cs : list (option Block)) : list nat :=
     match cs with
     | [] => []
     | Some c :: cs' => oids c ++ go cs'
     | None :: cs' => go cs'
     end) cs = oids_below cs.
Proof.
  unfold oids_below. induction cs as [|[c|] cs IH]; [done|..]; cbn;
    by rewrite IH.
Qed.

Lemma oids_BNode oid cls el children anchors data handlers :
  oids (BNode oid cls el children anchors data handlers)
  = oid :: oids_below (default [] children).
Proof.
  cbn [oids]. f_equal. destruct children as [cs|]; [|done].
  apply oids_below_eq.
Qed.

Lemma oids_BMulti cs anchors : oids (BMulti cs anchors) = oids_below cs.
Proof. apply oids_below_eq. Qed.

Lemma oids_BCollection cs a : oids (BCollection cs a) = oids_below cs.
Proof. apply oids_below_eq. Qed.

Lemma oids_below_lookup cs j c o :
  cs !! j = Some (Some c) → o ∉ oids_below cs → o ∉ oids c.
Proof.
  intros Hj Hn Hin. apply Hn. unfold oids_below.
  apply elem_of_concat. exists (oids c). split; [done|].
  apply list_elem_of_fmap. exists (Some c). split; [done|].
  by apply list_elem_of_lookup_2 in Hj.
Qed.

Lemma oids_js_get cs j c o :
  js_get cs j = Some c → o ∉ oids_below cs → o ∉ oids c.
Proof.
  unfold js_get. destruct (cs !! j) as [[c'|]|] eqn:Hj; try done.
  intros [= ->]. by apply (oids_below_lookup cs j).
Qed.

Lemma oids_children other ncs o :
  block_children other = Some ncs → o ∉ oids other → o ∉ oids_below ncs.
Proof.
  destruct other as [| |oid cls el children anchors data handlers
                    |cs anchors|cs a]; cbn [block_children]; try done.
  - intros ->. rewrite oids_BNode. cbn. by intros [_ ?]%not_elem_of_cons.
  - intros [= ->]. by rewrite oids_BMulti.
  - intros [= ->]. by rewrite oids_BCollection.
Qed.

(** Registering a listener on a node. *)
Lemma registrations_add o i l n d :
  registrations o i
    (alter (λ x, with_listeners (nlisteners x ++ [l]) x) n d)
  = registrations o i d
    + (if decide (n < length d)
       then (if owned_by o i l then 1 else 0) else 0).
Proof.
  destruct (decide (n < length d)) as [Hlt|Hge]; last first.
  { assert (alter (λ x, with_listeners (nlisteners x ++ [l]) x) n d = d)
      as ->; [|lia].
    apply list_eq. intros j. rewrite list_lookup_alter.
    destruct (decide (n = j)) as [->|]; [|done].
    by rewrite lookup_ge_None_2 by lia. }
  destruct (lookup_lt_is_Some_2 d n Hlt) as [x Hx].
  assert (length (take n d) = n) as Hlen by (rewrite length_take; lia).
  pose proof (take_drop_middle d n x Hx) as Hd.
  revert Hd Hlen. generalize (take n d) (drop (S n) d). intros d1 d2 <- <-.
  rewrite <- (Nat.add_0_r (length d1)). rewrite alter_app_r.
  cbn [alter list_alter].
  rewrite !registrations_eq, !all_listeners_app.
  change (all_listeners (with_listeners (nlisteners x ++ [l]) x :: d2))
    with ((nlisteners x ++ [l]) ++ all_listeners d2).
  change (all_listeners (x :: d2)) with (nlisteners x ++ all_listeners d2).
  rewrite !filter_app, !length_app. cbn [filter list_filter].
  destruct (decide (owned_by o i l = true)) as [Ho|Ho].
  - rewrite Ho. cbn. lia.
  - destruct (owned_by o i l); [done|]. cbn. lia.
Qed.

Lemma keeps_addEventListener_other o i el l :
  owned_by o i l = false →
  preserves (registrations o i) (addEventListener el l).
Proof.
  intros Ho d [] d'. unfold addEventListener. destruct el as [n|]; [|done].
  intros [= <-]. rewrite registrations_add, Ho.
  destruct (decide _); lia.
Qed.

Lemma keeps_setupHandlers_other o i cls oid handlers el :
  o ≠ oid →
  preserves (registrations o i) (setupHandlers cls oid handlers el).
Proof.
  intros Hne. apply preserves_iterM. intros [p index].
  apply preserves_bind.
  { apply preserves_registrations, keeps_resolve. }
  intros target. unfold setupHandler.
  destruct handlers as [hs|]; [|apply preserves_throw].
  destruct (hs !! index) as [[ev th]|]; [|apply preserves_throw].
  apply keeps_addEventListener_other. unfold owned_by. cbn.
  rewrite bool_decide_eq_false_2; [done|congruence].
Qed.

Lemma keeps_replace_anchors el n :
  preserves all_listeners (replace_anchors el n).
Proof.
  induction n as [|n IH]; [apply preserves_ret|].
  cbn [replace_anchors].
  apply preserves_bind; [apply keeps_createTextNode|]. intros text.
  apply preserves_bind; [apply preserves_gets|]. intros [x|];
    [|apply preserves_throw].
  apply preserves_bind; [apply keeps_replaceWith|]. intros [].
  apply preserves_bind; [apply IH|]. intros ms. apply preserves_ret.
Qed.

Lemma keeps_build_anchors cls hc :
  preserves all_listeners (build_anchors cls hc).
Proof.
  unfold build_anchors.
  apply preserves_bind; [apply keeps_cloneNode|]. intros el.
  destruct hc; [|apply preserves_ret].
  apply preserves_bind; [apply preserves_gets|]. intros [|];
    [|apply preserves_throw].
  apply preserves_bind; [apply preserves_gets|]. intros n.
  apply preserves_bind; [apply keeps_replace_anchors|]. intros ms.
  apply preserves_ret.
Qed.

Lemma keeps_BNode_build_other o i oid cls hc anchors data handlers :
  o ≠ oid →
  preserves (registrations o i)
            (BNode_build oid cls hc anchors data handlers).
Proof.
  intros Hne. unfold BNode_build.
  apply preserves_bind.
  { apply preserves_registrations, keeps_build_anchors. }
  intros [el ms].
  apply preserves_bind.
  { apply preserves_registrations, keeps_update. }
  intros [].
  apply preserves_bind.
  { destruct handlers; [by apply keeps_setupHandlers_other|].
    apply preserves_ret. }
  intros []. apply preserves_ret.
Qed.

(** [remove] registers nothing. *)
Lemma keeps_remove b : preserves all_listeners (remove b).
Proof.
  induction b as [html content a el|el|oid cls el children anchors data handlers _
                 |cs anchors IH|cs a _] using Block_nested_ind;
    cbn [remove].
  - apply preserves_bind; [|intros []; apply keeps_removeNode].
    apply preserves_iterM. intros x. apply keeps_removeNode.
  - apply preserves_ret.
  - destruct el; [apply keeps_removeNode|apply preserves_throw].
  - apply preserves_bind; [|intros ?; apply preserves_ret].
    apply preserves_forM_from.
    eapply Forall_impl; [exact IH|]. intros [c|] Hc i; cbn in Hc.
    + apply preserves_bind; [done|]. intros [].
      destruct (js_get anchors i); [apply keeps_removeNode|apply preserves_throw].
    + apply preserves_bind; [apply preserves_throw|]. intros [].
      destruct (js_get anchors i); [apply keeps_removeNode|apply preserves_throw].
  - apply preserves_ret.
Qed.

(** [mountBefore] registers listeners for the Node blocks of the tree it
    mounts, and for no other block. *)
Lemma keeps_mountBefore o i b :
  o ∉ oids b → ∀ a, preserves (registrations o i) (mountBefore parseHTML b a).
Proof.
  induction b as [html content a' el|el|oid cls el children anchors data handlers IH
                 |cs anchors IH|cs a' IH] using Block_nested_ind;
    intros Ho a; cbn [mountBefore].
  - apply preserves_registrations.
    apply preserves_bind; [apply keeps_BHtml_build|]. intros [content' el'].
    apply preserves_bind; [apply keeps_before|]. intros [].
    apply preserves_bind; [|intros []; apply preserves_ret].
    apply preserves_iterM. intros x. apply keeps_before.
  - apply preserves_registrations.
    apply preserves_bind; [apply keeps_before|]. intros [].
    apply preserves_ret.
  - rewrite oids_BNode in Ho. apply not_elem_of_cons in Ho as [Hne Ho].
    apply preserves_bind; [by apply keeps_BNode_build_other|].
    intros [el' anchors'].
    apply preserves_bind.
    + destruct children as [cs|]; [|apply preserves_ret].
      apply preserves_bind; [|intros ?; apply preserves_ret].
      apply preserves_forM_from. cbn [default] in IH, Ho.
      apply Forall_forall. intros [c|] Hc j; [|apply preserves_ret].
      apply preserves_bind; [|intros ?; apply preserves_ret].
      apply (proj1 (Forall_forall _ _) IH (Some c) Hc).
      apply list_elem_of_lookup_1 in Hc as [j' Hj'].
      by apply (oids_below_lookup cs j').
    + intros children'.
      apply preserves_bind; [|intros []; apply preserves_ret].
      apply preserves_registrations, keeps_before.
  - rewrite oids_BMulti in Ho.
    apply preserves_bind; [|intros ?; apply preserves_ret].
    apply preserves_forM_from.
    apply Forall_forall. intros c Hc j.
    apply preserves_bind.
    { apply preserves_registrations, keeps_createTextNode. }
    intros m.
    apply preserves_bind.
    { apply preserves_registrations, keeps_before. }
    intros []. destruct c as [c|]; [|apply preserves_ret].
    apply preserves_bind; [|intros ?; apply preserves_ret].
    apply (proj1 (Forall_forall _ _) IH (Some c) Hc).
    apply list_elem_of_lookup_1 in Hc as [j' Hj'].
    by apply (oids_below_lookup cs j').
  - rewrite oids_BCollection in Ho.
    apply preserves_bind.
    { apply preserves_registrations, keeps_createTextNode. }
    intros m.
    apply preserves_bind.
    { apply preserves_registrations, keeps_before. }
    intros [].
    apply preserves_bind; [|intros ?; apply preserves_ret].
    apply preserves_forM_from.
    apply Forall_forall. intros [c|] Hc j; [|apply preserves_throw].
    apply preserves_bind; [|intros ?; apply preserves_ret].
    apply (proj1 (Forall_forall _ _) IH (Some c) Hc).
    apply list_elem_of_lookup_1 in Hc as [j' Hj'].
    by apply (oids_below_lookup cs j').
Qed.

Lemma keeps_node_extend o i anchors ncs :
  o ∉ oids_below ncs →
  ∀ j arr, preserves (registrations o i)
                     (node_extend parseHTML anchors j ncs arr).
Proof.
  induction ncs as [|[n|] ncs IH]; intros Ho j arr; cbn [node_extend].
  - apply preserves_ret.
  - unfold oids_below in Ho. cbn in Ho.
    apply not_elem_of_app in Ho as [Hn Hrest].
    destruct anchors as [ms|]; [|apply preserves_throw].
    apply preserves_bind; [by apply keeps_mountBefore|]. intros n'.
    by apply IH.
  - by apply IH.
Qed.

Lemma oids_below_drop n ncs o :
  o ∉ oids_below ncs → o ∉ oids_below (drop n ncs).
Proof.
  intros Ho Hin. apply Ho. unfold oids_below in *.
  apply elem_of_concat in Hin as (l & Hl & Hin).
  apply elem_of_concat. exists l. split; [done|].
  apply list_elem_of_fmap in Hin as (c & -> & Hc).
  apply list_elem_of_fmap. exists c. split; [done|].
  eapply elem_of_sublist; [done|apply sublist_drop].
Qed.

(** [patch] registers listeners for the Node blocks of the successor it
    mounts, and for no other block. *)
Lemma keeps_patch o i b :
  ∀ other, o ∉ oids other →
           preserves (registrations o i) (patch parseHTML b other).
Proof.
  induction b as [html content a' el|el|oid cls el children anchors data handlers IH
                 |cs anchors IH|cs a' IH] using Block_nested_ind;
    intros other Ho; cbn [patch].
  - apply preserves_registrations.
    apply preserves_bind.
    { apply preserves_iterM. intros x. apply keeps_removeNode. }
    intros [].
    apply preserves_bind; [apply keeps_BHtml_build|]. intros [content' el'].
    apply preserves_bind; [|intros []; apply preserves_ret].
    apply preserves_iterM. intros x. apply keeps_before.
  - apply preserves_registrations.
    destruct (block_el other); [|apply preserves_throw].
    apply preserves_bind; [apply preserves_gets|]. intros s.
    apply preserves_bind; [apply keeps_set_textContent|]. intros [].
    apply preserves_ret.
  - apply preserves_bind.
    { apply preserves_registrations, keeps_update. }
    intros [].
    apply preserves_bind; [|intros ?; apply preserves_ret].
    destruct children as [cs|]; [|apply preserves_ret].
    destruct (block_children other) as [ncs|] eqn:Hncs;
      [|apply preserves_throw].
    pose proof (oids_children _ _ _ Hncs Ho) as Hbelow.
    apply preserves_bind.
    + apply preserves_forM_from. cbn [default] in IH.
      apply Forall_forall. intros c Hc j.
      destruct (decide (j < length ncs)); [|apply preserves_ret].
      unfold node_slot.
      destruct c as [c|], (js_get ncs j) as [n|] eqn:Hn.
      * apply preserves_bind; [|intros ?; apply preserves_ret].
        apply (proj1 (Forall_forall _ _) IH (Some c) Hc).
        by apply (oids_js_get ncs j).
      * apply preserves_bind; [|intros ?; apply preserves_ret].
        apply preserves_registrations, keeps_remove.
      * destruct anchors as [ms|]; [|apply preserves_throw].
        apply preserves_bind; [|intros ?; apply preserves_ret].
        apply keeps_mountBefore. by apply (oids_js_get ncs j).
      * apply preserves_ret.
    + intros cs1.
      apply preserves_bind; [|intros ?; apply preserves_ret].
      apply keeps_node_extend. by apply oids_below_drop.
  - apply preserves_bind; [|intros ?; apply preserves_ret].
    apply preserves_foldM_from.
    apply Forall_forall. intros c Hc j arr. unfold multi_slot.
    destruct (block_children other) as [ncs|] eqn:Hncs;
      [|apply preserves_throw].
    pose proof (oids_children _ _ _ Hncs Ho) as Hbelow.
    destruct c as [c|], (js_get ncs j) as [n|] eqn:Hn.
    + apply preserves_bind; [|intros ?; apply preserves_ret].
      apply (proj1 (Forall_forall _ _) IH (Some c) Hc).
      by apply (oids_js_get ncs j).
    + apply preserves_bind; [|intros ?; apply preserves_ret].
      apply preserves_registrations, keeps_remove.
    + apply preserves_bind; [|intros ?; apply preserves_ret].
      apply keeps_mountBefore. by apply (oids_js_get ncs j).
    + apply preserves_ret.
  - apply preserves_ret.
Qed.
End registrations.

Section handlers.
Variable parseHTML : string → list DTree.
Implicit Types (d : Dom) (T : ITree).

Lemma skeleton_alter f d n :
  (∀ x, nkind (f x) = nkind x) → (∀ x, nparent (f x) = nparent x) →
  (∀ x, nchildren (f x) = nchildren x) →
  skeleton (alter f n d) = skeleton d.
Proof.
  intros Hk Hp Hc. unfold skeleton. apply fmap_alter_proj.
  intros x. by rewrite Hk, Hp, Hc.
Qed.

Lemma skeleton_lookup d d' i :
  skeleton d' = skeleton d →
  nkind <$> d' !! i = nkind <$> d !! i ∧
  parent_of d' i = parent_of d i ∧ children_of d' i = children_of d i.
Proof.
  intros H. assert (skeleton d' !! i = skeleton d !! i) as Hi by (by rewrite H).
  unfold skeleton in Hi. rewrite !list_lookup_fmap in Hi.
  unfold parent_of, children_of.
  destruct (d' !! i), (d !! i); simplify_eq/=; [|done].
  repeat split; congruence.
Qed.

(** [Rep] depends on the shape of the store only. *)
Lemma Rep_skeleton d d' T : skeleton d' = skeleton d → Rep d T → Rep d' T.
Proof.
  intros Hs. induction T as [n k kids IH] using ITree_nested_ind.
  rewrite !Rep_eq. intros (Hk & Hc & Hkids).
  destruct (skeleton_lookup d d' n Hs) as (Hk' & _ & Hc').
  split; [by rewrite Hk'|]. split; [by rewrite Hc'|].
  clear Hk Hc Hk' Hc'.
  induction IH as [|kid ks Hkid _ IHks]; [done|].
  apply Forall_cons in Hkids as [[Hp HR] Hrest].
  apply Forall_cons. split; [|by apply IHks]. split; [|by apply Hkid].
  destruct (skeleton_lookup d d' (root_id kid) Hs) as (_ & Hp' & _).
  by rewrite Hp'.
Qed.

Lemma shape_classList_add elem c : preserves skeleton (classList_add elem c).
Proof.
  intros d [] d'. unfold classList_add. destruct elem as [n|]; [|done].
  destruct (is_element d n); [|done]. destruct (has_space c); [done|].
  intros [= <-]. by apply skeleton_alter.
Qed.

Lemma shape_setAttribute elem a v : preserves skeleton (setAttribute elem a v).
Proof.
  intros d [] d'. unfold setAttribute. destruct elem as [n|]; [|done].
  destruct (is_element d n); [|done]. destruct (valid_name a); [|done].
  intros [= <-]. apply skeleton_alter; intros x; by destruct (decide _).
Qed.

Lemma shape_removeAttribute elem a :
  preserves skeleton (removeAttribute elem a).
Proof.
  intros d [] d'. unfold removeAttribute. destruct elem as [n|]; [|done].
  destruct (is_element d n); [|done].
  intros [= <-]. apply skeleton_alter; intros x; by destruct (decide _).
Qed.

Lemma shape_resolve cur p : preserves skeleton (resolve cur p).
Proof.
  revert cur. induction p as [|i p IH]; intros cur; [apply preserves_ret|].
  cbn [resolve]. destruct cur; [|apply preserves_throw].
  apply preserves_bind; [apply preserves_gets|]. intros c. apply IH.
Qed.

(** The update hook changes classes and attributes, not the shape. *)
Lemma shape_update cls el data : preserves skeleton (update cls el data).
Proof.
  apply preserves_iterM. intros [p ix|p a ix]; cbn [run_update_call].
  - apply preserves_bind; [apply shape_resolve|]. intros elem.
    apply preserves_bind.
    { unfold data_at.
      destruct data; [apply preserves_ret|apply preserves_throw]. }
    intros v. unfold updateClass.
    destruct (truthy v); [apply shape_classList_add|apply preserves_ret].
  - apply preserves_bind; [apply shape_resolve|]. intros elem.
    apply preserves_bind.
    { unfold data_at.
      destruct data; [apply preserves_ret|apply preserves_throw]. }
    intros v. unfold updateAttr.
    destruct (truthy v);
      [apply shape_setAttribute|apply shape_removeAttribute].
Qed.

Lemma resolve_state cur p d target d' :
  resolve cur p d = Ok target d' → d' = d.
Proof.
  revert cur d. induction p as [|i p IH]; intros cur d.
  - by intros [= _ <-].
  - cbn [resolve]. destruct cur; [|done]. intros H.
    apply bind_Ok in H as (c & d1 & [= <- <-] & H). by apply IH in H.
Qed.

(** A path from the root of a tree the store holds leads to a node of
    the tree, or to nothing. *)
Lemma resolve_in_tree p :
  ∀ T d target d',
    Rep d T → resolve (Some (root_id T)) p d = Ok target d' →
    ∀ n, target = Some n → n ∈ ids T.
Proof.
  induction p as [|i p IH]; intros T d target d' HR H n ->.
  - injection H as <- _. apply root_in_ids.
  - cbn [resolve] in H.
    apply bind_Ok in H as (c & d1 & [= <- <-] & H).
    destruct T as [r k kids]. apply Rep_eq in HR as (_ & Hc & Hkids).
    cbn [root_id] in H. rewrite Hc, list_lookup_fmap in H.
    destruct (kids !! i) as [kid|] eqn:Hi; cbn in H.
    + apply list_elem_of_lookup_2 in Hi as Hin.
      apply (proj1 (Forall_forall _ _) Hkids) in Hin as [_ HRk].
      rewrite ids_eq. apply elem_of_cons. right.
      apply elem_of_concat. exists (ids kid). split.
      * by apply (IH kid d (Some n) d' HRk H).
      * apply list_elem_of_fmap. exists kid. split; [done|].
        by apply list_elem_of_lookup_2 in Hi.
    + destruct p; [by injection H|done].
Qed.

(** Every [setupHandler] call of a block registers one listener of the
    block, on a node of its clone. *)
Lemma setupHandlers_rounds oid handlers el i T (l : list (list nat * nat)) :
  root_id T = el →
  ∀ d d',
    Rep d T →
    iterM (λ '(p, index),
             target ← resolve (Some el) p;
             setupHandler oid handlers target index) l d = Ok () d' →
    registrations oid i d'
    = registrations oid i d + length (filter (λ s, s.2 = i) l) ∧
    skeleton d' = skeleton d.
Proof.
  intros Hroot. induction l as [|[p index] l IH]; intros d d' HR H.
  { injection H as <-. cbn. split; [lia|done]. }
  cbn [iterM] in H. apply bind_Ok in H as ([] & d1 & H1 & H2).
  apply bind_Ok in H1 as (target & d0 & Hres & Hset).
  pose proof (resolve_state _ _ _ _ _ Hres) as ->.
  unfold setupHandler in Hset.
  destruct handlers as [hs|]; [|done].
  destruct (hs !! index) as [[ev th]|]; [|done].
  destruct target as [n|]; [|done].
  injection Hset as <-.
  rewrite <- Hroot in Hres.
  pose proof (resolve_in_tree p T d (Some n) d HR Hres n eq_refl) as Hn.
  pose proof (Rep_ids_lt _ _ HR) as Hlt.
  apply (proj1 (Forall_forall _ _) Hlt) in Hn.
  set (d1 := alter _ n d) in *.
  assert (skeleton d1 = skeleton d) as Hs1 by (by apply skeleton_alter).
  destruct (IH d1 d') as [Hcount Hs]; [by apply (Rep_skeleton d)|done|].
  split; [|congruence].
  rewrite Hcount. unfold d1. rewrite registrations_add.
  rewrite decide_True by done. unfold owned_by. cbn [l_owner l_index].
  rewrite bool_decide_eq_true_2 by done. cbn [andb].
  destruct (decide (index = i)) as [->|Hne].
  - rewrite bool_decide_eq_true_2 by done.
    rewrite filter_cons_True by done. cbn. lia.
  - rewrite bool_decide_eq_false_2 by done.
    rewrite filter_cons_False by done. lia.
Qed.

(** Whenever the first half of [build] returns, the store holds a tree
    under the clone's root. *)
Lemma build_anchors_Rep cls hc d el o d' :
  build_anchors cls hc d = Ok (el, o) d' → ∃ T, Rep d' T ∧ root_id T = el.
Proof.
  unfold build_anchors. intros H.
  apply bind_Ok in H as (el' & d1 & Hclone & H).
  destruct (instantiate_spec (static_el cls) None d)
    as (ext & Hi & _ & HR & _).
  unfold cloneNode in Hclone. rewrite Hi in Hclone.
  injection Hclone as <- <-.
  destruct hc.
  - apply bind_Ok in H as (is_el & d2 & [= <- <-] & H).
    destruct (is_element _ _); [|done].
    apply bind_Ok in H as (n & d3 & [= <- <-] & H).
    apply bind_Ok in H as (ms & d4 & Hms & [= <- <- <-]).
    rewrite <- (root_id_label (static_el cls) (length d)) in Hms.
    apply replace_anchors_Rep in Hms as (_ & T' & HR' & Hroot');
      [|done|rewrite ids_label; apply NoDup_seq].
    exists T'. split; [done|]. by rewrite Hroot', root_id_label.
  - injection H as <- <- <-. eexists. split; [done|].
    apply root_id_label.
Qed.

Lemma BNode_build_registrations oid cls hc anchors data hs i d el o d' :
  BNode_build oid cls hc anchors data (Some hs) d = Ok (el, o) d' →
  registrations oid i d' = registrations oid i d + sites cls i.
Proof.
  unfold BNode_build. intros H.
  apply bind_Ok in H as ([el' ms'] & d1 & Hb & H).
  apply bind_Ok in H as ([] & d2 & Hu & H).
  apply bind_Ok in H as ([] & d3 & Hs & [= <- <- <-]).
  destruct (build_anchors_Rep _ _ _ _ _ _ Hb) as (T & HR & Hroot).
  apply (Rep_skeleton _ d2) in HR; [|by apply (shape_update _ _ _ _ _ _ Hu)].
  unfold setupHandlers in Hs.
  destruct (setupHandlers_rounds _ _ _ i T _ Hroot _ _ HR Hs) as [Hcount _].
  rewrite Hcount. unfold sites.
  rewrite (preserves_registrations _ _ _ (keeps_update _ _ _) _ _ _ Hu).
  by rewrite (preserves_registrations _ _ _ (keeps_build_anchors _ _) _ _ _ Hb).
Qed.

(** [mountBefore] on a Node block registers one listener of the block
    for each of its [setupHandler] calls. *)
Lemma BNode_mountBefore_registrations oid cls el0 children anchors0 data
    hs i a d b1 d1 :
  oid ∉ oids_below (default [] children) →
  mountBefore parseHTML (BNode oid cls el0 children anchors0 data (Some hs))
              a d = Ok b1 d1 →
  registrations oid i d1 = registrations oid i d + sites cls i ∧
  ∃ el children' anchors',
    b1 = BNode oid cls (Some el) children' anchors' data (Some hs).
Proof.
  intros Ho. cbn [mountBefore]. intros H.
  apply bind_Ok in H as ([el o] & d2 & Hb & H).
  apply bind_Ok in H as (children' & d3 & Hc & H).
  apply bind_Ok in H as ([] & d4 & Hbefore & [= <- <-]).
  split; [|by eexists _, _, _].
  rewrite (preserves_registrations _ _ _ (keeps_before _ _) _ _ _ Hbefore).
  rewrite <- (BNode_build_registrations _ _ _ _ _ _ i _ _ _ _ Hb).
  destruct children as [cs|]; [|by injection Hc as <- <-].
  apply bind_Ok in Hc as (cs' & d5 & Hcs & [= <- <-]).
  revert Hcs. apply preserves_forM_from.
  apply Forall_forall. intros [c|] Hc j; [|apply preserves_ret].
  apply preserves_bind; [|intros ?; apply preserves_ret].
  apply keeps_mountBefore.
  apply list_elem_of_lookup_1 in Hc as [j' Hj'].
  by apply (oids_below_lookup cs j').
Qed.

(** [patch] never writes [this.handlers]. *)
Lemma patch_handlers b other d b' d' :
  patch parseHTML b other d = Ok b' d' →
  block_handlers b' = block_handlers b.
Proof.
  destruct b as [html content a el|el|oid cls el children anchors data handlers
                |cs anchors|cs a]; cbn [patch]; intros H.
  - apply bind_Ok in H as ([] & d1 & _ & H).
    apply bind_Ok in H as ([c e] & d2 & _ & H).
    by apply bind_Ok in H as ([] & d3 & _ & [= <- <-]).
  - destruct (block_el other); [|done].
    apply bind_Ok in H as (s & d1 & _ & H).
    by apply bind_Ok in H as ([] & d3 & _ & [= <- <-]).
  - apply bind_Ok in H as ([] & d1 & _ & H).
    by apply bind_Ok in H as (c & d2 & _ & [= <- <-]).
  - by apply bind_Ok in H as (c & d2 & _ & [= <- <-]).
  - by injection H as <- <-.
Qed.
End handlers.

(** * Html and Multi blocks on sample inputs; handlers and slots *)

(** [BHtml.patch] never reads its argument. *)
Lemma BHtml_patch_ignores_successor parseHTML html content a el other other' d :
  patch parseHTML (BHtml html content a el) other d
  = patch parseHTML (BHtml html content a el) other' d.
Proof. done. Qed.

(** [BHtml.patch] leaves [this.html] as it is. *)
Lemma BHtml_patch_keeps_html parseHTML html content a el other d b' d' :
  patch parseHTML (BHtml html content a el) other d = Ok b' d' →
  BHtml_toString b' = Some html.
Proof.
  cbn [patch]. intros H.
  apply bind_Ok in H as ([] & d1 & _ & H).
  apply bind_Ok in H as ([c e] & d2 & _ & H).
  by apply bind_Ok in H as ([] & d3 & _ & [= <- <-]).
Qed.

(** C1. An Html block created with markup ["a"], mounted, and patched
    with a successor created with markup ["b"]: the old leaf is removed
    and a new leaf is inserted before the unchanged marker, but the new
    leaf is the parse of the block's own markup ["a"], not of the
    successor's ["b"]. *)
Theorem BHtml_patch_reparses_own_markup :
  ∃ leaf marker d,
    html_patch_scenario "a" "b" container_store
      = Ok (BHtml "a" [leaf] marker (Some leaf)) d ∧
    children_of d 0 = [leaf; marker] ∧
    mapM (readback (length d) d) [leaf] = Some (text_parser "a") ∧
    text_parser "a" ≠ text_parser "b".
Proof.
  eexists _, _, _. split; [vm_compute; reflexivity|].
  split; [reflexivity|]. split; [reflexivity|]. by intros [=].
Qed.

(** C7. After the same patch with markup ["b"], serializing the block
    gives the block's own markup ["a"], and the leaves of the block read
    back as the parse of ["a"]: neither is the parse of ["b"]. *)
Theorem BHtml_patch_then_toString_own_markup :
  ∃ b leaf marker d,
    html_patch_scenario "a" "b" container_store = Ok b d ∧
    b = BHtml "a" [leaf] marker (Some leaf) ∧
    BHtml_toString b = Some "a" ∧
    mapM (readback (length d) d) [leaf] = Some (text_parser "a") ∧
    text_parser "a" ≠ text_parser "b" ∧
    Some "a" ≠ Some "b".
Proof.
  eexists _, _, _, _. split; [vm_compute; reflexivity|].
  split; [reflexivity|]. split; [reflexivity|]. split; [reflexivity|].
  split; by intros [=].
Qed.

(** C2. A mounted Multi block with two children, patched with a successor
    that has the first child only: the second child is removed from the
    tree, but the slot that is nulled is slot [0], whose child is still
    displayed, and slot [1] keeps the removed child.  The documented
    transitions leave the first child in slot [0] and null slot [1]. *)
Theorem BMulti_patch_nulls_slot_zero :
  ∃ c0 c1 e0 e1 m0 m1 d0 d c0',
    mount text_parser multi_both 0 container_store
      = Ok (BMulti [Some c0; Some c1] [Some m0; Some m1]) d0 ∧
    block_el c0 = Some e0 ∧ block_el c1 = Some e1 ∧
    patch text_parser (BMulti [Some c0; Some c1] [Some m0; Some m1])
          multi_first_only d0
      = Ok (BMulti [None; Some c1] [Some m0; Some m1]) d ∧
    parent_of d e1 = None ∧ parent_of d e0 = Some 0 ∧
    children_of d 0 = [e0; m0; m1] ∧
    forM_from
      (λ i child,
         documented_transition text_parser (Some (nth i [m0; m1] 0)) child
           (js_get [Some (leaf_node 3); None] i))
      0 [Some c0; Some c1] d0
      = Ok [Some c0'; None] d.
Proof.
  eexists _, _, _, _, _, _, _, _, _.
  split; [vm_compute; reflexivity|].
  split; [reflexivity|]. split; [reflexivity|].
  split; [vm_compute; reflexivity|].
  split; [reflexivity|]. split; [reflexivity|]. split; [reflexivity|].
  vm_compute. reflexivity.
Qed.

Section handler_claim.
Variable parseHTML : string → list DTree.

(** C4 (amended). For a Node block with handlers whose children are
    other objects: mounting registers one listener of the block for
    each [setupHandler] call of its class for index [i], and a listener
    for [i] calls the thunk of the block's own [handlers].  Patching
    with a successor that is another object registers no listener of
    the block, takes the successor's data, and leaves [handlers] as it
    is: the listener for [i] still calls the thunk the block was created
    with, whatever thunk the successor carries. *)
Theorem BNode_listeners_registered_at_build (oid : nat) (cls : NodeClass)
    (el0 : option nat) (children : option (list (option Block)))
    (anchors0 : option (list nat)) (data : option (list string))
    (hs : list (string * nat)) (i : nat) (a : option nat) (d : Dom)
    (b1 : Block) (d1 : Dom) :
  oid ∉ oids_below (default [] children) →
  mountBefore parseHTML
    (BNode oid cls el0 children anchors0 data (Some hs)) a d = Ok b1 d1 →
  registrations oid i d1 = registrations oid i d + sites cls i ∧
  listener_call b1 i = snd <$> hs !! i ∧
  ∀ other d2 b2 d3,
    oid ∉ oids other →
    patch parseHTML b1 other d2 = Ok b2 d3 →
    registrations oid i d3 = registrations oid i d2 ∧
    block_data b2 = block_data other ∧
    block_handlers b2 = Some hs ∧
    listener_call b2 i = snd <$> hs !! i.
Proof.
  intros Ho Hm.
  destruct (BNode_mountBefore_registrations parseHTML _ _ _ _ _ _ _ i _ _ _ _
              Ho Hm) as (Hcount & el & children' & anchors' & ->).
  split; [done|]. split; [done|].
  intros other d2 b2 d3 Hother Hp.
  split; [by apply (keeps_patch parseHTML oid i _ other Hother _ _ _ Hp)|].
  pose proof (patch_handlers parseHTML _ _ _ _ _ Hp) as Hh.
  cbn [block_handlers] in Hh.
  split.
  - cbn [patch] in Hp.
    apply bind_Ok in Hp as ([] & d4 & _ & Hp).
    by apply bind_Ok in Hp as (c & d5 & _ & [= <- <-]).
  - split; [done|]. unfold listener_call. by rewrite Hh.
Qed.
End handler_claim.


Section slot_claim.
Variable parseHTML : string → list DTree.

(** C8 (amended). For a Node block with [k] slots whose template is an
    element with [k] placeholders, none of them inside another:
    - the first half of [build] returns; it created [k] fresh markers,
      one per round, and the clone is the template with the [j]-th
      placeholder in document order replaced by the [j]-th marker;
    - after [mountBefore], and after [mount], the block holds [k]
      markers and [k] children;
    - [patch] with a successor of [k] slots leaves the markers as they
      are and the children array at length [k]. *)
Theorem BNode_anchors_match_slots (oid : nat) (cls : NodeClass)
    (el0 : option nat) (cs : list (option Block))
    (anchors0 : option (list nat)) (data : option (list string))
    (handlers : option (list (string * nat))) (k : nat) :
  is_TElem (static_el cls) = true →
  flat_template (static_el cls) = true →
  placeholders (static_el cls) = k → length cs = k →
  (∀ d, ∃ d',
     let el := length d in
     let clone := label (static_el cls) el in
     let ms := seq (el + tsize (static_el cls)) k in
     build_anchors cls true d = Ok (el, Some ms) d' ∧
     length (placeholder_ids clone) = k ∧ length ms = k ∧
     Rep d' (subst_all clone (placeholder_ids clone) ms)) ∧
  (∀ a d b' d',
     mountBefore parseHTML
       (BNode oid cls el0 (Some cs) anchors0 data handlers) a d
       = Ok b' d' →
     ∃ el ms cs',
       b' = BNode oid cls (Some el) (Some cs') (Some ms) data handlers ∧
       length ms = k ∧ length cs' = k) ∧
  (∀ parent d b' d',
     mount parseHTML
       (BNode oid cls el0 (Some cs) anchors0 data handlers) parent d
       = Ok b' d' →
     ∃ el ms cs',
       b' = BNode oid cls (Some el) (Some cs') (Some ms) data handlers ∧
       length ms = k ∧ length cs' = k) ∧
  (∀ el ms cs1 data1 other ncs d b' d',
     length ms = k → length cs1 = k →
     block_children other = Some ncs → length ncs = k →
     patch parseHTML (BNode oid cls el (Some cs1) (Some ms) data1 handlers)
           other d = Ok b' d' →
     ∃ cs',
       b' = BNode oid cls el (Some cs') (Some ms) (block_data other)
                  handlers ∧
       length cs' = k).
Proof.
  intros Hel Hflat Hk Hcs. split; [|split; [|split]].
  - intros d.
    destruct (build_anchors_spec cls d Hel Hflat)
      as (d' & Hb & _ & HR & _).
    exists d'. cbn zeta. rewrite Hk in Hb, HR.
    split; [done|]. split; [by rewrite length_placeholder_label|].
    split; [by rewrite length_seq|done].
  - intros a d b' d' H.
    apply BNode_mountBefore_lengths in H as (el & ms & cs' & -> & Hms & Hcs').
    exists el, ms, cs'. split; [done|]. split; congruence.
  - intros parent d b' d' H. unfold mount in H.
    apply bind_Ok in H as (anchor & d1 & _ & H).
    apply bind_Ok in H as ([] & d2 & _ & H).
    apply bind_Ok in H as (b1 & d3 & H & H').
    apply bind_Ok in H' as ([] & d4 & _ & [= <- <-]).
    apply BNode_mountBefore_lengths in H as (el & ms & cs' & -> & Hms & Hcs').
    exists el, ms, cs'. split; [done|]. split; congruence.
  - intros el ms cs1 data1 other ncs d b' d' Hms Hcs1 Hncs Hlen H.
    apply (BNode_patch_lengths parseHTML _ _ _ _ _ _ _ _ ncs) in H
      as (cs' & -> & Hcs'); [|done|lia].
    exists cs'. split; [done|]. congruence.
Qed.
End slot_claim.


(** * Further properties of the block operations *)

Section remove_total.

(** [remove] either detaches the nodes of [removed_nodes], in that order,
    or throws a [TypeError]; which of the two depends on the block alone,
    not on the store. *)
Lemma remove_outcome (b : Block) :
  ∀ d, remove b d = if removable b then Ok () (detach_all (removed_nodes b) d)
                    else Throw TypeError.
Proof.
  induction b as [html content a el|el|oid cls el children anchors data handlers _
                 |cs anchors IH|cs a _] using Block_nested_ind; intros d.
  - cbn [remove removable removed_nodes].
    rewrite (bind_eq _ _ _ _ _ (iterM_removeNode_Ok content d)).
    by rewrite detach_all_app.
  - done.
  - cbn [remove removable removed_nodes]. by destruct el.
  - cbn [remove removable removed_nodes].
    generalize 0 as i. revert d.
    induction IH as [|c cs Hc _ IHcs]; intros d i; [done|].
    rewrite forM_from_cons.
    destruct c as [c|]; [|done].
    cbn [from_option] in Hc.
    unfold mbind, M_bind in IHcs |- *. rewrite Hc.
    destruct (removable c); [|done].
    destruct (js_get anchors i) as [m|] eqn:Hm; [|done].
    rewrite bool_decide_true by done. cbn [andb].
    unfold removeNode, modify.
    specialize (IHcs (detach m (detach_all (removed_nodes c) d)) (S i)).
    destruct (forM_from _ (S i) cs _) as [r d1|e] eqn:E.
    + destruct (_ cs (S i)); [|done]. injection IHcs as ->.
      cbn. by rewrite !detach_all_app.
    + destruct (_ cs (S i)); [done|]. by injection IHcs as ->.
  - done.
Qed.
End remove_total.

Lemma detach_all_frame l :
  ∀ d, length (detach_all l d) = length d ∧
       (∀ n, nkind <$> detach_all l d !! n = nkind <$> d !! n) ∧
       (∀ n, text_of (detach_all l d) n = text_of d n) ∧
       all_listeners (detach_all l d) = all_listeners d.
Proof.
  induction l as [|e l IH]; intros d; [done|].
  change (detach_all (e :: l) d) with (detach_all l (detach e d)).
  destruct (IH (detach e d)) as (Hl & Hk & Ht & Hls).
  split; [by rewrite Hl, length_detach|].
  split; [intros n; by rewrite Hk, kind_detach|].
  split; [intros n; by rewrite Ht, text_of_detach|].
  by rewrite Hls, all_listeners_detach.
Qed.

(** X1. [remove] on any block, in any store: when the block is removable
    (every Node block has its element, every slot of a Multi block holds
    a block and has its marker) the call returns, otherwise it throws a
    [TypeError]; which of the two happens depends on the block alone.
    When it returns it has detached the nodes of [removed_nodes], in that
    order: they end up without parent, every other node keeps its parent,
    and no node is created or changes kind or text, no listener is
    dropped. *)
Theorem remove_returns_iff_removable (b : Block) (d : Dom) :
  let d' := detach_all (removed_nodes b) d in
  remove b d = (if removable b then Ok () d' else Throw TypeError) ∧
  ((∃ d1, remove b d = Ok () d1) ↔ removable b = true) ∧
  (∀ e, e ∈ removed_nodes b → parent_of d' e = None) ∧
  (∀ n, n ∉ removed_nodes b → parent_of d' n = parent_of d n) ∧
  length d' = length d ∧
  (∀ n, nkind <$> d' !! n = nkind <$> d !! n) ∧
  (∀ n, text_of d' n = text_of d n) ∧
  all_listeners d' = all_listeners d.
Proof.
  cbv zeta. split; [apply remove_outcome|].
  split.
  { rewrite remove_outcome. destruct (removable b); split; eauto.
    - by intros [d' ?].
    - done. }
  split; [intros e; apply parent_of_detach_all_in|].
  split; [intros n; apply parent_of_detach_all|].
  apply detach_all_frame.
Qed.

Lemma js_set_middle {A} (pre : list (option A)) x l v :
  js_set (pre ++ x :: l) (length pre) v = pre ++ v :: l.
Proof.
  unfold js_set. rewrite decide_True by (rewrite length_app; simpl; lia).
  by rewrite insert_app_r_alt, Nat.sub_diag by lia.
Qed.

Section multi_patch.
Variable parseHTML : string → list DTree.

Lemma multi_rounds ms other ncs l :
  block_children other = Some ncs →
  ∀ pre d,
    (∀ j c, l !! j = Some (Some c) → is_Some (js_get ncs (length pre + j))) →
    foldM_from (multi_slot parseHTML (patch parseHTML) ms other)
               (length pre) l (pre ++ l) d
    = (r ← forM_from
             (λ i child,
                documented_transition parseHTML (js_get ms i) child
                                      (js_get ncs i)) (length pre) l;
       mret (pre ++ r)) d.
Proof.
  intros Hncs. induction l as [|x l IH]; intros pre d Hl; [done|].
  rewrite forM_from_cons. cbn [foldM_from].
  assert (∀ v, S (length pre) = length (pre ++ [v])) as Hlen
    by (intros v; rewrite length_app; simpl; lia).
  assert (∀ v : option Block,
            ∀ j c, l !! j = Some (Some c) →
                   is_Some (js_get ncs (length (pre ++ [v]) + j))) as Hl'.
  { intros v j c Hj. rewrite <- Hlen.
    replace (S (length pre) + j) with (length pre + S j) by lia.
    by apply (Hl (S j) c). }
  assert (∀ v d1,
            foldM_from (multi_slot parseHTML (patch parseHTML) ms other)
                       (S (length pre)) l (pre ++ v :: l) d1
            = (r ← forM_from
                     (λ i child,
                        documented_transition parseHTML (js_get ms i) child
                                              (js_get ncs i)) (S (length pre)) l;
               mret (pre ++ v :: r)) d1) as IH'.
  { intros v d1. specialize (IH (pre ++ [v]) d1 (Hl' v)).
    rewrite <- (assoc_L (++)) in IH. cbn in IH.
    rewrite <- Hlen in IH. rewrite IH.
    apply bind_cong_r. intros r d2 _. cbn. by rewrite <- (assoc_L (++)). }
  clear IH Hl'.
  set (F := foldM_from _ (S (length pre)) l) in *.
  set (G := forM_from _ (S (length pre)) l) in *.
  unfold multi_slot, documented_transition. rewrite Hncs.
  destruct x as [c|], (js_get ncs (length pre)) as [nb|] eqn:Hnb.
  - mnorm. mrun (patch parseHTML c nb) d; [|done].
    mnorm. rewrite js_set_middle, IH'. by mnorm.
  - specialize (Hl 0 c eq_refl). rewrite Nat.add_0_r, Hnb in Hl.
    by destruct Hl.
  - mnorm.
    mrun (mountBefore parseHTML nb (js_get ms (length pre))) d; [|done].
    mnorm. rewrite js_set_middle, IH'. by mnorm.
  - mnorm. rewrite IH'. by mnorm.
Qed.

End multi_patch.

Lemma forM_from_app {A B} (f : nat → A → M B) l1 l2 :
  ∀ i d,
    forM_from f i (l1 ++ l2) d =
    (r1 ← forM_from f i l1;
     r2 ← forM_from f (i + length l1) l2;
     mret (r1 ++ r2)) d.
Proof.
  induction l1 as [|x l1 IH]; intros i d.
  - cbn [app length forM_from]. mnorm. rewrite Nat.add_0_r.
    unfold mbind, M_bind. by destruct (forM_from f i l2 d).
  - cbn [app length]. rewrite !forM_from_cons. mnorm.
    apply bind_cong_r. intros y d1 _.
    rewrite (bind_cong_l _ _ _ _ (IH (S i) d1)). mnorm.
    replace (S i + length l1) with (i + S (length l1)) by lia.
    apply bind_cong_r. intros r1 d2 _. mnorm. done.
Qed.

Lemma forM_from_skip {A} (f : nat → A → M A) l :
  ∀ i d, (∀ j x, l !! j = Some x → f (i + j) x = mret x) →
         forM_from f i l d = Ok l d.
Proof.
  induction l as [|x l IH]; intros i d H; [done|].
  rewrite forM_from_cons.
  pose proof (H 0 x eq_refl) as H0. rewrite Nat.add_0_r in H0.
  rewrite H0. mnorm.
  assert (forM_from f (S i) l d = Ok l d) as E.
  { apply IH. intros j y Hj.
    replace (S i + j) with (i + S j) by lia. by apply H. }
  by rewrite (bind_eq _ _ _ _ _ E).
Qed.

Section node_patch_bounds.
Variable parseHTML : string → list DTree.

(** X3. [BNode.patch] runs its loop up to the successor's number of slots.
    With a successor of fewer slots, the slots it has go through the
    documented transition, in index order, and the slots past them are
    left as they are: their children are neither patched nor removed. *)
Theorem BNode_patch_fewer_slots (oid : nat) (cls : NodeClass)
    (el : option nat) (cs : list (option Block)) (ms : list nat)
    (data : option (list string)) (handlers : option (list (string * nat)))
    (other : Block) (ncs : list (option Block)) (d : Dom) :
  block_children other = Some ncs →
  length ncs ≤ length cs →
  patch parseHTML (BNode oid cls el (Some cs) (Some ms) data handlers) other d
  = (update cls el (block_data other);;
     cs1 ← forM_from
             (λ i child,
                documented_transition parseHTML (ms !! i) child
                                      (js_get ncs i))
             0 (take (length ncs) cs);
     mret (BNode oid cls el (Some (cs1 ++ drop (length ncs) cs)) (Some ms)
                 (block_data other) handlers)) d.
Proof.
  intros Hncs Hlen. cbn [patch]. rewrite Hncs.
  apply bind_cong_r. intros [] d1 _. mnorm.
  rewrite (drop_ge ncs) by done. cbn [node_extend].
  rewrite <- (take_drop (length ncs) cs) at 1.
  rewrite (bind_cong_l _ _ _ _ (forM_from_app _ _ _ 0 d1)). mnorm.
  assert (length (take (length ncs) cs) = length ncs) as Ht
    by (rewrite length_take; lia).
  match goal with
  | |- (forM_from ?f 0 ?l ≫= _) d1 = _ =>
      assert (forM_from f 0 l d1
              = forM_from
                  (λ i child, documented_transition parseHTML (ms !! i) child
                                                    (js_get ncs i)) 0 l d1)
        as E1
  end.
  { apply forM_from_ext. intros j x dd Hj.
    apply lookup_lt_Some in Hj. rewrite Ht in Hj.
    cbn [Nat.add]. rewrite decide_True by lia.
    apply node_slot_documented. }
  rewrite (bind_cong_l _ _ _ _ E1).
  apply bind_cong_r. intros r1 d2 _. mnorm.
  match goal with
  | |- (forM_from ?f ?i ?l ≫= _) d2 = _ =>
      assert (forM_from f i l d2 = Ok l d2) as E2
  end.
  { apply forM_from_skip. intros j x _.
    rewrite decide_False; [done|]. rewrite Ht. lia. }
  by rewrite (bind_eq _ _ _ _ _ E2).
Qed.
End node_patch_bounds.

Lemma attr_set_idem a v l : attr_set a v (attr_set a v l) = attr_set a v l.
Proof.
  induction l as [|[a' v'] l IH]; simpl.
  - by rewrite decide_True.
  - destruct (decide (a' = a)); simpl.
    + by rewrite decide_True.
    + rewrite decide_False by done. by rewrite IH.
Qed.

Lemma classes_of_alter f d n m :
  (∀ x, nclasses (f x) = nclasses x) →
  classes_of (alter f n d) m = classes_of d m.
Proof.
  intros Hf. unfold classes_of.
  pose proof (lookup_alter_proj nclasses f d n m Hf) as H.
  destruct (alter f n d !! m), (d !! m); simplify_eq/=; done.
Qed.

Lemma truthy_Some c : truthy c = true → c = Some (default EmptyString c).
Proof. by destruct c. Qed.

(** X4. [updateClass] only ever adds: a falsy class leaves the store as it
    is; otherwise, when the call returns, every class a node had it still
    has, the only class that is new is the given one on the given element,
    and a second call with the same class changes nothing. *)
Theorem updateClass_only_adds (elem : option nat) (c : option string)
    (d : Dom) :
  (truthy c = false → updateClass elem c d = Ok () d) ∧
  (∀ d', updateClass elem c d = Ok () d' →
     (∀ n k, k ∈ classes_of d n → k ∈ classes_of d' n) ∧
     (∀ n k, k ∈ classes_of d' n →
             k ∈ classes_of d n ∨ (elem = Some n ∧ c = Some k)) ∧
     updateClass elem c d' = Ok () d').
Proof.
  unfold updateClass. split; [by intros ->|].
  destruct (truthy c) eqn:Hc.
  2: { intros d' [= <-]. split; [done|]. split; [by left|done]. }
  destruct c as [k0|]; [|discriminate Hc].
  change (default EmptyString (Some k0)) with k0. clear Hc.
  intros d'. unfold classList_add. destruct elem as [n0|]; [|done].
  destruct (is_element d n0) eqn:Hel; [|done].
  destruct (has_space k0); [done|]. intros [= <-].
  set (f := λ x : DomNode,
              let cl := if bool_decide (k0 ∈ nclasses x) then nclasses x
                        else nclasses x ++ [k0] in
              with_attrs (attr_set "class" (join_spaces cl) (nattrs x))
                         (with_classes cl x)).
  assert (∀ n, classes_of (alter f n0 d) n
          = if decide (n = n0)
            then (if bool_decide (k0 ∈ classes_of d n) then classes_of d n
                  else classes_of d n ++ [k0])
            else classes_of d n) as Hcl.
  { intros n. unfold classes_of. rewrite list_lookup_alter.
    destruct (decide (n = n0)) as [->|Hne].
    - rewrite decide_True by done.
      destruct (d !! n0) as [x|] eqn:Hx; simpl.
      + destruct (bool_decide (k0 ∈ nclasses x)); done.
      + unfold is_element in Hel. by rewrite Hx in Hel.
    - by rewrite decide_False by done. }
  split; [|split].
  - intros n k Hk. rewrite Hcl. destruct (decide (n = n0)); [|done].
    destruct (bool_decide _); [done|]. apply elem_of_app. by left.
  - intros n k. rewrite Hcl. destruct (decide (n = n0)) as [->|]; [|by left].
    destruct (bool_decide _); [by left|].
    intros [?|Hin%list_elem_of_singleton]%elem_of_app; [by left|].
    right. by rewrite Hin.
  - rewrite is_element_alter by done.
    rewrite Hel. f_equal. apply list_eq. intros i.
    rewrite list_lookup_alter.
    destruct (decide (n0 = i)) as [->|]; [|done].
    rewrite list_lookup_alter, decide_True by done.
    destruct (d !! i) as [x|]; [|done]. simpl. f_equal.
    unfold f. cbn [nclasses nattrs with_attrs with_classes].
    set (cl := if bool_decide (k0 ∈ nclasses x) then nclasses x
               else nclasses x ++ [k0]).
    assert (k0 ∈ cl) as Hin.
    { unfold cl. destruct (bool_decide (k0 ∈ nclasses x)) eqn:E.
      - by apply bool_decide_eq_true in E.
      - apply elem_of_app. right. by apply list_elem_of_singleton. }
    rewrite bool_decide_true by done.
    by rewrite attr_set_idem.
Qed.







Section text_toString.
Variable parseHTML : string → list DTree.

(** X6. A Text block serializes to the text it was created with, without
    being mounted; after [patch] with another Text block it serializes to
    the text of that block, which is untouched. *)
Theorem BText_toString_round_trip (s s2 : string) (d : Dom) :
  ∃ el el2 d2 d3,
    (T ← new_BText s; T2 ← new_BText s2; mret (T, T2)) d
      = Ok (BText el, BText el2) d2 ∧
    BText_toString (BText el) d2 = Some s ∧
    patch parseHTML (BText el) (BText el2) d2 = Ok (BText el) d3 ∧
    BText_toString (BText el) d3 = Some s2 ∧
    BText_toString (BText el2) d3 = Some s2.
Proof.
  set (x1 := new_node KText None s [] []).
  set (x2 := new_node KText None s2 [] []).
  exists (length d), (S (length d)), (d ++ [x1; x2]),
         (alter (with_text s2) (length d) (d ++ [x1; x2])).
  assert ((d ++ [x1; x2]) !! length d = Some x1) as H1
    by (by apply list_lookup_middle).
  assert ((d ++ [x1; x2]) !! S (length d) = Some x2) as H2.
  { change (d ++ [x1; x2]) with (d ++ [x1] ++ [x2]).
    rewrite (assoc_L (++)). apply list_lookup_middle.
    rewrite length_app. simpl. lia. }
  split.
  { unfold new_BText, createTextNode, alloc, mbind, M_bind, mret, M_ret.
    cbn. rewrite length_app. cbn. rewrite Nat.add_1_r.
    by rewrite <- (assoc_L (++)). }
  split. { cbn. by rewrite (textContent_text _ _ _ H1). }
  split. { by rewrite (BText_patch_eq parseHTML _ _ _ _ H2). }
  cbn [BText_toString]. rewrite length_alter. split; f_equal.
  - rewrite <- (length_alter (with_text s2) (d ++ [x1; x2]) (length d)).
    erewrite textContent_text;
      [|by rewrite list_lookup_alter, decide_True, H1|done].
    done.
  - rewrite <- (length_alter (with_text s2) (d ++ [x1; x2]) (length d)).
    erewrite textContent_text;
      [|by rewrite list_lookup_alter_ne, H2 by lia|done].
    done.
Qed.
End text_toString.

Section closed_store.
Implicit Types (d : Dom).

Lemma closed_lookup d n x :
  closed d = true → d !! n = Some x →
  (∀ q, nparent x = Some q → q < length d) ∧
  (∀ c, c ∈ nchildren x → c < length d).
Proof.
  unfold closed. rewrite forallb_forall. intros H Hn.
  apply list_elem_of_lookup_2, list_elem_of_In, H in Hn.
  apply andb_true_iff in Hn as [Hp Hc]. split.
  - intros q Hq. rewrite Hq in Hp. by apply bool_decide_eq_true in Hp.
  - intros c Hin. rewrite forallb_forall in Hc.
    apply list_elem_of_In, Hc in Hin. by apply bool_decide_eq_true in Hin.
Qed.

Lemma closed_parent d n q :
  closed d = true → parent_of d n = Some q → q < length d.
Proof.
  intros Hc. unfold parent_of. destruct (d !! n) as [x|] eqn:Hn; [|done].
  simpl. intros Hq. by apply (proj1 (closed_lookup d n x Hc Hn)).
Qed.

Lemma closed_children d n c :
  closed d = true → c ∈ children_of d n → c < length d.
Proof.
  intros Hc. unfold children_of. destruct (d !! n) as [x|] eqn:Hn; simpl.
  - apply (proj2 (closed_lookup d n x Hc Hn)).
  - by intros ?%elem_of_nil.
Qed.

Lemma closed_up d : closed d = true → up_closed (length d) d.
Proof. intros Hc n q _. by apply closed_parent. Qed.

Lemma up_closed_app n0 d ext :
  n0 ≤ length d → up_closed n0 d → up_closed n0 (d ++ ext).
Proof.
  intros Hle H n q Hn. rewrite parent_of_app_lt by lia. by apply H.
Qed.

Lemma ancestor_fresh n0 d e :
  up_closed n0 d → n0 ≤ e →
  ∀ fuel x, x < n0 → inclusive_ancestor fuel d e x = false.
Proof.
  intros Hup He. induction fuel as [|f IH]; intros x Hx; simpl.
  - rewrite bool_decide_false by lia. done.
  - rewrite bool_decide_false by lia. simpl.
    destruct (parent_of d x) as [q|] eqn:Hq; [|done].
    apply IH. by apply (Hup x).
Qed.

Lemma hierarchy_ok_fresh n0 d e p :
  up_closed n0 d → n0 ≤ e → p < n0 → hierarchy_violation d e p = false.
Proof.
  intros Hup He Hp. unfold hierarchy_violation.
  rewrite (ancestor_fresh n0) by done. apply andb_false_r.
Qed.

(** [a.before(x)] for a node [x] that is a leaf or younger than the
    ancestors of [a], and is not a child of the parent of [a] yet. *)
Lemma before_step n0 d a x p pre suf :
  up_closed n0 d → p < n0 → n0 ≤ length d →
  parent_of d a = Some p →
  is_element d x = false ∨ n0 ≤ x →
  x < length d → x ≠ a → parent_of d x ≠ Some p →
  children_of d p = pre ++ a :: suf → a ∉ pre →
  ∃ d',
    before (Some a) x d = Ok () d' ∧
    length d' = length d ∧
    children_of d' p = pre ++ x :: a :: suf ∧
    parent_of d' x = Some p ∧
    (∀ n, n ≠ x → parent_of d' n = parent_of d n) ∧
    (∀ m, m ≠ p →
          children_of d' m =
          if decide (parent_of d x = Some m)
          then filter (λ y, y ≠ x) (children_of d m) else children_of d m) ∧
    (∀ n, nkind <$> d' !! n = nkind <$> d !! n) ∧
    (∀ n, text_of d' n = text_of d n) ∧
    all_listeners d' = all_listeners d ∧
    up_closed n0 d'.
Proof.
  intros Hup Hp Hn0 Ha Hx Hlt Hne Hxp Hch Hpre.
  exists (place_before p a x d).
  assert (hierarchy_violation d x p = false) as Hh.
  { destruct Hx as [Hx|Hx]; [by apply hierarchy_ok_leaf|].
    by apply (hierarchy_ok_fresh n0). }
  split. { unfold before. rewrite Ha, Hh. by rewrite decide_False. }
  split; [apply length_place_before|].
  split. { rewrite children_of_place_before by lia.
           rewrite children_of_detach, decide_False by done.
           rewrite Hch. by apply insert_before_split. }
  split. { rewrite parent_of_place_before, decide_True by done.
           by rewrite decide_True. }
  split. { intros n Hn. rewrite parent_of_place_before.
           by rewrite decide_False. }
  split. { intros m Hm. unfold place_before.
           rewrite children_of_set_parent, children_of_set_children.
           rewrite decide_False by (by intros [? _]).
           apply children_of_detach. }
  split; [apply kind_place_before|].
  split; [apply text_of_place_before|].
  split; [apply all_listeners_place_before|].
  intros n q Hn. rewrite parent_of_place_before.
  destruct (decide (x = n)) as [->|].
  - destruct (decide _); [|done]. by intros [= <-].
  - by apply Hup.
Qed.

(** [for (let x of l) a.before(x)]: the nodes of [l] end up before [a],
    in the order of [l]. *)
Lemma before_run n0 a p l :
  ∀ d pre suf,
    up_closed n0 d → p < n0 → n0 ≤ length d →
    parent_of d a = Some p →
    NoDup l → a ∉ l →
    (∀ x, x ∈ l → (is_element d x = false ∨ n0 ≤ x) ∧ x < length d
                   ∧ parent_of d x ≠ Some p) →
    children_of d p = pre ++ a :: suf → a ∉ pre →
    ∃ d',
      iterM (before (Some a)) l d = Ok () d' ∧
      length d' = length d ∧
      children_of d' p = pre ++ l ++ a :: suf ∧
      (∀ x, x ∈ l → parent_of d' x = Some p) ∧
      (∀ n, n ∉ l → parent_of d' n = parent_of d n) ∧
      (∀ m, m ≠ p → (∀ x, x ∈ l → parent_of d x ≠ Some m) →
            children_of d' m = children_of d m) ∧
      (∀ n, nkind <$> d' !! n = nkind <$> d !! n) ∧
      (∀ n, text_of d' n = text_of d n) ∧
      all_listeners d' = all_listeners d ∧
      up_closed n0 d'.
Proof.
  induction l as [|x l IH]; intros d pre suf Hup Hp Hn0 Ha Hnd Hal Hl Hch Hpre.
  - exists d. split; [done|]. split; [done|]. split; [done|].
    split; [by intros x ?%elem_of_nil|]. repeat split; done.
  - apply NoDup_cons in Hnd as [Hxl Hnd].
    apply not_elem_of_cons in Hal as [Hax Hal].
    destruct (Hl x) as (Hx1 & Hx2 & Hx3); [apply elem_of_cons; by left|].
    destruct (before_step n0 d a x p pre suf) as
      (d1 & Hb & Hlen & Hch1 & Hpx & Hpar & Hoth & Hk & Ht & Hls & Hup1);
      try done.
    destruct (IH d1 (pre ++ [x]) suf) as
      (d' & Hb' & Hlen' & Hch' & Hpl & Hpar' & Hoth' & Hk' & Ht' & Hls' & Hup');
      try done.
    + lia.
    + by rewrite Hpar.
    + intros y Hy. destruct (Hl y) as (Hy1 & Hy2 & Hy3);
        [apply elem_of_cons; by right|].
      assert (y ≠ x) as Hyx by (by intros ->).
      split; [|split].
      * destruct Hy1 as [Hy1|Hy1]; [left|by right].
        by rewrite (is_element_kind d).
      * lia.
      * by rewrite Hpar.
    + by rewrite <- (assoc_L (++)).
    + intros [?|?%list_elem_of_singleton]%elem_of_app; done.
    + exists d'. split.
      { cbn [iterM]. by rewrite (bind_eq _ _ _ _ _ Hb). }
      split; [lia|].
      split. { rewrite Hch'. by rewrite <- (assoc_L (++)). }
      split. { intros y [->|Hy]%elem_of_cons; [|by apply Hpl].
               by rewrite Hpar'. }
      split. { intros n [Hnx Hn]%not_elem_of_cons.
               by rewrite Hpar', Hpar. }
      split. { intros m Hm Hall. rewrite Hoth'; [|done|].
               - rewrite Hoth by done. rewrite decide_False; [done|].
                 apply Hall, elem_of_cons. by left.
               - intros y Hy. rewrite Hpar by (by intros ->).
                 apply Hall, elem_of_cons. by right. }
      split. { intros n. by rewrite Hk', Hk. }
      split. { intros n. by rewrite Ht', Ht. }
      split; [by rewrite Hls', Hls|done].
Qed.
End closed_store.

Section html_build.
Variable parseHTML : string → list DTree.

Lemma roots_label_kids ks :
  ∀ n, Forall (λ c, n ≤ c < n + list_sum (tsize <$> ks))
              (root_id <$> label_kids ks n)
       ∧ NoDup (root_id <$> label_kids ks n)
       ∧ length (root_id <$> label_kids ks n) = length ks.
Proof.
  induction ks as [|k ks IH]; intros n.
  - split; [done|]. split; [apply NoDup_nil_2|done].
  - destruct (IH (n + tsize k)) as (Hr & Hnd & Hlen).
    cbn [label_kids fmap list_fmap]. rewrite root_id_label.
    pose proof (tsize_pos k) as Hpos.
    change (list_sum (tsize <$> k :: ks))
      with (tsize k + list_sum (tsize <$> ks)).
    split; [|split].
    + apply Forall_cons. split; [change (list_sum (tsize k :: (tsize <$> ks))) with (tsize k + list_sum (tsize <$> ks)); lia|].
      eapply Forall_impl; [exact Hr|]. intros c Hc. cbv beta in *.
      change (list_sum (tsize k :: (tsize <$> ks))) with (tsize k + list_sum (tsize <$> ks)). lia.
    + apply NoDup_cons. split; [|done]. intros Hin.
      apply (proj1 (Forall_forall _ _) Hr) in Hin. lia.
    + cbn. by rewrite <- Hlen.
Qed.

(** [BHtml.build]: a fresh [div] and, below it, fresh copies of the parsed
    trees; [content] is the list of their roots and [el] the first. *)
Lemma BHtml_build_spec html d :
  ∃ ext content,
    BHtml_build parseHTML html d = Ok (content, content !! 0) (d ++ ext) ∧
    length content = length (parseHTML html) ∧
    NoDup content ∧
    (∀ c, c ∈ content →
          length d < c < length (d ++ ext) ∧
          parent_of (d ++ ext) c = Some (length d)) ∧
    ((λ c, nkind <$> (d ++ ext) !! c) <$> content
     = (λ t, Some (dkind t)) <$> parseHTML html) ∧
    all_listeners (d ++ ext) = all_listeners d.
Proof.
  set (ks := parseHTML html).
  set (divn := new_node (KElement "div") None EmptyString [] []).
  destruct (instantiate_all_spec ks) with (p := Some (length d))
    (d := d ++ [divn]) as (e2 & Hi & Hl & HR & HL).
  { apply Forall_forall. intros t _. apply instantiate_spec. }
  rewrite length_app in Hi, HR. cbn [length] in Hi, HR.
  rewrite Nat.add_1_r in Hi, HR.
  set (roots := root_id <$> label_kids ks (S (length d))) in *.
  assert (set_children (length d) roots ((d ++ [divn]) ++ e2) =
          d ++ with_children roots divn :: e2) as Hset.
  { unfold set_children. rewrite <- app_assoc.
    rewrite <- (Nat.add_0_r (length d)) at 1. by rewrite alter_app_r. }
  destruct (roots_label_kids ks (S (length d))) as (Hr & Hnd & Hlen).
  fold roots in Hr, Hnd, Hlen.
  exists (with_children roots divn :: e2), roots.
  split.
  { unfold BHtml_build, createElement, alloc. fold divn. fold ks.
    unfold mbind, M_bind at 1. unfold set_innerHTML.
    unfold mbind, M_bind at 1.
    rewrite children_of_app, decide_True by done. cbn [nchildren divn new_node foldr].
    rewrite Hi, Hset. unfold gets, mbind, M_bind, mret, M_ret.
    assert (children_of (d ++ with_children roots divn :: e2) (length d)
            = roots) as ->.
    { unfold children_of. by rewrite list_lookup_middle. }
    done. }
  split; [done|]. split; [done|].
  assert (length (d ++ with_children roots divn :: e2)
          = S (length d) + list_sum (tsize <$> ks)) as Hlen'
    by (rewrite length_app; cbn; lia).
  split; [|split].
  - intros c Hc. rewrite Hlen'.
    pose proof (proj1 (Forall_forall _ _) Hr c Hc) as Hrc.
    cbv beta in Hrc. split; [lia|].
    apply list_elem_of_fmap in Hc as (T & -> & HT).
    apply (proj1 (Forall_forall _ _) HR) in HT as [HpT _].
    rewrite <- Hset, parent_of_set_children. done.
  - rewrite <- Hset.
    assert (Forall (λ T, nkind <$> set_children (length d) roots
                            ((d ++ [divn]) ++ e2) !! root_id T
                         = Some (root_kind T)) (label_kids ks (S (length d))))
      as Hk.
    { apply Forall_forall. intros T HT.
      apply (proj1 (Forall_forall _ _) HR) in HT as [_ HRT].
      unfold set_children. rewrite kind_alter by done.
      destruct T as [n k kids]. apply Rep_eq in HRT as [HkT _]. done. }
    generalize (set_children (length d) roots ((d ++ [divn]) ++ e2)) Hk.
    unfold roots. clear. generalize (S (length d)).
    induction ks as [|k ks IH]; intros n d' Hk; [done|].
    cbn [label_kids] in Hk. apply Forall_cons in Hk as [Hk1 Hk2].
    cbn [label_kids fmap list_fmap]. f_equal; [|by apply IH].
    rewrite Hk1. by rewrite label_eq.
  - rewrite <- Hset. unfold set_children.
    rewrite all_listeners_alter by done.
    rewrite !all_listeners_app. unfold all_listeners at 2 3.
    rewrite HL. cbn. by rewrite !app_nil_r.
Qed.
End html_build.

Section html_mount.
Variable parseHTML : string → list DTree.

(** [BHtml.mountBefore] before a marker [t] under [p], for a block whose
    own marker [a] is a detached leaf. *)
Lemma BHtml_mountBefore_spec n0 html content0 a el0 t p d pre suf :
  up_closed n0 d → p < n0 → n0 ≤ length d → t < length d →
  parent_of d t = Some p → children_of d p = pre ++ t :: suf → t ∉ pre →
  is_element d a = false → a < length d → a ≠ t →
  parent_of d a = None → a ∉ children_of d p →
  ∃ content d',
    mountBefore parseHTML (BHtml html content0 a el0) (Some t) d
      = Ok (BHtml html content a (content !! 0)) d' ∧
    length content = length (parseHTML html) ∧
    NoDup content ∧
    (∀ c, c ∈ content → length d < c < length d') ∧
    children_of d' p = pre ++ content ++ a :: t :: suf ∧
    (∀ c, c ∈ content → parent_of d' c = Some p) ∧
    parent_of d' a = Some p ∧
    (∀ n, n < length d → n ≠ a → parent_of d' n = parent_of d n) ∧
    (∀ m, m < length d → m ≠ p → children_of d' m = children_of d m) ∧
    ((λ c, nkind <$> d' !! c) <$> content
     = (λ t, Some (dkind t)) <$> parseHTML html) ∧
    (∀ n, n < length d → nkind <$> d' !! n = nkind <$> d !! n) ∧
    (∀ n, n < length d → text_of d' n = text_of d n) ∧
    all_listeners d' = all_listeners d ∧
    up_closed n0 d'.
Proof.
  intros Hup Hp Hn0 Htlt Ht Hch Hpre Hael Halt Hat Hap Hach.
  destruct (BHtml_build_spec parseHTML html d)
    as (ext & content & Hb & Hlen & Hnd & Hc & Hk & Hls).
  set (d1 := d ++ ext) in *.
  assert (length d ≤ length d1) as Hle
    by (unfold d1; rewrite length_app; lia).
  assert (up_closed n0 d1) as Hup1 by (by apply up_closed_app).
  assert (∀ n, n < length d → d1 !! n = d !! n) as Hold
    by (intros n Hn; unfold d1; by apply lookup_app_l).
  assert (∀ n, n < length d → parent_of d1 n = parent_of d n) as Hpold
    by (intros n Hn; unfold parent_of; by rewrite Hold).
  assert (∀ n, n < length d → children_of d1 n = children_of d n) as Hcold
    by (intros n Hn; unfold children_of; by rewrite Hold).
  assert (p < length d) as Hpl by lia.
  destruct (before_step n0 d1 t a p pre suf)
    as (d2 & Hb2 & Hlen2 & Hch2 & Hpa2 & Hpar2 & Hoth2 & Hk2 & Htx2 & Hls2 & Hup2).
  { done. } { done. } { lia. }
  { by rewrite Hpold. }
  { left. unfold is_element. by rewrite Hold. }
  { lia. } { done. }
  { by rewrite Hpold, Hap. }
  { by rewrite Hcold. } { done. }
  destruct (before_run n0 a p content d2 pre (t :: suf))
    as (d3 & Hb3 & Hlen3 & Hch3 & Hpc3 & Hpar3 & Hoth3 & Hk3 & Htx3 & Hls3 & Hup3).
  { done. } { done. } { lia. } { done. } { done. }
  { intros Hin. apply Hc in Hin. lia. }
  { intros c Hin. destruct (Hc c Hin) as [Hrange Hpc].
    split; [right; lia|]. split; [lia|].
    rewrite Hpar2 by lia. rewrite Hpc. intros [= Heq]. lia. }
  { done. }
  { intros Hin. apply Hach. rewrite Hch. apply elem_of_app. by left. }
  exists content, d3. split.
  { cbn [mountBefore]. rewrite (bind_eq _ _ _ _ _ Hb). cbv beta iota.
    rewrite (bind_eq _ _ _ _ _ Hb2). by rewrite (bind_eq _ _ _ _ _ Hb3). }
  split; [done|]. split; [done|].
  split. { intros c Hin. apply Hc in Hin. lia. }
  split; [done|]. split; [done|].
  split. { rewrite Hpar3; [done|]. intros Hin. apply Hc in Hin. lia. }
  split. { intros n Hn Hna. rewrite Hpar3, Hpar2, Hpold; try done.
           intros Hin. apply Hc in Hin. lia. }
  split. { intros m Hm Hmp. rewrite Hoth3; [|done|].
           - rewrite Hoth2 by done. rewrite Hpold, Hap by done.
             rewrite decide_False by done. by apply Hcold.
           - intros c Hin. destruct (Hc c Hin) as [Hrange Hpc].
             rewrite Hpar2 by lia. rewrite Hpc. intros [= Heq]. lia. }
  split. { rewrite <- Hk. apply list_fmap_ext. intros i c _.
           by rewrite Hk3, Hk2. }
  split. { intros n Hn. by rewrite Hk3, Hk2, Hold. }
  split. { intros n Hn. rewrite Htx3, Htx2. unfold text_of. by rewrite Hold. }
  split; [by rewrite Hls3, Hls2|done].
Qed.
End html_mount.

Section mount_marker.
Implicit Types (d : Dom).

(** The first two statements of [Block.mount]: a fresh marker is appended
    to the container. *)
Lemma append_marker d parent :
  parent < length d →
  ∃ dC,
    appendChild parent (length d)
      (d ++ [new_node KText None EmptyString [] []]) = Ok () dC ∧
    length dC = S (length d) ∧
    parent_of dC (length d) = Some parent ∧
    children_of dC parent = children_of d parent ++ [length d] ∧
    (∀ n, n ≠ length d → parent_of dC n = parent_of d n) ∧
    (∀ m, m ≠ parent → m < length d → children_of dC m = children_of d m) ∧
    (∀ n, n < length d → nkind <$> dC !! n = nkind <$> d !! n) ∧
    is_element dC (length d) = false ∧
    (∀ n, n < length d → text_of dC n = text_of d n) ∧
    all_listeners dC = all_listeners d.
Proof.
  intros Hp. set (leaf := new_node KText None EmptyString [] []).
  set (t := length d). set (d1 := d ++ [leaf]).
  assert (is_element d1 t = false) as Hleaf.
  { unfold d1, t. by rewrite is_element_app, decide_True. }
  assert (parent_of d1 t = None) as Hpt.
  { unfold d1, t. by rewrite parent_of_app, decide_True. }
  assert (length d1 = S (length d)) as Hlen
    by (unfold d1; rewrite length_app; cbn; lia).
  eexists. split.
  { rewrite appendChild_leaf by done. by rewrite detach_orphan. }
  split; [by rewrite length_set_parent, length_set_children|].
  split.
  { rewrite parent_of_set_parent, decide_True; [done|].
    rewrite length_set_children. split; [done|]. fold t. lia. }
  split.
  { rewrite children_of_set_parent, children_of_set_children.
    rewrite decide_True by (split; [done|lia]).
    unfold d1. rewrite children_of_app, decide_False by lia. done. }
  split.
  { intros n Hn. rewrite parent_of_set_parent, decide_False
      by (by intros [? _]).
    rewrite parent_of_set_children. unfold d1.
    by rewrite parent_of_app, decide_False. }
  split.
  { intros m Hm Hlt. rewrite children_of_set_parent, children_of_set_children.
    rewrite decide_False by (by intros [? _]).
    unfold d1. rewrite children_of_app, decide_False by lia. done. }
  split.
  { intros n Hn. unfold set_parent, set_children.
    rewrite !kind_alter by done. unfold d1. by rewrite lookup_app_l. }
  split.
  { unfold set_parent, set_children.
    by rewrite !is_element_alter. }
  split.
  { intros n Hn. unfold set_parent, set_children.
    rewrite !text_of_alter by done. unfold d1.
    rewrite text_of_app, decide_False by lia. done. }
  unfold set_parent, set_children. rewrite !all_listeners_alter by done.
  unfold d1. rewrite all_listeners_app. cbn. by rewrite app_nil_r.
Qed.
End mount_marker.

Lemma filter_notin_app (l pre : list nat) :
  (∀ x, x ∈ pre → x ∉ l) →
  filter (λ y, y ∉ l) pre = pre.
Proof.
  intros H. induction pre as [|x pre IH]; [done|].
  rewrite filter_cons, decide_True by (apply H, elem_of_cons; by left).
  f_equal. apply IH. intros y Hy. apply H, elem_of_cons. by right.
Qed.

Lemma filter_notin_self (l : list nat) : filter (λ y, y ∉ l) l = [].
Proof.
  assert (∀ l', l' ⊆ l → filter (λ y, y ∉ l) l' = []) as H.
  { induction l' as [|x l' IH]; intros Hsub; [done|].
    rewrite filter_cons, decide_False.
    - apply IH. intros y Hy. apply Hsub, elem_of_cons. by right.
    - intros Hn. apply Hn, Hsub, elem_of_cons. by left. }
  by apply H.
Qed.

(** Detaching the children [l] of [p]. *)
Lemma children_of_detach_all l :
  ∀ d p,
    NoDup l → (∀ x, x ∈ l → parent_of d x = Some p) →
    children_of (detach_all l d) p = filter (λ y, y ∉ l) (children_of d p) ∧
    (∀ m, m ≠ p → children_of (detach_all l d) m = children_of d m).
Proof.
  induction l as [|x l IH]; intros d p Hnd Hl.
  - split; [|done]. cbn. symmetry. apply filter_notin_app.
    intros y _. apply not_elem_of_nil.
  - apply NoDup_cons in Hnd as [Hxl Hnd].
    assert (parent_of d x = Some p) as Hx
      by (apply Hl, elem_of_cons; by left).
    destruct (IH (detach x d) p Hnd) as [IH1 IH2].
    { intros y Hy. rewrite parent_of_detach, decide_False by (by intros ->).
      apply Hl, elem_of_cons. by right. }
    change (detach_all (x :: l) d) with (detach_all l (detach x d)).
    split.
    + rewrite IH1, children_of_detach, decide_True by done.
      rewrite list_filter_filter. apply list_filter_iff.
      intros y. rewrite not_elem_of_cons. tauto.
    + intros m Hm. rewrite IH2 by done.
      rewrite children_of_detach, decide_False; [done|].
      rewrite Hx. by intros [= ->].
Qed.

Section html_block.
Variable parseHTML : string → list DTree.

(** An Html block created and mounted in an element of a closed store. *)
Lemma BHtml_mount_state html d parent :
  closed d = true → is_element d parent = true →
  ∃ content d',
    (b ← new_BHtml html; mount parseHTML b parent) d
      = Ok (BHtml html content (length d) (content !! 0)) d' ∧
    length content = length (parseHTML html) ∧
    NoDup content ∧
    (∀ c, c ∈ content → S (length d) < c < length d') ∧
    children_of d' parent = children_of d parent ++ content ++ [length d] ∧
    (∀ c, c ∈ content → parent_of d' c = Some parent) ∧
    parent_of d' (length d) = Some parent ∧
    parent_of d' (S (length d)) = None ∧
    (∀ n, n < length d → parent_of d' n = parent_of d n) ∧
    (∀ m, m < length d → m ≠ parent → children_of d' m = children_of d m) ∧
    ((λ c, nkind <$> d' !! c) <$> content
     = (λ t, Some (dkind t)) <$> parseHTML html) ∧
    (∀ n, n < length d → nkind <$> d' !! n = nkind <$> d !! n) ∧
    (∀ n, n < length d → text_of d' n = text_of d n) ∧
    all_listeners d' = all_listeners d.
Proof.
  intros Hcl Hel. pose proof (is_element_lt _ _ Hel) as Hp.
  set (a := length d).
  set (dA := d ++ [new_node KText None EmptyString [] []]).
  assert (length dA = S (length d)) as HlenA
    by (unfold dA; rewrite length_app; cbn; lia).
  destruct (append_marker dA parent) as
    (dC & Happ & HlenC & Hpt & HchC & HparC & HothC & HkC & HleafC & HtxC & HlsC);
    [lia|].
  set (t := length dA) in *.
  assert (∀ n, n < length d → parent_of dA n = parent_of d n) as HpA
    by (intros n Hn; unfold dA; by rewrite parent_of_app_lt).
  assert (∀ n, n < length d → children_of dA n = children_of d n) as HcA
    by (intros n Hn; unfold dA; by rewrite children_of_app_lt).
  assert (∀ c, c ∈ children_of d parent → c < length d) as Hold
    by (intros c; by apply closed_children).
  assert (up_closed (length d) dC) as HupC.
  { intros n q Hn. rewrite HparC by (unfold t; lia). rewrite HpA by done.
    by apply closed_parent. }
  destruct (BHtml_mountBefore_spec parseHTML (length d) html [] a None t parent
              dC (children_of d parent) [])
    as (content & d3 & Hm & Hlen & Hnd & Hfresh & Hch3 & Hpc3 & Hpa3 & Hpar3
        & Hoth3 & Hk3 & Hkold3 & Htx3 & Hls3 & Hup3).
  { done. } { done. } { lia. } { unfold t; lia. } { done. }
  { by rewrite HchC, HcA. }
  { intros Hin. apply Hold in Hin. unfold t in Hin. lia. }
  { rewrite (is_element_kind dA dC).
    - unfold dA, a. by rewrite is_element_app, decide_True.
    - apply HkC. unfold a. lia. }
  { unfold a. lia. } { unfold a, t. lia. }
  { rewrite HparC by (unfold a, t; lia).
    unfold dA, a. by rewrite parent_of_app, decide_True. }
  { rewrite HchC, HcA by done.
    intros [Hin|Hin%list_elem_of_singleton]%elem_of_app.
    - apply Hold in Hin. unfold a in Hin. lia.
    - unfold a, t in Hin. lia. }
  assert (t ∉ children_of d parent) as Htold
    by (intros Hin; apply Hold in Hin; unfold t in Hin; lia).
  assert (t ∉ content) as Htc
    by (intros Hin; apply Hfresh in Hin; unfold t in *; lia).
  assert (parent_of d3 t = Some parent) as Hpt3.
  { rewrite Hpar3; [done|lia|unfold a, t; lia]. }
  exists content, (detach t d3). split.
  { unfold new_BHtml, createTextNode, alloc.
    unfold mbind at 1, M_bind at 1. fold dA. unfold mbind at 1, M_bind at 1.
    cbv beta iota. unfold mret at 1, M_ret at 1. cbv beta.
    unfold mount, createTextNode, alloc.
    unfold mbind at 1, M_bind at 1. fold t.
    rewrite (bind_eq _ _ _ _ _ Happ). cbv beta.
    fold a. rewrite (bind_eq _ _ _ _ _ Hm). done. }
  split; [done|]. split; [done|].
  split. { intros c Hin. rewrite length_detach. apply Hfresh in Hin.
           unfold t in *. lia. }
  split.
  { rewrite children_of_detach, decide_True by done. rewrite Hch3.
    rewrite !filter_app, !filter_cons, filter_nil.
    rewrite decide_True by (unfold a, t; lia). rewrite decide_False by auto.
    rewrite !filter_ne_notin by done. done. }
  split. { intros c Hin. rewrite parent_of_detach, decide_False.
           - by apply Hpc3.
           - by intros <-. }
  split. { rewrite parent_of_detach, decide_False by (unfold t; lia). done. }
  split. { rewrite parent_of_detach, decide_True; [done|unfold t; lia]. }
  split. { intros n Hn. rewrite parent_of_detach, decide_False by (unfold t; lia).
           rewrite Hpar3 by (unfold a; lia).
           rewrite HparC by (unfold t; lia). by apply HpA. }
  split. { intros m Hm' Hmp. rewrite children_of_detach, decide_False.
           - rewrite Hoth3 by (try done; lia). rewrite HothC by (try done; lia).
             by apply HcA.
           - rewrite Hpt3. by intros [= ->]. }
  split. { rewrite <- Hk3. apply list_fmap_ext. intros i c _.
           by rewrite kind_detach. }
  split. { intros n Hn. rewrite kind_detach, Hkold3 by lia.
           rewrite HkC by lia. unfold dA. by rewrite lookup_app_l. }
  split. { intros n Hn. rewrite text_of_detach, Htx3 by lia.
           rewrite HtxC by lia. unfold dA.
           rewrite text_of_app, decide_False by lia. done. }
  rewrite all_listeners_detach, Hls3, HlsC. unfold dA.
  apply all_listeners_alloc.
Qed.
End html_block.

Section html_theorems.
Variable parseHTML : string → list DTree.

(** X7. An Html block created with markup [html] and mounted in an element
    of a closed store: the call returns; the block holds one leaf per
    parsed top-level node, of the kind the parser gave it, and [el] is the
    first of them (none for an empty parse); the container's children are
    the old ones, then the leaves in order, then the block's marker; the
    nodes that were in the store keep their parents, kinds and text, and
    all but the container their children; no listener is registered. *)
Theorem BHtml_mount_appends (html : string) (d : Dom) (parent : nat) :
  closed d = true → is_element d parent = true →
  ∃ content a d',
    (b ← new_BHtml html; mount parseHTML b parent) d
      = Ok (BHtml html content a (content !! 0)) d' ∧
    length content = length (parseHTML html) ∧
    (λ c, nkind <$> d' !! c) <$> content
      = (λ t, Some (dkind t)) <$> parseHTML html ∧
    children_of d' parent = children_of d parent ++ content ++ [a] ∧
    (∀ c, c ∈ content ++ [a] → parent_of d' c = Some parent ∧ length d ≤ c) ∧
    (∀ n, n < length d →
          parent_of d' n = parent_of d n ∧
          nkind <$> d' !! n = nkind <$> d !! n ∧
          text_of d' n = text_of d n ∧
          (n ≠ parent → children_of d' n = children_of d n)) ∧
    all_listeners d' = all_listeners d.
Proof.
  intros Hcl Hel.
  destruct (BHtml_mount_state parseHTML html d parent Hcl Hel)
    as (content & d' & Hm & Hlen & Hnd & Hfresh & Hch & Hpc & Hpa & _
        & Hpar & Hoth & Hk & Hkold & Htx & Hls).
  exists content, (length d), d'.
  split; [done|]. split; [done|]. split; [done|]. split; [done|].
  split.
  { intros c [Hc|Hc%list_elem_of_singleton]%elem_of_app.
    - split; [by apply Hpc|]. apply Hfresh in Hc. lia.
    - subst c. split; [done|lia]. }
  split; [|done].
  intros n Hn. split; [by apply Hpar|]. split; [by apply Hkold|].
  split; [by apply Htx|]. intros Hnp. by apply Hoth.
Qed.

(** X8. Mounting an Html block in an element of a closed store and then
    removing it gives the container its old children back: [remove]
    returns, every leaf and the marker of the block end up without parent,
    and every node that was in the store has the parent and the children
    it had before the mount. *)
Theorem BHtml_mount_remove_restores (html : string) (d : Dom)
    (parent : nat) :
  closed d = true → is_element d parent = true →
  ∃ b d' d'',
    (b ← new_BHtml html; mount parseHTML b parent) d = Ok b d' ∧
    remove b d' = Ok () d'' ∧
    (∀ c, c ∈ removed_nodes b → parent_of d'' c = None) ∧
    (∀ n, n < length d →
          parent_of d'' n = parent_of d n ∧
          children_of d'' n = children_of d n).
Proof.
  intros Hcl Hel.
  destruct (BHtml_mount_state parseHTML html d parent Hcl Hel)
    as (content & d' & Hm & Hlen & Hnd & Hfresh & Hch & Hpc & Hpa & _
        & Hpar & Hoth & Hk & Hkold & Htx & Hls).
  set (b := BHtml html content (length d) (content !! 0)) in *.
  set (l := content ++ [length d]).
  assert (removed_nodes b = l) as Hrm by done.
  exists b, d', (detach_all l d').
  split; [done|]. split; [by rewrite remove_outcome|].
  split. { intros c Hc. rewrite Hrm in Hc. by apply parent_of_detach_all_in. }
  assert (NoDup l) as Hndl.
  { apply NoDup_app. split; [done|]. split; [|apply NoDup_singleton].
    intros c Hc Hc2%list_elem_of_singleton. apply Hfresh in Hc. lia. }
  assert (∀ x, x ∈ l → parent_of d' x = Some parent) as Hpl.
  { intros x [Hx|Hx%list_elem_of_singleton]%elem_of_app; [auto|by subst]. }
  destruct (children_of_detach_all l d' parent Hndl Hpl) as [Hc1 Hc2].
  intros n Hn. split.
  - rewrite parent_of_detach_all; [by apply Hpar|].
    intros [Hx|Hx%list_elem_of_singleton]%elem_of_app; [|lia].
    apply Hfresh in Hx. lia.
  - destruct (decide (n = parent)) as [->|Hne].
    + rewrite Hc1, Hch, filter_app. fold l. rewrite filter_notin_self.
      rewrite app_nil_r. apply filter_notin_app.
      intros x Hx. apply (closed_children d parent x Hcl) in Hx.
      intros [Hx'|Hx'%list_elem_of_singleton]%elem_of_app; [|lia].
      apply Hfresh in Hx'. lia.
    + rewrite Hc2 by done. by apply Hoth.
Qed.

(** X9. [BHtml.patch] on a mounted block, whatever the successor: the call
    returns; the old leaves end up without parent; the block holds one
    fresh leaf per top-level node of the parse of its own markup, of the
    kind the parser gave it; these leaves stand before the block's
    marker, in order, where the old ones stood among the siblings. *)
Theorem BHtml_patch_replaces_leaves (html : string) (content : list nat)
    (a : nat) (el : option nat) (other : Block) (d : Dom) (p : nat)
    (pre suf : list nat) :
  closed d = true →
  parent_of d a = Some p →
  children_of d p = pre ++ content ++ a :: suf →
  NoDup (pre ++ content ++ a :: suf) →
  (∀ c, c ∈ content → parent_of d c = Some p) →
  ∃ content' d',
    patch parseHTML (BHtml html content a el) other d
      = Ok (BHtml html content' a (content' !! 0)) d' ∧
    length content' = length (parseHTML html) ∧
    (λ c, nkind <$> d' !! c) <$> content'
      = (λ t, Some (dkind t)) <$> parseHTML html ∧
    (∀ c, c ∈ content' → length d ≤ c ∧ parent_of d' c = Some p) ∧
    (∀ c, c ∈ content → parent_of d' c = None) ∧
    children_of d' p = pre ++ content' ++ a :: suf ∧
    (∀ n, n < length d → n ∉ content → parent_of d' n = parent_of d n) ∧
    (∀ m, m < length d → m ≠ p → children_of d' m = children_of d m).
Proof.
  intros Hcl Ha Hch Hnd Hpc.
  pose proof (closed_parent _ _ _ Hcl Ha) as Hp.
  apply NoDup_app in Hnd as (Hndpre & Hdisj & Hnd).
  apply NoDup_app in Hnd as (Hndc & Hdisj2 & Hnd).
  apply NoDup_cons in Hnd as [Hasuf Hndsuf].
  assert (a ∉ content) as Hac.
  { intros Hin. apply (Hdisj2 a Hin), elem_of_cons. by left. }
  assert (a ∉ pre) as Hapre.
  { intros Hin. apply (Hdisj a Hin), elem_of_app. right.
    apply elem_of_cons. by left. }
  set (d1 := detach_all content d).
  destruct (children_of_detach_all content d p Hndc Hpc) as [Hc1 Hc2].
  fold d1 in Hc1, Hc2.
  assert (children_of d1 p = pre ++ a :: suf) as Hch1.
  { rewrite Hc1, Hch, !filter_app, filter_cons, filter_notin_self.
    rewrite decide_True by done. cbn [app].
    rewrite !filter_notin_app; [done| |].
    - intros x Hx Hin. apply (Hdisj2 x Hin), elem_of_cons. by right.
    - intros x Hx Hin. apply (Hdisj x Hx), elem_of_app. by left. }
  assert (length d1 = length d) as Hlen1.
  { unfold d1, detach_all. clear. revert d.
    induction content as [|x l IH]; intros d; [done|].
    cbn. by rewrite IH, length_detach. }
  assert (∀ n, n ∉ content → parent_of d1 n = parent_of d n) as Hpar1
    by (intros n Hn; by apply parent_of_detach_all).
  assert (up_closed (length d) d1) as Hup1.
  { intros n q Hn. destruct (decide (n ∈ content)) as [Hin|Hnin].
    - unfold d1. by rewrite parent_of_detach_all_in.
    - rewrite Hpar1 by done. by apply closed_parent. }
  destruct (BHtml_build_spec parseHTML html d1)
    as (ext & content' & Hb & Hlen & Hnd' & Hc' & Hk & Hls).
  set (d2 := d1 ++ ext) in *.
  assert (∀ n, n < length d → d2 !! n = d1 !! n) as Hold
    by (intros n Hn; unfold d2; apply lookup_app_l; lia).
  assert (∀ n, n < length d → parent_of d2 n = parent_of d1 n) as Hpold
    by (intros n Hn; unfold parent_of; by rewrite Hold).
  assert (∀ n, n < length d → children_of d2 n = children_of d1 n) as Hcold
    by (intros n Hn; unfold children_of; by rewrite Hold).
  assert (a < length d) as Halt.
  { apply (closed_children d p a Hcl). rewrite Hch.
    apply elem_of_app. right. apply elem_of_app. right.
    apply elem_of_cons. by left. }
  destruct (before_run (length d) a p content' d2 pre suf)
    as (d3 & Hb3 & Hlen3 & Hch3 & Hpc3 & Hpar3 & Hoth3 & Hk3 & Htx3 & Hls3 & Hup3).
  { apply up_closed_app; [lia|done]. } { done. }
  { unfold d2. rewrite length_app. lia. }
  { by rewrite Hpold, Hpar1. } { done. }
  { intros Hin. apply Hc' in Hin. lia. }
  { intros c Hin. destruct (Hc' c Hin) as [Hrange Hpc'].
    split; [right; lia|]. split; [lia|].
    fold d2 in Hpc'. rewrite Hpc'. intros [= Heq]. lia. }
  { by rewrite Hcold. } { done. }
  exists content', d3. split.
  { cbn [patch].
    rewrite (bind_eq _ _ _ _ _ (iterM_removeNode_Ok content d)).
    fold (detach_all content d). fold d1.
    rewrite (bind_eq _ _ _ _ _ Hb). cbv beta iota.
    by rewrite (bind_eq _ _ _ _ _ Hb3). }
  split; [done|].
  split. { rewrite <- Hk. apply list_fmap_ext. intros i c _. by rewrite Hk3. }
  split. { intros c Hin. split; [|by apply Hpc3]. apply Hc' in Hin. lia. }
  split. { intros c Hin. rewrite Hpar3.
           - rewrite Hpold.
             + unfold d1. by apply parent_of_detach_all_in.
             + apply (closed_children d p c Hcl). rewrite Hch.
               apply elem_of_app. right. apply elem_of_app. by left.
           - intros Hin'. apply Hc' in Hin'.
             assert (c < length d); [|lia].
             apply (closed_children d p c Hcl). rewrite Hch.
             apply elem_of_app. right. apply elem_of_app. by left. }
  split; [done|].
  split. { intros n Hn Hnc. rewrite Hpar3, Hpold, Hpar1; try done.
           intros Hin. apply Hc' in Hin. lia. }
  intros m Hm Hmp. rewrite Hoth3; [|done|].
  - rewrite Hcold by done. by apply Hc2.
  - intros c Hin. destruct (Hc' c Hin) as [Hrange Hpc'].
    fold d2 in Hpc'. rewrite Hpc'. intros [= Heq]. lia.
Qed.
End html_theorems.

(** [Rep] of a tree survives a change of the parent of a node that is not
    a proper descendant in the tree. *)
Lemma Rep_frame r d d' T :
  (∀ i, i ∈ ids T →
        nkind <$> d' !! i = nkind <$> d !! i ∧
        children_of d' i = children_of d i) →
  (∀ i, i ∈ ids T → i ≠ r → parent_of d' i = parent_of d i) →
  r ∉ concat (ids <$> ikids T) →
  Rep d T → Rep d' T.
Proof.
  induction T as [n k kids IH] using ITree_nested_ind.
  rewrite !Rep_eq, ids_eq. cbn [ikids].
  intros Hkc Hpar Hr (Hk & Hc & Hkids).
  destruct (Hkc n) as [Hkn Hcn]; [apply elem_of_cons; by left|].
  split; [by rewrite Hkn|]. split; [by rewrite Hcn|].
  assert (∀ i, i ∈ concat (ids <$> kids) →
               nkind <$> d' !! i = nkind <$> d !! i ∧
               children_of d' i = children_of d i) as Hkc'
    by (intros i Hi; apply Hkc, elem_of_cons; by right).
  assert (∀ i, i ∈ concat (ids <$> kids) →
               parent_of d' i = parent_of d i) as Hpar'.
  { intros i Hi. apply Hpar; [apply elem_of_cons; by right|].
    by intros ->. }
  clear Hkc Hpar Hk Hc Hkn Hcn.
  induction IH as [|kid ks Hkid _ IHks]; [done|].
  apply Forall_cons in Hkids as [[Hp HR] Hrest].
  cbn [fmap list_fmap concat] in Hkc', Hpar', Hr.
  apply not_elem_of_app in Hr as [Hr1 Hr2].
  apply Forall_cons. split.
  - split.
    + rewrite Hpar'; [done|]. apply elem_of_app. left. apply root_in_ids.
    + apply Hkid; [| | |done].
      * intros i Hi. apply Hkc', elem_of_app. by left.
      * intros i Hi _. apply Hpar', elem_of_app. by left.
      * intros Hin. apply Hr1. rewrite ids_kids.
        apply elem_of_cons. by right.
  - apply IHks; [done|done| |].
    + intros i Hi. apply Hkc', elem_of_app. by right.
    + intros i Hi. apply Hpar', elem_of_app. by right.
Qed.

Section node_mount.
Variable parseHTML : string → list DTree.

Lemma shape_setupHandlers cls oid handlers el T d d' :
  root_id T = el → Rep d T →
  setupHandlers cls oid handlers (Some el) d = Ok () d' →
  skeleton d' = skeleton d.
Proof.
  intros Hroot HR H.
  by destruct (setupHandlers_rounds oid handlers el 0 T _ Hroot d d' HR H).
Qed.

(** [BNode.build] for a block without slots: whenever it returns, the
    clone sits at the end of the store as a detached copy of the
    template, and the shape of the older part of the store is as it
    was. *)
Lemma BNode_build_slotless oid cls anchors data handlers d el o d1 :
  BNode_build oid cls false anchors data handlers d = Ok (el, o) d1 →
  el = length d ∧ o = anchors ∧
  Rep d1 (label (static_el cls) el) ∧
  parent_of d1 el = None ∧
  length d < length d1 ∧
  (∀ n, n < length d →
        nkind <$> d1 !! n = nkind <$> d !! n ∧
        parent_of d1 n = parent_of d n ∧
        children_of d1 n = children_of d n).
Proof.
  unfold BNode_build. intros H.
  apply bind_Ok in H as ([el' ms'] & d2 & Hb & H).
  apply bind_Ok in H as ([] & d3 & Hu & H).
  apply bind_Ok in H as ([] & d4 & Hs & [= <- <- <-]).
  rename d4 into d1.
  unfold build_anchors in Hb.
  apply bind_Ok in Hb as (el'' & d5 & Hclone & [= <- <- <-]).
  destruct (instantiate_spec (static_el cls) None d)
    as (ext & Hi & Hlen & HR & Hp & _).
  unfold cloneNode in Hclone. rewrite Hi in Hclone.
  injection Hclone as <- <-.
  assert (skeleton d3 = skeleton (d ++ ext)) as Hs3
    by (by apply (shape_update _ _ _ _ _ _ Hu)).
  assert (skeleton d1 = skeleton (d ++ ext)) as Hs1.
  { rewrite <- Hs3. destruct handlers; [|by injection Hs as ->].
    eapply shape_setupHandlers; [apply root_id_label| |exact Hs].
    by apply (Rep_skeleton (d ++ ext)). }
  split; [done|]. split; [done|].
  split; [by apply (Rep_skeleton (d ++ ext))|].
  destruct (skeleton_lookup _ _ (length d) Hs1) as (_ & Hpe & _).
  split; [by rewrite Hpe|].
  split.
  { assert (length (skeleton d1) = length (skeleton (d ++ ext))) as Hl
      by (by rewrite Hs1).
    unfold skeleton in Hl. rewrite !length_fmap, length_app in Hl.
    pose proof (tsize_pos (static_el cls)). lia. }
  intros n Hn. destruct (skeleton_lookup _ _ n Hs1) as (Hk & Hpn & Hcn).
  rewrite Hk, Hpn, Hcn. rewrite lookup_app_l by done.
  by rewrite parent_of_app_lt, children_of_app_lt.
Qed.

Lemma BNode_build_static oid cls anchors data d :
  update_body cls = [] →
  ∃ d1, BNode_build oid cls false anchors data None d
        = Ok (length d, anchors) d1.
Proof.
  intros Hu. unfold BNode_build, build_anchors.
  destruct (instantiate_spec (static_el cls) None d)
    as (ext & Hi & _).
  exists (d ++ ext).
  rewrite bind_assoc. rewrite (bind_eq _ _ _ _ _ (cloneNode_eq _ _ _ Hi)).
  mnorm. unfold update. rewrite Hu. cbn [iterM]. by mnorm.
Qed.

(** The second half of [mountBefore] for a block without slots: the clone
    goes before the marker. *)
Lemma BNode_slotless_place n0 oid cls anchors data handlers a p pre suf d
    el o d1 :
  up_closed n0 d → p < n0 → n0 ≤ length d → a < length d →
  parent_of d a = Some p → children_of d p = pre ++ a :: suf → a ∉ pre →
  BNode_build oid cls false anchors data handlers d = Ok (el, o) d1 →
  el = length d ∧ o = anchors ∧
  ∃ d2,
    before (Some a) (length d) d1 = Ok () d2 ∧
    length d2 = length d1 ∧ length d < length d1 ∧
    Rep d2 (label (static_el cls) (length d)) ∧
    parent_of d2 (length d) = Some p ∧
    children_of d2 p = pre ++ length d :: a :: suf ∧
    (∀ n, n < length d →
          parent_of d2 n = parent_of d n ∧
          nkind <$> d2 !! n = nkind <$> d !! n ∧
          (n ≠ p → children_of d2 n = children_of d n)).
Proof.
  intros Hup Hp Hn0 Halt Ha Hch Hpre Hb.
  destruct (BNode_build_slotless _ _ _ _ _ _ _ _ _ Hb)
    as (-> & -> & HR & Hpe & Hlen & Hold).
  split; [done|]. split; [done|].
  destruct (before_step n0 d1 a (length d) p pre suf)
    as (d2 & Hb2 & Hlen2 & Hch2 & Hpa2 & Hpar2 & Hoth2 & Hk2 & _ & _ & _).
  { intros n q Hn. rewrite (proj1 (proj2 (Hold n ltac:(lia)))).
    by apply Hup. }
  { done. } { lia. }
  { by rewrite (proj1 (proj2 (Hold a Halt))). }
  { by right. } { done. } { lia. }
  { by rewrite Hpe. }
  { by rewrite (proj2 (proj2 (Hold p ltac:(lia)))). }
  { done. }
  exists d2. split; [done|]. split; [done|]. split; [done|]. split.
  { assert (∀ i, i ∈ ids (label (static_el cls) (length d)) →
                 length d ≤ i) as Hge.
    { intros i. rewrite ids_label. intros Hi%elem_of_seq. lia. }
    apply (Rep_frame (length d) d1); [| | |done].
    - intros i Hi. apply Hge in Hi. split; [apply Hk2|].
      rewrite Hoth2 by lia. rewrite Hpe. by rewrite decide_False.
    - intros i Hi Hne. by apply Hpar2.
    - pose proof (NoDup_seq (length d) (tsize (static_el cls))) as Hnd.
      rewrite <- ids_label, ids_kids, root_id_label in Hnd.
      by apply NoDup_cons in Hnd as [? _]. }
  split; [done|]. split; [done|].
  intros n Hn. split; [|split].
  - rewrite Hpar2 by lia. apply Hold. done.
  - rewrite Hk2. by apply Hold.
  - intros Hnp. rewrite Hoth2 by done. rewrite Hpe.
    rewrite decide_False by done. by apply Hold.
Qed.

(** X10. A Node block without slots mounted before a marker [a] that sits
    under [p], in a closed store.  Whenever [mountBefore] returns (it does
    when the class has an empty update hook and the block no handlers),
    the block's element is a fresh copy of the template, placed just
    before [a] among the children of [p]; every older node keeps its
    parent and, [p] apart, its children.  [remove] then returns, leaves
    the element without parent, and gives [p] its old children back. *)
Theorem BNode_slotless_mount_remove (oid : nat) (cls : NodeClass)
    (el0 : option nat) (anchors : option (list nat))
    (data : option (list string)) (handlers : option (list (string * nat)))
    (a p : nat) (pre suf : list nat) (d : Dom) :
  closed d = true →
  parent_of d a = Some p → children_of d p = pre ++ a :: suf → a ∉ pre →
  (update_body cls = [] → handlers = None →
   ∃ b1 d1, mountBefore parseHTML
              (BNode oid cls el0 None anchors data handlers) (Some a) d
            = Ok b1 d1) ∧
  (∀ b1 d1,
     mountBefore parseHTML (BNode oid cls el0 None anchors data handlers)
                 (Some a) d = Ok b1 d1 →
     b1 = BNode oid cls (Some (length d)) None anchors data handlers ∧
     Rep d1 (label (static_el cls) (length d)) ∧
     parent_of d1 (length d) = Some p ∧
     children_of d1 p = pre ++ length d :: a :: suf ∧
     (∀ n, n < length d →
           parent_of d1 n = parent_of d n ∧
           (n ≠ p → children_of d1 n = children_of d n)) ∧
     ∃ d2,
       remove b1 d1 = Ok () d2 ∧
       parent_of d2 (length d) = None ∧
       (∀ n, n < length d →
             parent_of d2 n = parent_of d n ∧
             children_of d2 n = children_of d n)).
Proof.
  intros Hcl Ha Hch Hpre.
  pose proof (closed_parent _ _ _ Hcl Ha) as Hp.
  assert (a < length d) as Halt.
  { apply (closed_children d p a Hcl). rewrite Hch.
    apply elem_of_app. right. apply elem_of_cons. by left. }
  assert (∀ el o d1,
            BNode_build oid cls false anchors data handlers d = Ok (el, o) d1 →
            el = length d ∧ o = anchors ∧
            ∃ d2,
              before (Some a) (length d) d1 = Ok () d2 ∧
              length d2 = length d1 ∧ length d < length d1 ∧
              Rep d2 (label (static_el cls) (length d)) ∧
              parent_of d2 (length d) = Some p ∧
              children_of d2 p = pre ++ length d :: a :: suf ∧
              (∀ n, n < length d →
                    parent_of d2 n = parent_of d n ∧
                    nkind <$> d2 !! n = nkind <$> d !! n ∧
                    (n ≠ p → children_of d2 n = children_of d n))) as Hmain.
  { intros el o d1 Hb.
    apply (BNode_slotless_place (length d) _ _ _ _ _ _ _ _ _ _ _ _ _
             (closed_up _ Hcl) Hp (le_n _) Halt Ha Hch Hpre Hb). }
  assert (length d ∉ pre ++ a :: suf) as Hfresh.
  { rewrite <- Hch. intros Hin.
    apply (closed_children d p _ Hcl) in Hin. lia. }
  split.
  - intros Hu ->.
    destruct (BNode_build_static oid cls anchors data d Hu) as (d1 & Hb).
    destruct (Hmain _ _ _ Hb) as (_ & _ & d2 & Hb2 & _).
    eexists _, d2. cbn [mountBefore].
    change (bool_decide (is_Some (@None (list (option Block))))) with false.
    rewrite (bind_eq _ _ _ _ _ Hb). cbv beta iota. mnorm.
    by rewrite (bind_eq _ _ _ _ _ Hb2).
  - intros b1 d1 Hm. cbn [mountBefore] in Hm.
    change (bool_decide (is_Some (@None (list (option Block))))) with false
      in Hm.
    apply bind_Ok in Hm as ([el o] & d3 & Hb & Hm).
    apply bind_Ok in Hm as (c & d4 & [= <- <-] & Hm).
    apply bind_Ok in Hm as ([] & d5 & Hb5 & [= <- <-]).
    destruct (Hmain _ _ _ Hb) as (-> & -> & d2 & Hb2 & _ & _ & HR & Hpe & Hch2 & Hold).
    rewrite Hb2 in Hb5. injection Hb5 as <-.
    split; [done|]. split; [done|]. split; [done|]. split; [done|].
    split. { intros n Hn. destruct (Hold n Hn) as (? & _ & ?). done. }
    exists (detach (length d) d2). split; [by rewrite remove_outcome|].
    split; [by rewrite parent_of_detach, decide_True|].
    intros n Hn. split.
    + rewrite parent_of_detach, decide_False by lia. by apply Hold.
    + rewrite children_of_detach, Hpe.
      destruct (decide (n = p)) as [->|Hne].
      * rewrite decide_True by done. rewrite Hch2, Hch.
        apply not_elem_of_app in Hfresh as [Hf1 Hf2].
        rewrite filter_app, filter_cons, decide_False by auto.
        by rewrite !filter_ne_notin.
      * rewrite decide_False by (by intros [= ->]). by apply Hold.
Qed.
End node_mount.

Lemma forM_from_Forall2 {A B} (f : nat → A → M B) (R : A → B → Prop) l :
  (∀ i x d y d', f i x d = Ok y d' → R x y) →
  ∀ i d r d', forM_from f i l d = Ok r d' → Forall2 R l r.
Proof.
  intros Hf. induction l as [|x l IH]; intros i d r d' H.
  - injection H as <- <-. constructor.
  - rewrite forM_from_cons in H.
    apply bind_Ok in H as (y & d1 & Hy & H).
    apply bind_Ok in H as (ys & d2 & Hys & [= <- <-]).
    constructor; [by eapply Hf|by eapply IH].
Qed.

Lemma set_markers_fill (ms : list nat) :
  ∀ (pre rest : list (option nat)),
    length rest = length ms →
    set_markers (pre ++ rest) (length pre) ms = pre ++ (Some <$> ms).
Proof.
  induction ms as [|m ms IH]; intros pre rest Hlen.
  - destruct rest; [done|discriminate Hlen].
  - destruct rest as [|x rest]; [discriminate Hlen|].
    cbn [set_markers]. rewrite js_set_middle.
    replace (S (length pre)) with (length (pre ++ [Some m]))
      by (rewrite length_app; cbn; lia).
    rewrite (cons_middle (Some m)), (assoc_L (++)).
    rewrite IH by (cbn in Hlen; lia).
    by rewrite <- (assoc_L (++)).
Qed.

Section multi_mount.
Variable parseHTML : string → list DTree.

(** X11. Whenever [BMulti.mountBefore] returns on a block as its
    constructor sizes it (as many marker slots as child slots), the block
    holds one marker for every slot, whether the slot holds a child or
    not, and the children array has its length and the same slots
    filled. *)
Theorem BMulti_mountBefore_markers (cs : list (option Block))
    (anchors : list (option nat)) (a : option nat) (d : Dom)
    (b' : Block) (d' : Dom) :
  length anchors = length cs →
  mountBefore parseHTML (BMulti cs anchors) a d = Ok b' d' →
  ∃ cs' ms,
    b' = BMulti cs' (Some <$> ms) ∧
    length cs' = length cs ∧ length ms = length cs ∧
    (∀ i, is_Some (js_get cs' i) ↔ is_Some (js_get cs i)) ∧
    (∀ i, i < length cs → is_Some (js_get (Some <$> ms) i)).
Proof.
  intros Hlen H. cbn [mountBefore] in H.
  apply bind_Ok in H as (slots & d1 & Hs & [= <- <-]).
  pose proof (forM_from_length _ _ _ _ _ _ Hs) as Hl.
  exists (slots.*1), (slots.*2).
  assert (length (slots.*2) = length cs) as Hl2 by (by rewrite length_fmap).
  split.
  { f_equal. apply (set_markers_fill _ []). by rewrite Hl2. }
  split; [by rewrite length_fmap|]. split; [done|].
  split.
  - apply (forM_from_Forall2 _
             (λ c (s : option Block * nat), is_Some s.1 ↔ is_Some c)) in Hs.
    + intros i. unfold js_get. rewrite list_lookup_fmap.
      destruct (cs !! i) as [c|] eqn:Hc.
      * destruct (Forall2_lookup_l _ _ _ _ _ Hs Hc) as (s & -> & HR).
        done.
      * apply lookup_ge_None in Hc.
        rewrite (lookup_ge_None_2 slots) by lia. done.
    + intros i c d0 y d2 Hy. apply bind_Ok in Hy as (m & d3 & _ & Hy).
      apply bind_Ok in Hy as ([] & d4 & _ & Hy).
      destruct c as [c|].
      * apply bind_Ok in Hy as (c' & d5 & _ & [= <- <-]). cbn.
        split; intros _; by eexists.
      * injection Hy as <- <-. done.
  - intros i Hi. unfold js_get. rewrite list_lookup_fmap.
    destruct (slots.*2 !! i) eqn:Hm; [by eexists|].
    apply lookup_ge_None in Hm. lia.
Qed.

(** The loop of [BMulti.mountBefore] over empty slots. *)
Lemma empty_rounds n0 a p n :
  ∀ i d pre suf,
    up_closed n0 d → p < n0 → n0 ≤ length d →
    parent_of d a = Some p → a < length d →
    children_of d p = pre ++ a :: suf → a ∉ pre →
    ∃ d',
      forM_from
        (λ (i : nat) (child : option Block),
           childAnchor ← createTextNode EmptyString;
           before (Some a) childAnchor;;
           match child with
           | Some c =>
               c' ← mountBefore parseHTML c (Some childAnchor);
               mret (Some c', childAnchor)
           | None => mret (None, childAnchor)
           end) i (replicate n None) d
      = Ok ((λ m, (None, m)) <$> seq (length d) n) d' ∧
      length d' = length d + n ∧
      children_of d' p = pre ++ seq (length d) n ++ a :: suf ∧
      (∀ m, length d ≤ m < length d + n →
            parent_of d' m = Some p ∧ nkind <$> d' !! m = Some KText ∧
            children_of d' m = []) ∧
      (∀ m, m < length d →
            parent_of d' m = parent_of d m ∧
            nkind <$> d' !! m = nkind <$> d !! m ∧
            (m ≠ p → children_of d' m = children_of d m)) ∧
      all_listeners d' = all_listeners d.
Proof.
  induction n as [|n IH]; intros i d pre suf Hup Hp Hn0 Ha Halt Hch Hpre.
  { exists d. cbn. rewrite Nat.add_0_r. repeat split; try done; lia. }
  set (leaf := new_node KText None EmptyString [] []).
  set (d1 := d ++ [leaf]).
  assert (length d1 = S (length d)) as Hlen1
    by (unfold d1; rewrite length_app; cbn; lia).
  destruct (before_step n0 d1 a (length d) p pre suf)
    as (d2 & Hb2 & Hlen2 & Hch2 & Hpa2 & Hpar2 & Hoth2 & Hk2 & _ & Hls2 & Hup2).
  { apply up_closed_app; done. } { done. } { lia. }
  { unfold d1. by rewrite parent_of_app_lt. }
  { by right. } { lia. } { lia. }
  { unfold d1. by rewrite parent_of_app, decide_True. }
  { unfold d1. rewrite children_of_app_lt by lia. done. }
  { done. }
  destruct (IH (S i) d2 (pre ++ [length d]) suf)
    as (d3 & Hf & Hlen3 & Hch3 & Hnew3 & Hold3 & Hls3).
  { done. } { done. } { lia. }
  { rewrite Hpar2 by lia. unfold d1. by rewrite parent_of_app_lt. }
  { lia. }
  { by rewrite Hch2, <- (assoc_L (++)). }
  { intros [?|?%list_elem_of_singleton]%elem_of_app; [done|lia]. }
  rewrite Hlen2, Hlen1 in Hf, Hlen3, Hch3, Hnew3, Hold3.
  exists d3. split.
  { cbn [replicate]. rewrite forM_from_cons. mnorm.
    rewrite (bind_eq _ _ _ _ _ (createTextNode_eq _ d)).
    fold leaf. fold d1. mnorm. rewrite (bind_eq _ _ _ _ _ Hb2). mnorm.
    by rewrite (bind_eq _ _ _ _ _ Hf). }
  split; [lia|].
  split. { rewrite Hch3. cbn [seq]. by rewrite <- (assoc_L (++)). }
  assert (parent_of d1 (length d) = None) as Hpl
    by (unfold d1; by rewrite parent_of_app, decide_True).
  split.
  { intros m Hm. destruct (decide (m = length d)) as [->|Hne].
    - destruct (Hold3 (length d)) as (HpO & HkO & HcO); [lia|].
      rewrite HpO, HkO, HcO by lia. split; [done|].
      rewrite Hk2. unfold d1. rewrite list_lookup_middle by done.
      split; [done|]. rewrite Hoth2 by lia. rewrite Hpl.
      rewrite decide_False by done. unfold d1.
      by rewrite children_of_app, decide_True.
    - apply Hnew3. lia. }
  split.
  { intros m Hm. destruct (Hold3 m) as (HpO & HkO & HcO); [lia|].
    rewrite HpO, HkO. rewrite Hpar2 by lia. rewrite Hk2.
    unfold d1. rewrite parent_of_app_lt, lookup_app_l by done.
    split; [done|]. split; [done|]. intros Hmp.
    rewrite HcO by done. rewrite Hoth2 by done. rewrite Hpl.
    rewrite decide_False by done. fold d1. unfold d1.
    by rewrite children_of_app_lt. }
  rewrite Hls3, Hls2. unfold d1. apply all_listeners_alloc.
Qed.

(** X12. A Multi block of [n] empty slots mounted in an element of a closed
    store: the call returns; [n] fresh text markers are appended to the
    container's children, in slot order, and the block holds them; no
    older node changes parent, and none but the container changes
    children. *)
Theorem BMulti_empty_mount (n : nat) (d : Dom) (parent : nat) :
  closed d = true → is_element d parent = true →
  ∃ d',
    mount parseHTML (new_BMulti n) parent d
      = Ok (BMulti (replicate n None) (Some <$> seq (S (length d)) n)) d' ∧
    children_of d' parent = children_of d parent ++ seq (S (length d)) n ∧
    (∀ m, m ∈ seq (S (length d)) n →
          parent_of d' m = Some parent ∧ nkind <$> d' !! m = Some KText) ∧
    (∀ m, m < length d →
          parent_of d' m = parent_of d m ∧
          (m ≠ parent → children_of d' m = children_of d m)) ∧
    all_listeners d' = all_listeners d.
Proof.
  intros Hcl Hel. pose proof (is_element_lt _ _ Hel) as Hp.
  destruct (append_marker d parent Hp) as
    (dC & Happ & HlenC & Hpt & HchC & HparC & HothC & HkC & HleafC & HtxC & HlsC).
  set (t := length d) in *.
  assert (∀ c, c ∈ children_of d parent → c < length d) as Hold
    by (intros c; by apply closed_children).
  destruct (empty_rounds (length d) t parent n 0 dC (children_of d parent) [])
    as (d3 & Hf & Hlen3 & Hch3 & Hnew3 & Hold3 & Hls3).
  { intros m q Hm. rewrite HparC by (unfold t; lia). by apply closed_parent. }
  { done. } { lia. } { done. } { unfold t. lia. } { done. }
  { intros Hin. apply Hold in Hin. unfold t in Hin. lia. }
  rewrite HlenC in Hf, Hch3, Hnew3, Hold3.
  exists (detach t d3).
  assert (parent_of d3 t = Some parent) as Hpt3.
  { destruct (Hold3 t) as (-> & _); [unfold t; lia|done]. }
  split.
  { unfold mount. rewrite (bind_eq _ _ _ _ _ (createTextNode_eq _ d)).
    fold t. rewrite (bind_eq _ _ _ _ _ Happ). cbv beta.
    unfold new_BMulti. cbn [mountBefore].
    rewrite bind_assoc. rewrite (bind_eq _ _ _ _ _ Hf). mnorm.
    unfold removeNode, modify. unfold mbind, M_bind, mret, M_ret.
    f_equal. f_equal.
    - rewrite <- list_fmap_compose. clear. generalize (S t).
      induction n as [|n IH]; intros i; [done|]. cbn. f_equal. apply IH.
    - rewrite <- list_fmap_compose.
      pose proof (set_markers_fill (seq (S t) n) [] (replicate n None)) as Hsm.
      cbn [app length] in Hsm.
      rewrite <- Hsm by (by rewrite length_seq, length_replicate).
      f_equal. clear. generalize (S t).
      induction n as [|n IH]; intros i; [done|]. cbn. f_equal. apply IH. }
  split.
  { rewrite children_of_detach, decide_True by done. rewrite Hch3.
    rewrite !filter_app, filter_cons, filter_nil, decide_False by auto.
    rewrite !filter_ne_notin; [by rewrite app_nil_r| |].
    - intros Hin%elem_of_seq. unfold t in Hin. lia.
    - intros Hin. apply Hold in Hin. unfold t in Hin. lia. }
  split.
  { intros m Hm%elem_of_seq. fold t in Hm.
    destruct (Hnew3 m) as (Hpm & Hkm & _); [unfold t in *; lia|].
    rewrite parent_of_detach, decide_False by (unfold t in *; lia).
    by rewrite kind_detach. }
  split.
  { intros m Hm. destruct (Hold3 m) as (Hpm & Hkm & Hcm); [unfold t; lia|].
    rewrite parent_of_detach, decide_False by (unfold t; lia).
    rewrite Hpm, HparC by (unfold t; lia). split; [done|].
    intros Hmp. rewrite children_of_detach, Hpt3.
    rewrite decide_False by (by intros [= ->]).
    rewrite Hcm by done. by apply HothC. }
  by rewrite all_listeners_detach, Hls3, HlsC.
Qed.
End multi_mount.

Section serialization_lemmas.
Variable parseHTML : string → list DTree.
Variable serializeHTML : list DTree → string.

(** X13. [BMulti.toString] on a block whose slots are empty or hold Text and
    Html blocks: the result is the concatenation, in slot order, of what
    the children serialize to, an empty slot giving nothing; the store and
    the block are left as they are. *)
Theorem BMulti_toString_concatenates (cs : list (option Block))
    (anchors : list (option nat)) (d : Dom) :
  Forall (λ c, from_option (λ b, is_Some (leaf_string d b)) True c) cs →
  toString parseHTML serializeHTML (BMulti cs anchors) d
  = Ok (fold_right String.append EmptyString
          ((λ c, default EmptyString (c ≫= leaf_string d)) <$> cs),
        BMulti cs anchors) d.
Proof.
  intros Hcs. cbn [toString].
  assert (∀ i,
            forM_from
              (λ (i : nat) c,
                 match c with
                 | Some c =>
                     '(s, c') ← toString parseHTML serializeHTML c;
                     mret (s, Some c')
                 | None => mret (EmptyString, None)
                 end) i cs d
            = Ok ((λ c, (default EmptyString (c ≫= leaf_string d), c)) <$> cs) d)
    as Hloop.
  { induction Hcs as [|c cs Hc _ IH]; intros i; [done|].
    rewrite forM_from_cons.
    assert (match c with
            | Some c0 =>
                '(s, c') ← toString parseHTML serializeHTML c0;
                mret (s, Some c')
            | None => mret (EmptyString, None)
            end d = Ok (default EmptyString (c ≫= leaf_string d), c) d) as E.
    { destruct c as [[html content a el|el| | |]|]; cbn in Hc;
        try (by destruct Hc); done. }
    rewrite (bind_eq _ _ _ _ _ E).
    by rewrite (bind_eq _ _ _ _ _ (IH (S i))). }
  rewrite (bind_eq _ _ _ _ _ (Hloop 0)). unfold mret, M_ret. f_equal.
  f_equal.
  - by rewrite <- list_fmap_compose.
  - f_equal. rewrite <- list_fmap_compose. apply list_fmap_id.
Qed.

(** X14. [BNode.toString] on a block without slots, in a closed store.
    Whenever the call returns (it does when the class has an empty update
    hook and the block no handlers), the block's element is a copy of the
    template made during the call, the only child of a scratch [div], and
    the string is the serialization of that copy; every node that was in
    the store keeps its parent, children and kind.  The block no longer
    refers to the element it had: [remove] then detaches the copy and
    leaves the older nodes as they are. *)
Theorem BNode_toString_rebuilds (oid : nat) (cls : NodeClass)
    (el : option nat) (anchors : option (list nat))
    (data : option (list string)) (handlers : option (list (string * nat)))
    (d : Dom) :
  closed d = true →
  (update_body cls = [] → handlers = None →
   ∃ r d', toString parseHTML serializeHTML
             (BNode oid cls el None anchors data handlers) d = Ok r d') ∧
  (∀ s b' d',
     toString parseHTML serializeHTML
       (BNode oid cls el None anchors data handlers) d = Ok (s, b') d' →
     b' = BNode oid cls (Some (S (S (length d)))) None anchors data handlers ∧
     children_of d' (length d) = [S (S (length d))] ∧
     parent_of d' (length d) = None ∧
     Rep d' (label (static_el cls) (S (S (length d)))) ∧
     s = serializeHTML (omap (readback (length d') d') [S (S (length d))]) ∧
     (∀ n, n < length d →
           parent_of d' n = parent_of d n ∧
           children_of d' n = children_of d n ∧
           nkind <$> d' !! n = nkind <$> d !! n) ∧
     ∃ d'',
       remove b' d' = Ok () d'' ∧
       parent_of d'' (S (S (length d))) = None ∧
       (∀ n, n < length d →
             parent_of d'' n = parent_of d n ∧
             children_of d'' n = children_of d n)).
Proof.
  intros Hcl.
  set (divn := new_node (KElement "div") None EmptyString [] []).
  set (dA := d ++ [divn]).
  assert (length dA = S (length d)) as HlenA
    by (unfold dA; rewrite length_app; cbn; lia).
  destruct (append_marker dA (length d)) as
    (dC & Happ & HlenC & Hpt & HchC & HparC & HothC & HkC & HleafC & HtxC & HlsC);
    [lia|].
  rewrite HlenA in *.
  set (t := S (length d)) in *.
  assert (children_of dA (length d) = []) as HchA
    by (unfold dA; by rewrite children_of_app, decide_True).
  assert (parent_of dA (length d) = None) as HpA
    by (unfold dA; by rewrite parent_of_app, decide_True).
  rewrite HchA in HchC. cbn [app] in HchC.
  assert (up_closed t dC) as Hup.
  { intros n q Hn. rewrite HparC by lia.
    destruct (decide (n = length d)) as [->|Hne]; [by rewrite HpA|].
    unfold dA. rewrite parent_of_app_lt by (unfold t in Hn; lia).
    intros Hq. apply (closed_parent _ _ _ Hcl) in Hq. unfold t. lia. }
  assert (∀ el0 o d1,
            BNode_build oid cls false anchors data handlers dC
              = Ok (el0, o) d1 →
            el0 = S t ∧ o = anchors ∧
            ∃ d2,
              before (Some t) (S t) d1 = Ok () d2 ∧
              length d2 = length d1 ∧ S t < length d1 ∧
              Rep d2 (label (static_el cls) (S t)) ∧
              parent_of d2 (S t) = Some (length d) ∧
              children_of d2 (length d) = [S t; t] ∧
              (∀ n, n < S t →
                    parent_of d2 n = parent_of dC n ∧
                    nkind <$> d2 !! n = nkind <$> dC !! n ∧
                    (n ≠ length d → children_of d2 n = children_of dC n)))
    as Hmain.
  { intros el0 o d1 Hb.
    pose proof (BNode_slotless_place t oid cls anchors data handlers t
                  (length d) [] [] dC el0 o d1 Hup) as H.
    rewrite HlenC in H. apply H; try done; unfold t; try lia.
    apply not_elem_of_nil. }
  assert (∀ d2,
            (∀ n, n < S t →
                  parent_of d2 n = parent_of dC n ∧
                  nkind <$> d2 !! n = nkind <$> dC !! n ∧
                  (n ≠ length d → children_of d2 n = children_of dC n)) →
            ∀ n, n < length d →
                 parent_of d2 n = parent_of d n ∧
                 children_of d2 n = children_of d n ∧
                 nkind <$> d2 !! n = nkind <$> d !! n) as Hframe.
  { intros d2 Hold n Hn. destruct (Hold n) as (Hp & Hk & Hc); [unfold t; lia|].
    rewrite Hp, Hk, Hc by lia.
    rewrite HparC, HothC, HkC by (unfold t; lia).
    unfold dA. rewrite parent_of_app_lt, children_of_app_lt, lookup_app_l
      by done. done. }
  assert (∀ b1 d1,
            mount parseHTML (BNode oid cls el None anchors data handlers)
                  (length d) dA = Ok b1 d1 →
            b1 = BNode oid cls (Some (S t)) None anchors data handlers ∧
            children_of d1 (length d) = [S t] ∧
            parent_of d1 (length d) = None ∧
            Rep d1 (label (static_el cls) (S t)) ∧
            parent_of d1 (S t) = Some (length d) ∧
            (∀ n, n < length d →
                  parent_of d1 n = parent_of d n ∧
                  children_of d1 n = children_of d n ∧
                  nkind <$> d1 !! n = nkind <$> d !! n)) as Hmount.
  { intros b1 d1 Hm. unfold mount in Hm.
    rewrite (bind_eq _ _ _ _ _ (createTextNode_eq _ dA)) in Hm.
    rewrite HlenA in Hm. fold t in Hm.
    rewrite (bind_eq _ _ _ _ _ Happ) in Hm. cbv beta in Hm.
    apply bind_Ok in Hm as (b2 & d2 & Hm & Hrm).
    apply bind_Ok in Hrm as ([] & d3 & [= <-] & [= <- <-]).
    cbn [mountBefore] in Hm.
    change (bool_decide (is_Some (@None (list (option Block))))) with false
      in Hm.
    apply bind_Ok in Hm as ([el0 o] & d4 & Hb & Hm).
    apply bind_Ok in Hm as (c & d5 & [= <- <-] & Hm).
    apply bind_Ok in Hm as ([] & d6 & Hb6 & [= <- <-]).
    destruct (Hmain _ _ _ Hb)
      as (-> & -> & d7 & Hb7 & Hlen7 & Hlt7 & HR & Hpe & Hch7 & Hold).
    rewrite Hb7 in Hb6. injection Hb6 as <-.
    assert (parent_of d7 t = Some (length d)) as Hpt7.
    { destruct (Hold t) as (-> & _); [lia|done]. }
    split; [done|]. split.
    { rewrite children_of_detach, decide_True by done. rewrite Hch7.
      rewrite !filter_cons, filter_nil.
      rewrite decide_True by lia. by rewrite decide_False by auto. }
    split.
    { rewrite parent_of_detach, decide_False by (unfold t; lia).
      destruct (Hold (length d)) as (-> & _); [unfold t; lia|].
      rewrite HparC by (unfold t; lia). done. }
    split.
    { assert (∀ i, i ∈ ids (label (static_el cls) (S t)) → S t ≤ i) as Hge.
      { intros i. rewrite ids_label. intros Hi%elem_of_seq. lia. }
      apply (Rep_ext d7); [|done]. intros i Hi. apply Hge in Hi.
      unfold detach. rewrite Hpt7. unfold set_parent, set_children.
      rewrite !list_lookup_alter_ne by (unfold t in *; lia). done. }
    split.
    { rewrite parent_of_detach, decide_False by lia. done. }
    intros n Hn. rewrite parent_of_detach, decide_False by (unfold t; lia).
    rewrite children_of_detach, Hpt7, kind_detach.
    rewrite decide_False by (intros [= Heq]; lia).
    by apply Hframe. }
  split.
  - intros Hu ->.
    destruct (BNode_build_static oid cls anchors data dC Hu) as (d1 & Hb).
    rewrite HlenC in Hb. fold t in Hb.
    destruct (Hmain _ _ _ Hb) as (_ & _ & d2 & Hb2 & _).
    eexists _, _. cbn [toString].
    unfold createElement, alloc. fold divn. fold dA.
    unfold mbind at 1, M_bind at 1. cbv beta iota.
    unfold mount. rewrite bind_assoc.
    rewrite (bind_eq _ _ _ _ _ (createTextNode_eq _ dA)).
    rewrite HlenA. fold t. mnorm.
    rewrite (bind_eq _ _ _ _ _ Happ). cbv beta.
    cbn [mountBefore].
    change (bool_decide (is_Some (@None (list (option Block))))) with false.
    mnorm. rewrite (bind_eq _ _ _ _ _ Hb). cbv beta iota. mnorm.
    rewrite (bind_eq _ _ _ _ _ Hb2). cbv beta. mnorm.
    unfold removeNode, modify, innerHTML, gets, mbind, M_bind, mret, M_ret.
    reflexivity.
  - intros s b' d' H. cbn [toString] in H.
    unfold createElement, alloc in H. fold divn in H. fold dA in H.
    unfold mbind at 1, M_bind at 1 in H. cbv beta iota in H.
    apply bind_Ok in H as (b1 & d1 & Hm & H).
    apply bind_Ok in H as (s' & d2 & [= <- <-] & [= <- <- <-]).
    destruct (Hmount _ _ Hm) as (-> & Hch1 & Hp1 & HR1 & Hpe1 & Hold1).
    split; [done|]. split; [done|]. split; [done|]. split; [done|].
    split; [by rewrite Hch1|]. split; [done|].
    exists (detach (S t) d1). split; [by rewrite remove_outcome|].
    split; [by rewrite parent_of_detach, decide_True|].
    intros n Hn. destruct (Hold1 n Hn) as (Hp & Hc & _).
    rewrite parent_of_detach, decide_False by (unfold t; lia).
    rewrite children_of_detach, Hpe1.
    rewrite decide_False by (intros [= Heq]; lia). done.
Qed.
End serialization_lemmas.

Section listener_ownership.
Variable parseHTML : string → list DTree.

(** X15. Listeners and the three operations, for any block [b]: [remove]
    drops no listener and adds none; [mountBefore] leaves alone the
    listeners of every object that is not a Node block of [b]; [patch]
    leaves alone the listeners of every object that is not a Node block of
    the successor, those of [b] itself included. *)
Theorem listeners_follow_node_blocks (b : Block) :
  (∀ d d', remove b d = Ok () d' → all_listeners d' = all_listeners d) ∧
  (∀ o i a d b' d',
     o ∉ oids b → mountBefore parseHTML b a d = Ok b' d' →
     registrations o i d' = registrations o i d) ∧
  (∀ o i other d b' d',
     o ∉ oids other → patch parseHTML b other d = Ok b' d' →
     registrations o i d' = registrations o i d).
Proof.
  split; [|split].
  - intros d d' H. by apply (keeps_remove b d () d').
  - intros o i a d b' d' Ho H.
    by apply (keeps_mountBefore parseHTML o i b Ho a d b' d').
  - intros o i other d b' d' Ho H.
    by apply (keeps_patch parseHTML o i b other Ho d b' d').
Qed.
End listener_ownership.

(** * Mounted trees of Node blocks *)

Section stability.
Implicit Types (d : Dom) (b : Block).

Lemma marker_at_lt d m : marker_at d m → m < length d.
Proof.
  intros [Hk _]. destruct (d !! m) eqn:E; [|done].
  by apply lookup_lt_Some in E.
Qed.

Lemma marker_not_element d m : marker_at d m → is_element d m = false.
Proof. intros [Hk _]. unfold is_element. by rewrite Hk. Qed.

Lemma stable_refl d : stable d d.
Proof. split; [done|]. split; [done|]. by intros m [_ Ha]. Qed.

Lemma marker_at_stable d d' m : stable d d' → marker_at d m → marker_at d' m.
Proof.
  intros (_ & Hk & Hm) Hma. split; [|by apply Hm].
  rewrite Hk; [apply Hma|by apply marker_at_lt].
Qed.

Lemma stable_trans d1 d2 d3 : stable d1 d2 → stable d2 d3 → stable d1 d3.
Proof.
  intros H12 H23.
  pose proof H12 as (Hl & Hk & Hm). pose proof H23 as (Hl' & Hk' & Hm').
  split; [lia|]. split.
  - intros n Hn. rewrite Hk' by lia. by apply Hk.
  - intros m Hma. pose proof (marker_at_stable _ _ _ H12 Hma) as Hma2.
    destruct (Hm m Hma) as [Hp _]. destruct (Hm' m Hma2) as [Hp' Ha'].
    split; [congruence|done].
Qed.

Lemma is_element_stable d d' e :
  stable d d' → is_element d e = true → is_element d' e = true.
Proof.
  intros (_ & Hk & _) He. pose proof (is_element_lt _ _ He) as Hlt.
  unfold is_element in *. by rewrite Hk.
Qed.

(** A store that keeps the kind, the parent and the children of every
    old node. *)
Lemma stable_frame d d' :
  length d ≤ length d' →
  (∀ n, n < length d →
        nkind <$> d' !! n = nkind <$> d !! n ∧
        parent_of d' n = parent_of d n ∧
        children_of d' n = children_of d n) →
  stable d d'.
Proof.
  intros Hl Hold. split; [done|]. split; [intros n Hn; by apply Hold|].
  intros m Hma. pose proof (marker_at_lt _ _ Hma) as Hm.
  destruct Hma as [_ (p & Hp & Hin)].
  destruct (Hold m Hm) as (_ & Hpm & _). split; [done|].
  exists p. split; [congruence|].
  assert (p < length d) as Hplt.
  { unfold children_of in Hin. destruct (d !! p) eqn:E.
    - by apply lookup_lt_Some in E.
    - by apply elem_of_nil in Hin. }
  destruct (Hold p Hplt) as (_ & _ & ->). done.
Qed.

Lemma length_skeleton d : length (skeleton d) = length d.
Proof. unfold skeleton. by rewrite length_fmap. Qed.

Lemma stable_skeleton d d' : skeleton d' = skeleton d → stable d d'.
Proof.
  intros Hs. apply stable_frame.
  - rewrite <- (length_skeleton d), <- (length_skeleton d'), Hs. done.
  - intros n _. by apply skeleton_lookup.
Qed.

Lemma closed_skeleton d d' :
  skeleton d' = skeleton d →
  up_closed (length d) d → up_closed (length d') d'.
Proof.
  intros Hs Hc n q.
  rewrite <- (length_skeleton d'), Hs, length_skeleton.
  destruct (skeleton_lookup d d' n Hs) as (_ & -> & _). apply Hc.
Qed.

Lemma stable_app d ext : stable d (d ++ ext).
Proof.
  apply stable_frame; [rewrite length_app; lia|].
  intros n Hn. rewrite lookup_app_l by done.
  by rewrite parent_of_app_lt, children_of_app_lt.
Qed.

Lemma stable_detach d e : is_element d e = true → stable d (detach e d).
Proof.
  intros He. split; [by rewrite length_detach|].
  split; [intros n _; apply kind_detach|].
  intros m Hma.
  assert (e ≠ m) as Hne.
  { intros ->. apply marker_not_element in Hma. congruence. }
  destruct Hma as [_ (p & Hp & Hin)].
  unfold attached. rewrite parent_of_detach, decide_False by done.
  split; [done|].
  exists p. split; [done|]. rewrite children_of_detach.
  destruct (decide _); [|done].
  apply list_elem_of_filter. split; [congruence|done].
Qed.

Lemma closed_detach d e :
  up_closed (length d) d → up_closed (length (detach e d)) (detach e d).
Proof.
  intros Hc n q. rewrite length_detach, parent_of_detach.
  destruct (decide _); [done|]. apply Hc.
Qed.

Lemma elem_of_insert_before_old a e x (l : list nat) :
  x ∈ l → x ∈ insert_before a e l.
Proof.
  induction l as [|y l IH]; [done|]. cbn [insert_before].
  intros [->|Hin]%elem_of_cons.
  - destruct (decide _).
    + apply elem_of_cons. right. apply elem_of_cons. by left.
    + apply elem_of_cons. by left.
  - destruct (decide _).
    + apply elem_of_cons. right. apply elem_of_cons. by right.
    + apply elem_of_cons. right. by apply IH.
Qed.

Lemma elem_of_replace_in_old x e y (l : list nat) :
  y ∈ l → y ≠ x → y ∈ replace_in x e l.
Proof.
  intros Hin Hne. induction l as [|z l IH]; [done|]. cbn [replace_in].
  apply elem_of_cons in Hin as [->|Hin].
  - rewrite decide_False by done. apply elem_of_cons. by left.
  - destruct (decide _).
    + apply elem_of_cons. by right.
    + apply elem_of_cons. right. by apply IH.
Qed.

Lemma elem_of_replace_in_new x e (l : list nat) :
  x ∈ l → e ∈ replace_in x e l.
Proof.
  induction l as [|z l IH]; [by intros ?%elem_of_nil|]. cbn [replace_in].
  intros Hin. destruct (decide (z = x)) as [->|Hne].
  - apply elem_of_cons. by left.
  - apply elem_of_cons. right. apply IH.
    apply elem_of_cons in Hin as [->|Hin]; done.
Qed.

Lemma parent_lt d n q : parent_of d n = Some q → n < length d.
Proof.
  unfold parent_of. destruct (d !! n) eqn:E; [|done].
  intros _. by apply lookup_lt_Some in E.
Qed.

Lemma stable_before a e d d' :
  is_element d e = true → before a e d = Ok () d' → stable d d'.
Proof.
  intros He. unfold before. destruct a as [a|]; [|done].
  destruct (parent_of d a) as [p|] eqn:Hp;
    [|intros [= <-]; apply stable_refl].
  destruct (hierarchy_violation d e p); [done|].
  destruct (decide (e = a)); [intros [= <-]; apply stable_refl|].
  intros [= <-].
  split; [by rewrite length_place_before|].
  split; [intros m _; apply kind_place_before|].
  intros m Hma.
  assert (e ≠ m) as Hne.
  { intros ->. apply marker_not_element in Hma. congruence. }
  destruct (proj2 (proj2 (stable_detach d e He)) m Hma)
    as [Hpm (q & Hq & Hin)].
  rewrite parent_of_place_before, decide_False by done.
  rewrite parent_of_detach, decide_False in Hpm, Hq by done.
  split; [done|]. exists q.
  rewrite parent_of_place_before, decide_False by done.
  split; [done|]. unfold place_before.
  rewrite children_of_set_parent, children_of_set_children.
  destruct (decide _) as [[<- _]|]; [|done].
  by apply elem_of_insert_before_old.
Qed.

Lemma closed_before a e d d' :
  up_closed (length d) d → before a e d = Ok () d' →
  up_closed (length d') d'.
Proof.
  intros Hc. unfold before. destruct a as [a|]; [|done].
  destruct (parent_of d a) as [p|] eqn:Hp; [|by intros [= <-]].
  destruct (hierarchy_violation d e p); [done|].
  destruct (decide (e = a)); [by intros [= <-]|].
  intros [= <-]. intros i q. rewrite length_place_before.
  rewrite parent_of_place_before. intros Hn.
  destruct (decide (e = i)) as [->|]; [|by apply Hc].
  rewrite decide_True by done. intros [= <-].
  apply (Hc a); [|done]. by apply parent_lt in Hp.
Qed.

Lemma stable_replaceWith x e d d' :
  is_element d x = true → parent_of d e = None →
  replaceWith x e d = Ok () d' → stable d d'.
Proof.
  intros Hx He. unfold replaceWith.
  destruct (parent_of d x) as [p|] eqn:Hp;
    [|intros [= <-]; apply stable_refl].
  destruct (hierarchy_violation d e p); [done|].
  destruct (decide (e = x)); [intros [= <-]; apply stable_refl|].
  rewrite (detach_orphan _ _ He). intros [= <-].
  split; [by rewrite !length_set_parent, length_set_children|].
  split.
  { intros m _. unfold set_parent, set_children. by rewrite !kind_alter. }
  intros m Hma.
  assert (x ≠ m) as Hxm.
  { intros ->. apply marker_not_element in Hma. congruence. }
  destruct Hma as [_ (q & Hq & Hin)].
  assert (e ≠ m) as Hem by (intros ->; congruence).
  assert (parent_of
            (set_parent x None
               (set_parent e (Some p)
                  (set_children p (replace_in x e (children_of d p)) d))) m
          = parent_of d m) as Hpm.
  { rewrite !parent_of_set_parent, parent_of_set_children.
    rewrite !decide_False; [done|by intros [? _]..]. }
  split; [done|]. exists q. split; [congruence|].
  rewrite !children_of_set_parent, children_of_set_children.
  destruct (decide _) as [[<- _]|]; [|done].
  apply elem_of_replace_in_old; [done|congruence].
Qed.

Lemma closed_replaceWith x e d d' :
  up_closed (length d) d → replaceWith x e d = Ok () d' →
  up_closed (length d') d'.
Proof.
  intros Hc. unfold replaceWith.
  destruct (parent_of d x) as [p|] eqn:Hp; [|by intros [= <-]].
  destruct (hierarchy_violation d e p); [done|].
  destruct (decide (e = x)); [by intros [= <-]|].
  intros [= <-]. intros i q.
  rewrite !length_set_parent, length_set_children, length_detach.
  rewrite !parent_of_set_parent, parent_of_set_children, parent_of_detach.
  rewrite !length_set_parent, length_set_children, length_detach.
  intros Hn. destruct (decide (x = i ∧ _)); [done|].
  destruct (decide (e = i ∧ _)) as [[-> _]|].
  - intros [= <-]. apply (Hc x); [|done]. by apply parent_lt in Hp.
  - destruct (decide (e = i)); [done|]. by apply Hc.
Qed.

Lemma closed_alloc k s attrs classes d :
  up_closed (length d) d →
  up_closed (length (d ++ [new_node k None s attrs classes]))
            (d ++ [new_node k None s attrs classes]).
Proof.
  intros Hc n q. rewrite length_app. cbn. intros Hn.
  destruct (decide (n < length d)) as [Hlt|Hge].
  - rewrite parent_of_app_lt by done. intros Hq.
    pose proof (Hc n q Hlt Hq). lia.
  - assert (n = length d) as -> by lia.
    unfold parent_of. by rewrite list_lookup_middle.
Qed.
End stability.

Section rounds.
Context {A B : Type}.
Implicit Types (E : nat → A → Dom → B → Dom → Prop).

(** A loop whose rounds keep an invariant and each have the effect [E]. *)
Lemma forM_from_rounds (f : nat → A → M B) (I : Dom → Prop) E l :
  ∀ i0,
    (∀ j x d r d', l !! j = Some x → I d → f (i0 + j) x d = Ok r d' →
                   I d' ∧ E (i0 + j) x d r d') →
    ∀ d rs d', I d → forM_from f i0 l d = Ok rs d' →
               I d' ∧ rounds E i0 l d rs d'.
Proof.
  induction l as [|x l IH]; intros i0 Hstep d rs d' HI H.
  { injection H as <- <-. done. }
  rewrite forM_from_cons in H.
  apply bind_Ok in H as (r & d1 & Hr & H).
  apply bind_Ok in H as (rs' & d2 & Hrs & [= <- <-]).
  destruct (Hstep 0 x d r d1) as [HI1 HE]; [done|done| |].
  { by rewrite Nat.add_0_r. }
  rewrite Nat.add_0_r in HE.
  destruct (IH (S i0)) with (d := d1) (rs := rs') (d' := d2)
    as [HI2 Hrounds]; [|done|done|].
  { intros j y e r' e' Hj HIe Hf.
    replace (S i0 + j) with (i0 + S j) in * by lia.
    by apply (Hstep (S j)). }
  split; [done|]. cbn [rounds]. by exists d1.
Qed.

Lemma rounds_impl E E' i l d rs d' :
  (∀ i x d r d', E i x d r d' → E' i x d r d') →
  rounds E i l d rs d' → rounds E' i l d rs d'.
Proof.
  intros Himp. revert i d rs.
  induction l as [|x l IH]; intros i d [|r rs]; cbn [rounds]; try done.
  intros (d1 & HE & H). exists d1. split; [by apply Himp|by apply IH].
Qed.

Lemma rounds_length E i l d rs d' :
  rounds E i l d rs d' → length rs = length l.
Proof.
  revert i d rs.
  induction l as [|x l IH]; intros i d [|r rs]; cbn [rounds]; try done.
  intros (d1 & _ & H). cbn. f_equal. by eapply IH.
Qed.

Lemma rounds_stable E i l d rs d' :
  (∀ i x d r d', E i x d r d' → stable d d') →
  rounds E i l d rs d' → stable d d'.
Proof.
  intros Hst. revert i d rs.
  induction l as [|x l IH]; intros i d [|r rs]; cbn [rounds]; try done.
  - intros ->. apply stable_refl.
  - intros (d1 & HE & H). eapply stable_trans; [by eapply Hst|by eapply IH].
Qed.

Lemma rounds_Forall E (Q : B → Prop) i l d rs d' :
  (∀ i x d r d', E i x d r d' → Q r) →
  rounds E i l d rs d' → Forall Q rs.
Proof.
  intros HQ. revert i d rs.
  induction l as [|x l IH]; intros i d [|r rs]; cbn [rounds]; try done.
  intros (d1 & HE & H). apply Forall_cons.
  split; [by eapply HQ|by eapply IH].
Qed.
End rounds.

Section node_tree_shape.
Implicit Types (d : Dom) (b : Block).

Lemma node_tree_eq oid cls el children anchors data handlers :
  node_tree (BNode oid cls el children anchors data handlers) =
  is_TElem (static_el cls) &&
  match children with
  | None => true
  | Some cs =>
      bool_decide (length cs = placeholders (static_el cls)) &&
      forallb (from_option node_tree true) cs
  end.
Proof.
  cbn [node_tree]. by destruct children as [cs|].
Qed.

Lemma node_tree_BNode b :
  node_tree b = true →
  ∃ oid cls el children anchors data handlers,
    b = BNode oid cls el children anchors data handlers.
Proof. destruct b; try done. intros _. by eexists _, _, _, _, _, _, _. Qed.

Lemma node_tree_child cs (c : Block) :
  forallb (from_option node_tree true) cs = true →
  Some c ∈ cs → node_tree c = true.
Proof.
  rewrite forallb_forall. intros H Hin.
  by apply list_elem_of_In, H in Hin.
Qed.

Lemma node_tree_js_get ncs i (n : Block) :
  forallb (from_option node_tree true) ncs = true →
  js_get ncs i = Some n → node_tree n = true.
Proof.
  intros H. unfold js_get. destruct (ncs !! i) as [o|] eqn:E; [|done].
  cbn. intros ->. apply (node_tree_child ncs); [done|].
  by apply list_elem_of_lookup_2 in E.
Qed.

Lemma mounted_eq oid cls el children anchors data handlers d :
  mounted d (BNode oid cls el children anchors data handlers) ↔
  (∃ e, el = Some e ∧ is_element d e = true) ∧
  match children with
  | None => True
  | Some cs =>
      ∃ ms, anchors = Some ms ∧ length ms = length cs ∧
            Forall (marker_at d) ms ∧
            Forall (from_option (mounted d) True) cs
  end.
Proof.
  cbn [mounted]. destruct children as [cs|]; [|done].
  apply and_iff_compat_l.
  split; intros (ms & Ha & Hl & Hm & H); exists ms;
    (split; [done|]); (split; [done|]); (split; [done|]); clear Hl;
    revert H; induction cs as [|c cs IH]; intros H.
  - done.
  - destruct H as [Hc H]. apply Forall_cons. split; [by destruct c|].
    by apply IH.
  - done.
  - apply Forall_cons in H as [Hc H]. split; [by destruct c|]. by apply IH.
Qed.

Lemma mounted_stable d d' b : stable d d' → mounted d b → mounted d' b.
Proof.
  intros Hst.
  induction b as [| |oid cls el children anchors data handlers IH| |]
    using Block_nested_ind; try done.
  rewrite !mounted_eq. intros [(e & -> & He) Hcs]. split.
  { exists e. split; [done|]. by apply (is_element_stable d). }
  destruct children as [cs|]; [|done].
  destruct Hcs as (ms & -> & Hlen & Hms & Hcs).
  exists ms. split; [done|]. split; [done|]. split.
  - eapply Forall_impl; [exact Hms|]. intros m. by apply marker_at_stable.
  - cbn [default] in IH. apply Forall_forall. intros c Hin.
    pose proof (proj1 (Forall_forall _ _) IH c Hin) as Hc.
    pose proof (proj1 (Forall_forall _ _) Hcs c Hin) as Hc'.
    destruct c; [by apply Hc|done].
Qed.

Lemma rounds_mounted {A} (E : nat → A → Dom → option Block → Dom → Prop)
    i l d rs d' :
  (∀ i x d r d', E i x d r d' →
                 stable d d' ∧ from_option (mounted d') True r) →
  rounds E i l d rs d' → Forall (from_option (mounted d') True) rs.
Proof.
  intros HE. revert i d rs.
  induction l as [|x l IH]; intros i d [|r rs]; cbn [rounds]; try done.
  intros (d1 & H1 & H). apply Forall_cons. split; [|by eapply IH].
  destruct (HE _ _ _ _ _ H1) as [_ Hr].
  assert (stable d1 d') as Hst.
  { eapply rounds_stable; [|exact H]. intros. by eapply HE. }
  destruct r; [by apply (mounted_stable d1)|done].
Qed.

Lemma same_shape_lookup oid cls el cs anchors data handlers other ncs :
  same_shape (BNode oid cls el (Some cs) anchors data handlers) other = true →
  block_children other = Some ncs →
  length ncs = length cs ∧
  ∀ i c n, cs !! i = Some (Some c) → js_get ncs i = Some n →
           same_shape c n = true.
Proof.
  cbn [same_shape]. intros H Hncs. rewrite Hncs in H.
  apply andb_true_iff in H as [Hlen H].
  apply bool_decide_eq_true in Hlen. split; [done|]. clear Hlen Hncs.
  revert ncs H. induction cs as [|c0 cs IH]; intros ncs H i c n Hc Hn;
    [done|].
  destruct ncs as [|n0 ncs]; [by destruct i|].
  apply andb_true_iff in H as [H0 H]. destruct i as [|i].
  - cbn in Hc, Hn. by simplify_eq.
  - by apply (IH ncs H i).
Qed.

Lemma same_shape_None oid cls el cs anchors data handlers other :
  block_children other = None →
  same_shape (BNode oid cls el (Some cs) anchors data handlers) other
  = false.
Proof. cbn [same_shape]. by intros ->. Qed.
End node_tree_shape.

Section node_build.
Implicit Types (d : Dom).

(** In a tree the store holds, a node other than the root is in the child
    list of its parent, a node of the tree. *)
Lemma child_in_tree d T i :
  Rep d T → i ∈ ids T → i ≠ root_id T →
  ∃ p, parent_of d i = Some p ∧ p ∈ ids T ∧ i ∈ children_of d p.
Proof.
  induction T as [n k kids IH] using ITree_nested_ind.
  rewrite Rep_eq, ids_eq. cbn [root_id].
  intros (_ & Hc & Hkids) [->|Hi]%elem_of_cons Hne; [done|].
  apply elem_of_concat in Hi as (l & Hi & Hl).
  apply list_elem_of_fmap in Hl as (kid & -> & Hkid).
  apply (proj1 (Forall_forall _ _) Hkids) in Hkid as HRk.
  destruct HRk as [Hp HRk].
  assert (ids kid ∈ ids <$> kids) as Hin
    by (apply list_elem_of_fmap; by exists kid).
  destruct (decide (i = root_id kid)) as [->|Hnr].
  - exists n. split; [done|]. split; [apply elem_of_cons; by left|].
    rewrite Hc. apply list_elem_of_fmap. by exists kid.
  - destruct (proj1 (Forall_forall _ _) IH kid Hkid HRk Hi Hnr)
      as (p & Hpp & Hpin & Hch).
    exists p. split; [done|]. split; [|done]. apply elem_of_cons. right.
    apply elem_of_concat. by exists (ids kid).
Qed.

Lemma collect_tag_element fuel :
  ∀ d tag n x, x ∈ collect_tag fuel d tag n → is_element d x = true.
Proof.
  induction fuel as [|f IH]; intros d tag n x; cbn [collect_tag];
    [by intros ?%elem_of_nil|].
  destruct (d !! n) as [y|] eqn:E; [|by intros ?%elem_of_nil].
  intros [Hx|Hx]%elem_of_app.
  - destruct (has_tag tag y) eqn:Ht; [|by apply elem_of_nil in Hx].
    apply list_elem_of_singleton in Hx as ->.
    unfold is_element. rewrite E. cbn. unfold has_tag in Ht.
    by destruct (nkind y).
  - apply list_elem_of_In, in_flat_map in Hx as (c & _ & Hx).
    apply list_elem_of_In in Hx. by eapply IH.
Qed.

(** The live collection holds elements. *)
Lemma live_collection_element d el tag x :
  x ∈ live_collection d el tag → is_element d x = true.
Proof.
  unfold live_collection. intros Hx.
  apply list_elem_of_In, in_flat_map in Hx as (c & _ & Hx).
  apply list_elem_of_In in Hx. by eapply collect_tag_element.
Qed.

(** [cloneNode] appends a detached copy of the template. *)
Lemma cloneNode_facts t d el d' :
  up_closed (length d) d → cloneNode t d = Ok el d' →
  el = length d ∧ length d' = length d + tsize t ∧
  up_closed (length d') d' ∧ Rep d' (label t el) ∧
  parent_of d' el = None ∧ (∀ i, i < length d → d' !! i = d !! i).
Proof.
  intros Hc.
  destruct (instantiate_spec t None d) as (ext & Hi & Hlext & HR & Hp & _).
  unfold cloneNode. rewrite Hi. intros [= <- <-].
  split; [done|]. split; [rewrite length_app; lia|].
  split; [|split; [done|split; [done|]]].
  - intros n q Hn Hq. rewrite length_app in *.
    destruct (decide (n < length d)) as [Hlt|Hge].
    + rewrite parent_of_app_lt in Hq by done.
      pose proof (Hc n q Hlt Hq). lia.
    + assert (n ∈ ids (label t (length d))) as Hin.
      { rewrite ids_label. apply elem_of_seq. lia. }
      destruct (decide (n = length d)) as [->|Hne]; [congruence|].
      destruct (parent_in_tree _ _ n HR Hin) as (p & Hpp & Hpin).
      { by rewrite root_id_label. }
      rewrite Hq in Hpp. injection Hpp as <-.
      pose proof (proj1 (Forall_forall _ _) (Rep_ids_lt _ _ HR) _ Hpin)
        as Hlt.
      by rewrite length_app in Hlt.
  - intros i Hi'. by rewrite lookup_app_l.
Qed.

(** [x.replaceWith(e)] for a detached text node [e]: it takes the place
    of [x]. *)
Lemma replaceWith_marker x e q d d' :
  parent_of d x = Some q → x ∈ children_of d q →
  nkind <$> d !! e = Some KText → parent_of d e = None → e ≠ x →
  replaceWith x e d = Ok () d' →
  marker_at d' e ∧ parent_of d' e = Some q.
Proof.
  intros Hq Hin Hk He Hne. unfold replaceWith. rewrite Hq.
  destruct (hierarchy_violation d e q); [done|].
  rewrite decide_False by done.
  rewrite (detach_orphan _ _ He). intros [= <-].
  assert (e < length d) as Hlt.
  { destruct (d !! e) eqn:E; [by apply lookup_lt_Some in E|done]. }
  assert (q < length d) as Hqlt.
  { unfold children_of in Hin. destruct (d !! q) eqn:E.
    - by apply lookup_lt_Some in E.
    - by apply elem_of_nil in Hin. }
  assert (parent_of
            (set_parent x None
               (set_parent e (Some q)
                  (set_children q (replace_in x e (children_of d q)) d))) e
          = Some q) as Hpe.
  { rewrite !parent_of_set_parent, length_set_parent, !length_set_children.
    rewrite decide_False by (intros [? _]; congruence).
    by rewrite decide_True. }
  split; [|done]. split.
  - unfold set_parent, set_children. by rewrite !kind_alter.
  - exists q. split; [done|].
    rewrite !children_of_set_parent, children_of_set_children.
    rewrite decide_True by done. by apply elem_of_replace_in_new.
Qed.

(** Whenever the loop of [BNode.build] returns, every marker it made is a
    text node in the child list of a node of the clone, and the older
    text nodes are where they were. *)
Lemma replace_anchors_facts n :
  ∀ d T lo ms d',
    Rep d T → NoDup (ids T) → (∀ i, i ∈ ids T → lo ≤ i) → lo ≤ length d →
    up_closed (length d) d →
    replace_anchors (root_id T) n d = Ok ms d' →
    stable d d' ∧ up_closed (length d') d' ∧
    Forall (λ j, marker_at d' j ∧ ∃ q, parent_of d' j = Some q ∧ lo ≤ q)
           ms ∧
    parent_of d' (root_id T) = parent_of d (root_id T) ∧
    (∀ i, i < length d → i ∉ ids T → d' !! i = d !! i).
Proof.
  induction n as [|n IH]; intros d T lo ms d' HR Hnd Hlo Hlen Hc H.
  { injection H as <- <-. split; [apply stable_refl|]. by repeat split. }
  cbn [replace_anchors] in H.
  rewrite (bind_eq _ _ _ _ _ (createTextNode_eq _ _)) in H.
  apply bind_Ok in H as (first & d1' & [= <- <-] & H).
  set (d1 := d ++ [new_node KText None EmptyString [] []]) in *.
  destruct (live_collection _ _ _ !! 0) as [x|] eqn:Hfirst; [|done].
  apply bind_Ok in H as ([] & d2 & Hrep & H).
  apply bind_Ok in H as (ms' & d3 & Hrun & [= <- <-]).
  assert (Rep d1 T) as HR1 by (by apply Rep_app).
  assert (is_element d1 x = true) as Hxel.
  { apply (live_collection_element d1 (root_id T) anchor_tag).
    by apply list_elem_of_lookup_2 in Hfirst. }
  rewrite live_collection_Rep in Hfirst by done.
  destruct (placeholder_ids T) as [|x' rest] eqn:Hph; [done|].
  injection Hfirst as ->.
  destruct (replace_round d T x rest HR Hnd Hph)
    as (d2' & _ & Hrep' & Hlen2 & HR2 & Hnd2 & _ & Hpr2 & Hfr2).
  fold d1 in Hrep'. rewrite Hrep' in Hrep. injection Hrep as <-.
  assert (x ∈ placeholder_ids T) as Hx.
  { rewrite Hph. apply elem_of_cons. by left. }
  destruct (placeholder_in_ids _ _ Hnd Hx) as [Hxin Hxroot].
  destruct (child_in_tree d1 T x HR1 Hxin Hxroot) as (q & Hq & Hqin & Hxq).
  assert (d1 !! length d = Some (new_node KText None EmptyString [] []))
    as Hm1 by (unfold d1; by apply list_lookup_middle).
  assert (length d ≠ x) as Hmx.
  { intros <-.
    pose proof (proj1 (Forall_forall _ _) (Rep_ids_lt _ _ HR) _ Hxin)
      as Hlt.
    cbv beta in Hlt. lia. }
  assert (parent_of d1 (length d) = None) as Hpm1.
  { unfold parent_of. by rewrite Hm1. }
  destruct (replaceWith_marker x (length d) q d1 d2') as [Hma Hpm];
    try done.
  { by rewrite Hm1. }
  assert (stable d d2') as Hst2.
  { eapply stable_trans; [apply stable_app|].
    by eapply (stable_replaceWith x (length d)). }
  assert (up_closed (length d2') d2') as Hc2.
  { eapply closed_replaceWith; [|exact Hrep']. by apply closed_alloc. }
  rewrite <- (root_id_subst x (length d) T) in Hrun.
  destruct (IH d2' (subst x (length d) T) lo ms' d3)
    as (Hst' & Hc' & Hms' & Hpr' & Hfr'); try done.
  { intros i [Hi|[-> _]]%ids_subst_elem; [by apply Hlo|done]. }
  { lia. }
  rewrite root_id_subst in Hpr'.
  split; [by eapply stable_trans|]. split; [done|]. split; [|split].
  - apply Forall_cons. split; [|done].
    split; [by apply (marker_at_stable d2')|].
    exists q. split; [|by apply Hlo].
    destruct Hst' as (_ & _ & Hm'). destruct (Hm' _ Hma) as [-> _]. done.
  - by rewrite Hpr'.
  - intros i Hi Hni. rewrite Hfr'; [by apply Hfr2|lia|].
    intros [Hin|[-> _]]%ids_subst_elem; [done|lia].
Qed.

(** What the first half of [BNode.build] leaves, whenever it returns. *)
Lemma build_anchors_facts cls hc d el o d1 :
  is_TElem (static_el cls) = true → up_closed (length d) d →
  build_anchors cls hc d = Ok (el, o) d1 →
  el = length d ∧ length d < length d1 ∧
  is_element d1 el = true ∧ parent_of d1 el = None ∧
  (∀ n, n < length d → d1 !! n = d !! n) ∧
  up_closed (length d1) d1 ∧
  (if hc
   then ∃ ms, o = Some ms ∧ length ms = placeholders (static_el cls) ∧
              Forall (λ j, marker_at d1 j ∧
                           ∃ q, parent_of d1 j = Some q ∧ length d ≤ q) ms
   else o = None).
Proof.
  intros Hel Hc. unfold build_anchors. intros H.
  apply bind_Ok in H as (el' & d2 & Hclone & H).
  destruct (cloneNode_facts _ _ _ _ Hc Hclone)
    as (-> & Hlen2 & Hc2 & HR & Hp2 & Hfr2).
  pose proof (tsize_pos (static_el cls)) as Hpos.
  assert (is_element d2 (length d) = true) as Hisel.
  { rewrite label_eq in HR. apply Rep_eq in HR as (Hk & _).
    unfold is_element. rewrite Hk.
    by destruct (dkind_TElem _ Hel) as [tag ->]. }
  destruct hc.
  - apply bind_Ok in H as (is_el & d3 & [= <- <-] & H).
    rewrite Hisel in H.
    apply bind_Ok in H as (n & d3 & [= <- <-] & H).
    apply bind_Ok in H as (ms & d4 & Hms & [= <- <- <-]).
    pose proof (replace_anchors_length _ _ _ _ _ Hms) as Hlms.
    assert (NoDup (ids (label (static_el cls) (length d)))) as Hnd.
    { rewrite ids_label. apply NoDup_seq. }
    assert (length (live_collection d2 (length d) anchor_tag)
            = placeholders (static_el cls)) as Hn.
    { rewrite <- (root_id_label (static_el cls) (length d)) at 1.
      rewrite live_collection_Rep by done.
      apply length_placeholder_label. }
    rewrite Hn in Hms, Hlms.
    rewrite <- (root_id_label (static_el cls) (length d)) in Hms at 1.
    destruct (replace_anchors_facts (placeholders (static_el cls)) d2 _
                (length d) ms d4 HR Hnd)
      as (Hst & Hc1 & Hmk & Hpr & Hfr); try done.
    { intros i. rewrite ids_label. intros ?%elem_of_seq. lia. }
    { lia. }
    rewrite root_id_label in Hpr.
    split; [done|]. split; [destruct Hst as [? _]; lia|].
    split; [by apply (is_element_stable d2)|].
    split; [by rewrite Hpr|]. split.
    { intros i Hi. rewrite Hfr; [by apply Hfr2|lia|].
      rewrite ids_label. intros ?%elem_of_seq. lia. }
    split; [done|]. by exists ms.
  - injection H as <- <- <-. split; [done|]. split; [lia|]. by repeat split.
Qed.

(** What [BNode.build] leaves, whenever it returns: the clone is a
    detached element at the end of the store; every marker is a text node
    in the child list of a node of the clone; the older nodes are as they
    were. *)
Lemma BNode_build_facts oid cls hc anchors data handlers d el o d1 :
  is_TElem (static_el cls) = true → up_closed (length d) d →
  BNode_build oid cls hc anchors data handlers d = Ok (el, o) d1 →
  el = length d ∧ length d < length d1 ∧
  is_element d1 el = true ∧ parent_of d1 el = None ∧
  (∀ n, n < length d →
        nkind <$> d1 !! n = nkind <$> d !! n ∧
        parent_of d1 n = parent_of d n ∧
        children_of d1 n = children_of d n) ∧
  up_closed (length d1) d1 ∧
  (if hc
   then ∃ ms, o = Some ms ∧ length ms = placeholders (static_el cls) ∧
              Forall (λ j, marker_at d1 j ∧
                           ∃ q, parent_of d1 j = Some q ∧ length d ≤ q) ms
   else o = anchors).
Proof.
  intros Hel Hc. unfold BNode_build. intros H.
  apply bind_Ok in H as ([el' ms'] & d2 & Hb & H).
  apply bind_Ok in H as ([] & d3 & Hu & H).
  apply bind_Ok in H as ([] & d4 & Hs & [= <- <- <-]).
  rename d4 into d1.
  destruct (build_anchors_facts _ _ _ _ _ _ Hel Hc Hb)
    as (-> & Hlen & Hisel & Hp & Hfr & Hc2 & Hms).
  destruct (build_anchors_Rep _ _ _ _ _ _ Hb) as (T & HR & Hroot).
  assert (skeleton d3 = skeleton d2) as Hs3
    by (by apply (shape_update _ _ _ _ _ _ Hu)).
  assert (skeleton d1 = skeleton d2) as Hs1.
  { rewrite <- Hs3. destruct handlers; [|by injection Hs as ->].
    eapply shape_setupHandlers; [exact Hroot| |exact Hs].
    by apply (Rep_skeleton d2). }
  pose proof (stable_skeleton _ _ Hs1) as Hst.
  split; [done|].
  split; [rewrite <- (length_skeleton d1), Hs1, length_skeleton; lia|].
  split; [by apply (is_element_stable d2)|].
  destruct (skeleton_lookup _ _ (length d) Hs1) as (_ & Hpe & _).
  split; [by rewrite Hpe|]. split.
  { intros n Hn. destruct (skeleton_lookup _ _ n Hs1) as (Hk & Hpn & Hcn).
    rewrite Hk, Hpn, Hcn. unfold parent_of, children_of.
    by rewrite (Hfr n Hn). }
  split; [by apply (closed_skeleton d2)|].
  destruct hc; [|done].
  destruct Hms as (ms & -> & Hlms & Hmk). exists ms.
  split; [done|]. split; [done|].
  eapply Forall_impl; [exact Hmk|]. intros j [Hma (q & Hq & Hle)].
  split; [by apply (marker_at_stable d2)|]. exists q. split; [|done].
  destruct (skeleton_lookup _ _ j Hs1) as (_ & -> & _). done.
Qed.
End node_build.

Section node_mounting.
Variable parseHTML : string → list DTree.
Implicit Types (d : Dom) (b : Block).

(** [mountBefore] on a tree of Node blocks, before a marker [m] in the
    child list of [p]: whenever it returns, the tree is mounted, with the
    element of the root immediately before [m]. *)
Lemma mountBefore_node_tree b :
  node_tree b = true →
  ∀ m p d b' d',
    up_closed (length d) d →
    parent_of d m = Some p → m ∈ children_of d p →
    mountBefore parseHTML b (Some m) d = Ok b' d' →
    mounted_before m p d b' d' ∧ stable d d' ∧ up_closed (length d') d' ∧
    node_tree b' = true ∧ block_data b' = block_data b.
Proof.
  induction b as [| |oid cls el0 children anchors data handlers IH| |]
    using Block_nested_ind; try done.
  rewrite node_tree_eq. intros [Hel Hch]%andb_true_iff m p d b' d' Hc Hp Hin H.
  cbn [mountBefore] in H.
  apply bind_Ok in H as ([el o] & d1 & Hb & H).
  apply bind_Ok in H as (children' & d2 & Hcs & H).
  apply bind_Ok in H as ([] & d3 & Hbef & [= <- <-]).
  destruct (BNode_build_facts _ _ _ _ _ _ _ _ _ _ Hel Hc Hb)
    as (-> & Hlen1 & Hisel1 & Hpel1 & Hfr1 & Hc1 & Hms).
  assert (stable d d1) as Hst1 by (apply stable_frame; [lia|done]).
  (* the children *)
  assert (stable d1 d2 ∧ up_closed (length d2) d2 ∧ length d1 ≤ length d2 ∧
          (∀ x, x < length d1 →
                nkind <$> d2 !! x = nkind <$> d1 !! x ∧
                parent_of d2 x = parent_of d1 x) ∧
          (∀ x, x < length d → children_of d2 x = children_of d1 x) ∧
          match children' with
          | None => True
          | Some cs' =>
              ∃ ms, o = Some ms ∧ length ms = length cs' ∧
                    Forall (marker_at d1) ms ∧
                    length cs' = placeholders (static_el cls) ∧
                    Forall (from_option (mounted d2) True) cs' ∧
                    Forall (λ r, from_option node_tree true r = true) cs'
          end) as (Hst2 & Hc2 & Hlen2 & Hfr2 & Hch2 & Hkids).
  { destruct children as [cs|];
      [|injection Hcs as <- <-; split; [apply stable_refl|]; by repeat split].
    apply bind_Ok in Hcs as (cs' & d4 & Hcs & [= <- <-]).
    apply andb_true_iff in Hch as [Hlcs Hnt].
    apply bool_decide_eq_true in Hlcs.
    cbn [bool_decide is_Some] in Hms.
    rewrite bool_decide_true in Hms by (by eexists).
    destruct Hms as (ms & -> & Hlms & Hmk).
    cbn [default] in IH.
    pose proof (forM_from_length _ _ _ _ _ _ Hcs) as Hlcs'.
    match type of Hcs with
    | forM_from ?f _ _ _ = _ =>
        pose proof
          (forM_from_rounds f
             (λ e, length d1 ≤ length e ∧ up_closed (length e) e ∧
                   (∀ x, x < length d1 →
                         nkind <$> e !! x = nkind <$> d1 !! x ∧
                         parent_of e x = parent_of d1 x) ∧
                   (∀ x, x < length d →
                         children_of e x = children_of d1 x) ∧
                   stable d1 e)
             (λ (_ : nat) (_ : option Block) e r e',
                stable e e' ∧ from_option (mounted e') True r ∧
                from_option node_tree true r = true)
             cs 0) as Hloop
    end.
    destruct Hloop with (d := d1) (rs := cs') (d' := d4)
      as [(Hl4 & Hc4 & Hfr4 & Hch4 & Hst4) Hrounds]; [| |done|].
    { intros j [c|] e r e' Hj (Hle & Hce & Hfre & Hche & Hste) Hf;
        cbn [Nat.add] in Hf.
      2:{ injection Hf as <- <-. split; [done|].
          split; [apply stable_refl|done]. }
      apply bind_Ok in Hf as (c' & e2 & Hm & [= <- <-]).
      assert (j < length ms) as Hjlt.
      { apply lookup_lt_Some in Hj. lia. }
      destruct (lookup_lt_is_Some_2 ms j Hjlt) as [mj Hmj].
      cbn [mbind option_bind] in Hm. rewrite Hmj in Hm.
      pose proof (proj1 (Forall_forall _ _) Hmk mj
                        (list_elem_of_lookup_2 _ _ _ Hmj))
        as [Hma (q & Hq & Hqge)].
      destruct (proj2 (proj2 Hste) mj Hma) as [Hpq (q' & Hq' & Hinq)].
      assert (q' = q) as -> by congruence.
      assert (node_tree c = true) as Hntc.
      { apply (node_tree_child cs); [done|].
        by apply list_elem_of_lookup_2 in Hj. }
      pose proof (proj1 (Forall_forall _ _) IH (Some c)
                        (list_elem_of_lookup_2 _ _ _ Hj)) as IHc.
      destruct (IHc Hntc mj q e c' e2 Hce Hq' Hinq Hm)
        as ((Hel' & Hlt' & Hmt' & _ & _ & Hfr') & Hst' & Hc' & Hnt' & _).
      split; [|split; [done|split; [exact Hmt'|exact Hnt']]].
      split; [lia|]. split; [done|]. split; [|split].
      - intros x Hx. destruct (Hfr' x ltac:(lia)) as (-> & -> & _).
        by apply Hfre.
      - intros x Hx. destruct (Hfr' x ltac:(lia)) as (_ & _ & Hx').
        rewrite Hx' by lia. by apply Hche.
      - by eapply stable_trans. }
    { split; [done|]. split; [done|]. split; [done|]. split; [done|].
      apply stable_refl. }
    split; [done|]. split; [done|]. split; [done|]. split; [done|].
    split; [done|]. exists ms. split; [done|]. split; [lia|].
    split; [eapply Forall_impl; [exact Hmk|]; by intros ? [? _]|].
    split; [lia|]. split.
    - eapply rounds_mounted; [|exact Hrounds].
      by intros ? ? ? ? ? (? & ? & ?).
    - eapply rounds_Forall; [|exact Hrounds].
      by intros ? ? ? ? ? (? & ? & ?). }
  (* the element goes before the marker *)
  pose proof (parent_lt _ _ _ Hp) as Hmlt.
  pose proof (Hc m p Hmlt Hp) as Hplt.
  assert (∀ x, x < length d → parent_of d2 x = parent_of d x) as Hpar2.
  { intros x Hx. destruct (Hfr2 x ltac:(lia)) as [_ ->]. by apply Hfr1. }
  assert (∀ x, x < length d → children_of d2 x = children_of d x) as Hchi2.
  { intros x Hx. rewrite Hch2 by done. by apply Hfr1. }
  assert (∀ x, x < length d → nkind <$> d2 !! x = nkind <$> d !! x) as Hk2.
  { intros x Hx. destruct (Hfr2 x ltac:(lia)) as [-> _]. by apply Hfr1. }
  assert (parent_of d2 (length d) = None) as Hpel2.
  { destruct (Hfr2 (length d) Hlen1) as [_ ->]. done. }
  assert (is_element d2 (length d) = true) as Hisel2
    by (by apply (is_element_stable d1)).
  assert (∀ pre suf, children_of d p = pre ++ m :: suf → m ∉ pre →
            length d3 = length d2 ∧
            children_of d3 p = pre ++ length d :: m :: suf ∧
            parent_of d3 (length d) = Some p ∧
            (∀ n, n ≠ length d → parent_of d3 n = parent_of d2 n) ∧
            (∀ x, x ≠ p → children_of d3 x = children_of d2 x) ∧
            (∀ n, nkind <$> d3 !! n = nkind <$> d2 !! n)) as Hplace.
  { intros pre suf Hsplit Hnot.
    destruct (before_step (length d) d2 m (length d) p pre suf)
      as (d' & Hb' & Hl' & Hch' & Hpa' & Hpar' & Hoth' & Hk' & _).
    { intros n q Hn. rewrite Hpar2 by done. by apply Hc. }
    { done. }
    { lia. }
    { by rewrite Hpar2. }
    { by right. }
    { lia. }
    { lia. }
    { by rewrite Hpel2. }
    { by rewrite Hchi2. }
    { done. }
    rewrite Hbef in Hb'. injection Hb' as <-.
    split; [done|]. split; [done|]. split; [done|]. split; [done|].
    split; [|done]. intros x Hx. rewrite Hoth' by done.
    rewrite Hpel2. by rewrite decide_False. }
  destruct (list_elem_of_split_l _ _ Hin) as (pre & suf & Hsplit & Hnot).
  destruct (Hplace pre suf Hsplit Hnot)
    as (Hl3 & _ & Hpa3 & Hpar3 & Hoth3 & Hk3).
  pose proof (stable_before _ _ _ _ Hisel2 Hbef) as Hst3.
  assert (stable d1 d3) as Hst13 by (by eapply stable_trans).
  split; [|split; [|split; [|split]]].
  - split; [done|]. split; [lia|]. split; [|split; [done|split]].
    + apply mounted_eq. split.
      { exists (length d). split; [done|]. by apply (is_element_stable d2). }
      destruct children' as [cs'|]; [|done].
      destruct Hkids as (ms & -> & Hlms & Hmk & _ & Hmt & _).
      exists ms. split; [done|]. split; [done|]. split.
      * eapply Forall_impl; [exact Hmk|]. intros j.
        by apply marker_at_stable.
      * eapply Forall_impl; [exact Hmt|]. intros [c|]; [|done].
        by apply mounted_stable.
    + intros pre' suf' Hsplit' Hnot'.
      by destruct (Hplace pre' suf' Hsplit' Hnot') as (_ & ? & _).
    + intros x Hx. split; [by rewrite Hk3, Hk2|].
      split; [rewrite Hpar3 by lia; by apply Hpar2|].
      intros Hxp. rewrite Hoth3 by done. by apply Hchi2.
  - eapply stable_trans; [exact Hst1|done].
  - by eapply closed_before.
  - rewrite node_tree_eq, Hel. cbn [andb].
    destruct children' as [cs'|]; [|done].
    destruct Hkids as (ms & _ & _ & _ & Hlcs' & _ & Hnt').
    apply andb_true_iff. split; [by apply bool_decide_eq_true|].
    apply forallb_forall. intros c Hc'.
    by apply list_elem_of_In, (proj1 (Forall_forall _ _) Hnt') in Hc'.
  - done.
Qed.
End node_mounting.

Section node_patching.
Variable parseHTML : string → list DTree.
Implicit Types (d : Dom) (b : Block).

(** [remove] on a mounted Node block takes its element out of the child
    list of its parent. *)
Lemma remove_mounted b d :
  node_tree b = true → mounted d b →
  ∃ e, block_el b = Some e ∧ is_element d e = true ∧
       remove b d = Ok () (detach e d).
Proof.
  intros (oid & cls & el & children & anchors & data & handlers & ->)
         %node_tree_BNode.
  rewrite mounted_eq. intros [(e & -> & He) _]. by exists e.
Qed.

(** Without a marker, [mountBefore] on a Node block does not return. *)
Lemma mountBefore_unanchored b d b' d' :
  node_tree b = true → mountBefore parseHTML b None d ≠ Ok b' d'.
Proof.
  intros (oid & cls & el & children & anchors & data & handlers & ->)
         %node_tree_BNode H.
  cbn [mountBefore] in H.
  apply bind_Ok in H as ([el' o] & d1 & _ & H).
  apply bind_Ok in H as (children' & d2 & _ & H).
  by apply bind_Ok in H as ([] & d3 & Hbef & _).
Qed.

Lemma slot_effect_mounted marker old new d r d' :
  slot_effect parseHTML marker old new d r d' →
  from_option (mounted d') True r ∧ from_option node_tree true r = true.
Proof.
  unfold slot_effect. destruct old as [c|], new as [n|].
  - by intros (c' & -> & _ & _ & _ & ? & ?).
  - by intros [-> _].
  - by intros (n' & m & p & -> & _ & _ & _ & (_ & _ & ? & _) & ? & _).
  - by intros [-> _].
Qed.

(** The rounds of the documented transitions over the slots of a mounted
    block: whenever the loop returns, every round had its effect on the
    store. *)
Lemma documented_rounds (marker : nat → option nat)
    (ncs cs : list (option Block)) :
  Forall (from_option (patch_keeps_mounted parseHTML) True) cs →
  forallb (from_option node_tree true) cs = true →
  forallb (from_option node_tree true) ncs = true →
  (∀ i c n, cs !! i = Some (Some c) → js_get ncs i = Some n →
            same_shape c n = true) →
  ∀ d rs d',
    up_closed (length d) d →
    Forall (from_option (mounted d) True) cs →
    (∀ i m, marker i = Some m → marker_at d m) →
    forM_from
      (λ i child,
         documented_transition parseHTML (marker i) child (js_get ncs i))
      0 cs d = Ok rs d' →
    up_closed (length d') d' ∧ stable d d' ∧
    transitions parseHTML marker ncs 0 cs d rs d'.
Proof.
  intros IH Hnt Hnnt Hss d rs d' Hc Hmt Hmk Hloop.
  match type of Hloop with
  | forM_from ?f _ _ _ = _ =>
      pose proof
        (forM_from_rounds f
           (λ e, up_closed (length e) e ∧ stable d e)
           (λ i old e r e',
              slot_effect parseHTML (marker i) old (js_get ncs i) e r e' ∧
              stable e e')
           cs 0) as Hr
  end.
  destruct Hr with (d := d) (rs := rs) (d' := d')
    as [[Hc' Hst'] Hrounds]; [|split; [done|apply stable_refl]|done|done].
  intros j old e r e' Hj [Hce Hste] Hf. cbn [Nat.add] in Hf |- *.
  pose proof (list_elem_of_lookup_2 _ _ _ Hj) as Hin.
  assert (up_closed (length e') e' ∧
          slot_effect parseHTML (marker j) old (js_get ncs j) e r e' ∧
          stable e e') as (? & ? & ?);
    [|split; [split; [done|by eapply stable_trans]|done]].
  unfold documented_transition, slot_effect in *.
  destruct old as [c|], (js_get ncs j) as [n|] eqn:Hn.
  - (* both present *)
    apply bind_Ok in Hf as (c' & e2 & Hp & [= <- <-]).
    pose proof (node_tree_child _ _ Hnt Hin) as Hntc.
    pose proof (node_tree_js_get _ _ _ Hnnt Hn) as Hntn.
    pose proof (proj1 (Forall_forall _ _) IH _ Hin) as IHc.
    pose proof (proj1 (Forall_forall _ _) Hmt _ Hin) as Hmc.
    cbn [from_option] in IHc, Hmc.
    destruct (IHc Hntc n e c' e2) as (Hs & Hc2 & Hm2 & Hnt2 & Hel2 & Hd2);
      try done.
    { by apply (Hss j). }
    { by apply (mounted_stable d). }
    split; [done|]. split; [|done]. by exists c'.
  - (* the old child goes *)
    apply bind_Ok in Hf as ([] & e2 & Hrm & [= <- <-]).
    pose proof (node_tree_child _ _ Hnt Hin) as Hntc.
    pose proof (proj1 (Forall_forall _ _) Hmt _ Hin) as Hmc.
    cbn [from_option] in Hmc.
    destruct (remove_mounted c e Hntc) as (ec & Hec & Hise & Hrm');
      [by apply (mounted_stable d)|].
    rewrite Hrm' in Hrm. injection Hrm as <-.
    split; [by apply closed_detach|]. split; [|by apply stable_detach].
    split; [done|]. exists ec. split; [done|]. split; [done|]. split.
    + rewrite parent_of_detach. by rewrite decide_True.
    + intros q Hq. rewrite children_of_detach. by rewrite decide_True.
  - (* a new child comes *)
    apply bind_Ok in Hf as (n' & e2 & Hm & [= <- <-]).
    pose proof (node_tree_js_get _ _ _ Hnnt Hn) as Hntn.
    destruct (marker j) as [m|] eqn:Hmj;
      [|by apply mountBefore_unanchored in Hm].
    destruct (proj2 (proj2 Hste) m (Hmk j m Hmj)) as [_ (p & Hp & Hinp)].
    destruct (mountBefore_node_tree parseHTML n Hntn m p e n' e2)
      as (Hmb & Hs & Hc2 & Hnt2 & Hd2); try done.
    split; [done|]. split; [|done]. by exists n', m, p.
  - (* both absent *)
    injection Hf as <- <-. split; [done|]. split; [done|]. apply stable_refl.
Qed.

(** [patch] keeps a mounted tree of Node blocks mounted. *)
Lemma patch_node_tree b : patch_keeps_mounted parseHTML b.
Proof.
  induction b as [| |oid cls el children anchors data handlers IH| |]
    using Block_nested_ind; try done.
  intros Hnt other d b' d' Hnto Hss Hmt Hc H.
  rewrite node_tree_eq in Hnt. apply andb_true_iff in Hnt as [Hel Hch].
  apply mounted_eq in Hmt as [(e & -> & He) Hkids].
  cbn [patch] in H.
  apply bind_Ok in H as ([] & d0 & Hu & H).
  apply bind_Ok in H as (children' & d1 & Hcs & [= <- <-]).
  assert (skeleton d0 = skeleton d) as Hs0
    by (by apply (shape_update _ _ _ _ _ _ Hu)).
  pose proof (stable_skeleton _ _ Hs0) as Hst0.
  pose proof (closed_skeleton _ _ Hs0 Hc) as Hc0.
  destruct children as [cs|].
  2:{ injection Hcs as <- <-. split; [done|]. split; [done|]. split.
      { apply mounted_eq. split; [|done]. exists e. split; [done|].
        by apply (is_element_stable d). }
      split; [|done]. by rewrite node_tree_eq, Hel. }
  destruct Hkids as (ms & -> & Hlms & Hmk & Hmt).
  apply andb_true_iff in Hch as [Hlcs Hntc].
  apply bool_decide_eq_true in Hlcs.
  destruct (block_children other) as [ncs|] eqn:Hncs;
    [|by rewrite (same_shape_None _ _ _ _ _ _ _ _ Hncs) in Hss].
  destruct (same_shape_lookup _ _ _ _ _ _ _ _ _ Hss Hncs) as [Hlen Hpair].
  apply bind_Ok in Hcs as (cs1 & d2 & Hloop & Hcs).
  rewrite drop_ge in Hcs by lia.
  apply bind_Ok in Hcs as (cs2 & d3 & [= <- <-] & [= <- <-]).
  assert (forallb (from_option node_tree true) ncs = true) as Hntn.
  { destruct (node_tree_BNode _ Hnto)
      as (oid' & cls' & el' & ch' & an' & da' & ha' & ->).
    rewrite node_tree_eq in Hnto. cbn in Hncs. subst ch'.
    by apply andb_true_iff in Hnto as [_ [_ ?]%andb_true_iff]. }
  erewrite forM_from_ext in Hloop; last first.
  { intros j x d4 Hj. cbn [Nat.add].
    rewrite decide_True by (apply lookup_lt_Some in Hj; lia).
    apply node_slot_documented. }
  cbn [default] in IH.
  destruct (documented_rounds (λ i, ms !! i) ncs cs IH Hntc Hntn Hpair
              d0 cs1 d2) as (Hc2 & Hst2 & Hrounds); try done.
  { eapply Forall_impl; [exact Hmt|]. intros [c|]; [|done].
    by apply mounted_stable. }
  { intros i m Hi. apply (marker_at_stable d); [done|].
    apply (proj1 (Forall_forall _ _) Hmk).
    by apply list_elem_of_lookup_2 in Hi. }
  assert (stable d d2) as Hst by (by eapply stable_trans).
  pose proof (rounds_length _ _ _ _ _ _ Hrounds) as Hl1.
  assert (Forall (λ r, from_option (mounted d2) True r) cs1) as Hm1.
  { eapply rounds_mounted; [|exact Hrounds].
    intros i x e1 r e2 [Hse ?]. split; [done|].
    by apply slot_effect_mounted in Hse as [? _]. }
  assert (Forall (λ r, from_option node_tree true r = true) cs1) as Hn1.
  { eapply rounds_Forall; [|exact Hrounds].
    intros i x e1 r e2 [Hse _].
    by apply slot_effect_mounted in Hse as [_ ?]. }
  split; [done|]. split; [done|]. split; [|split; [|done]].
  - apply mounted_eq. split.
    { exists e. split; [done|]. by apply (is_element_stable d). }
    exists ms. split; [done|]. split; [lia|]. split; [|done].
    eapply Forall_impl; [exact Hmk|]. intros m. by apply marker_at_stable.
  - rewrite node_tree_eq, Hel. cbn [andb].
    apply andb_true_iff. split; [apply bool_decide_eq_true; lia|].
    apply forallb_forall. intros c Hc'.
    by apply list_elem_of_In, (proj1 (Forall_forall _ _) Hn1) in Hc'.
Qed.
End node_patching.

Section node_patch_claim.
Variable parseHTML : string → list DTree.

End node_patch_claim.

Section multi_patch_claim.
Variable parseHTML : string → list DTree.

(** X2. [BMulti.patch] with a successor that holds a block wherever the
    block does.  The call is the documented transition at every slot of
    the block, in index order, with that slot's marker, and keeps the
    array of markers.  When the children on both sides are trees of Node
    blocks, of the same shape where both are present, the children of the
    block are mounted and its markers are text nodes in the tree, then,
    whenever the call returns, the block has as many slots as before and
    every transition has had its effect on the store: nothing where both
    children are absent; where only the successor has a child it is in
    the slot, mounted, its element a new node put immediately before the
    marker of the slot; where both are present the old child is in the
    slot, patched, with the same element and the new data.  Every marker
    is in the tree afterwards. *)
Theorem BMulti_patch_without_removal (cs : list (option Block))
    (ms : list (option nat)) (other : Block) (ncs : list (option Block))
    (d : Dom) :
  block_children other = Some ncs →
  (∀ i c, cs !! i = Some (Some c) → is_Some (js_get ncs i)) →
  patch parseHTML (BMulti cs ms) other d =
  (cs' ← forM_from
           (λ i child,
              documented_transition parseHTML (js_get ms i) child
                                    (js_get ncs i)) 0 cs;
   mret (BMulti cs' ms)) d
  ∧ (forallb (from_option node_tree true) cs = true →
     forallb (from_option node_tree true) ncs = true →
     (∀ i c n, cs !! i = Some (Some c) → js_get ncs i = Some n →
               same_shape c n = true) →
     Forall (from_option (mounted d) True) cs →
     (∀ i m, js_get ms i = Some m → marker_at d m) →
     up_closed (length d) d →
     ∀ b' d',
       patch parseHTML (BMulti cs ms) other d = Ok b' d' →
       ∃ cs',
         b' = BMulti cs' ms ∧ length cs' = length cs ∧
         transitions parseHTML (js_get ms) ncs 0 cs d cs' d' ∧
         (∀ i m, js_get ms i = Some m → marker_at d' m) ∧
         Forall (from_option (mounted d') True) cs' ∧
         up_closed (length d') d').
Proof.
  intros Hncs Hcs.
  assert (patch parseHTML (BMulti cs ms) other d =
          (cs' ← forM_from
                   (λ i child,
                      documented_transition parseHTML (js_get ms i) child
                                            (js_get ncs i)) 0 cs;
           mret (BMulti cs' ms)) d) as Heq.
  { cbn [patch].
    pose proof (multi_rounds parseHTML ms other ncs cs Hncs [] d) as H.
    cbn in H. unfold mbind, M_bind in H |- *. rewrite H by done.
    by destruct (forM_from _ 0 cs d). }
  split; [exact Heq|].
  intros Hnt Hntn Hpair Hmt Hmk Hc b' d' H. rewrite Heq in H.
  apply bind_Ok in H as (cs' & d1 & Hloop & [= <- <-]).
  destruct (documented_rounds parseHTML (js_get ms) ncs cs)
    with (d := d) (rs := cs') (d' := d1) as (Hc1 & Hst1 & Hrounds);
    try done.
  { apply Forall_forall. intros [c|] _; [|done]. apply patch_node_tree. }
  exists cs'. split; [done|].
  split; [by apply rounds_length in Hrounds|]. split; [done|]. split.
  { intros i m Hi. apply (marker_at_stable d); [done|]. by apply (Hmk i). }
  split; [|done].
  eapply rounds_mounted; [|exact Hrounds].
  intros i x e r e' [Hse ?]. split; [done|].
  by apply slot_effect_mounted in Hse as [? _].
Qed.
End multi_patch_claim.

End host.

(** * Sample runs *)

(** C4, as stated, fails: a mounted button whose click handler is thunk
    [10], patched with a successor whose click handler is thunk [20]; the
    listener for index [0] calls [10], the successor's thunk is [20]. *)
Lemma listener_calls_own_thunk_after_patch :
  ∃ b1 d1 b2 d2,
    mount name_ok text_parser (button 1 10) 0 container_store = Ok b1 d1 ∧
    patch name_ok text_parser b1 (button 2 20) d1 = Ok b2 d2 ∧
    listener_call (button 2 20) 0 = Some 20 ∧
    listener_call b2 0 = Some 10 ∧
    listener_call b2 0 ≠ listener_call (button 2 20) 0.
Proof.
  eexists _, _, _, _. split; [vm_compute; reflexivity|].
  split; [vm_compute; reflexivity|]. split; [reflexivity|].
  split; [reflexivity|]. by intros [=].
Qed.

Lemma BNode_listeners_registered_at_build_witness :
  ∃ b1 d1,
    (1 ∉ oids_below (default [] None)) ∧
    mountBefore name_ok text_parser (button 1 10) (Some 1) marked_store = Ok b1 d1 ∧
    registrations 1 0 d1 = registrations 1 0 marked_store + sites cls_button 0 ∧
    listener_call b1 0 = Some 10.
Proof.
  eexists _, _.
  assert (1 ∉ oids_below (default [] None)) as H1 by apply not_elem_of_nil.
  assert (mountBefore name_ok text_parser (button 1 10) (Some 1) marked_store
          = Ok _ _) as H2 by (vm_compute; reflexivity).
  split; [exact H1|]. split; [exact H2|].
  destruct (BNode_listeners_registered_at_build name_ok text_parser 1 cls_button None
              None None None [("click", 10)] 0 (Some 1) marked_store _ _ H1 H2)
    as (Hc & Hl & _).
  split; [exact Hc|exact Hl].
Defined.

(** C8, as stated, fails on a template whose two placeholders are nested:
    the block has two slots and the template two placeholders, but the
    second round of the loop finds the live collection empty, and [build]
    and [mount] throw. *)
Lemma nested_placeholders_build_faults :
  is_TElem (static_el cls_nested) = true ∧
  placeholders (static_el cls_nested) = 2 ∧
  block_children nested_block = Some [None; None] ∧
  build_anchors cls_nested true container_store = Throw TypeError ∧
  mount name_ok text_parser nested_block 0 container_store = Throw TypeError.
Proof. repeat split; vm_compute; reflexivity. Qed.

Lemma BNode_anchors_match_slots_witness :
  is_TElem (static_el cls_two_slots) = true ∧
  flat_template (static_el cls_two_slots) = true ∧
  placeholders (static_el cls_two_slots) = 2 ∧
  length [Some (leaf_node 1); None] = 2 ∧
  ∃ d', build_anchors cls_two_slots true container_store
        = Ok (1, Some [5; 6]) d'.
Proof.
  split; [reflexivity|]. split; [reflexivity|]. split; [reflexivity|].
  split; [reflexivity|].
  destruct (proj1 (BNode_anchors_match_slots name_ok text_parser 7 cls_two_slots None
                     [Some (leaf_node 1); None] None None None 2
                     eq_refl eq_refl eq_refl eq_refl) container_store)
    as (d' & H & _).
  exists d'. exact H.
Defined.

Lemma BText_mount_patch_keeps_handle_witness :
  is_element container_store 0 = true ∧
  ∃ el d2, text_of d2 el = "a" ∧ parent_of d2 el = Some 0.
Proof.
  split; [reflexivity|].
  destruct (BText_mount_patch_keeps_handle name_ok text_parser container_store 0 "a"
              eq_refl) as (el & d1 & d2 & _ & _ & Ht & Hp & _).
  exists el, d2. split; [exact Ht|exact Hp].
Defined.

Lemma BText_remove_keeps_leaf_witness :
  is_element container_store 0 = true ∧
  ∃ el d2, remove (BText el) d2 = Ok () d2 ∧ attached d2 el.
Proof.
  split; [reflexivity|].
  destruct (BText_remove_keeps_leaf name_ok text_parser container_store 0 "a"
              eq_refl) as (el & d1 & d2 & _ & _ & Hr & Ha & _).
  exists el, d2. split; [exact Hr|exact Ha].
Defined.

Lemma BMulti_remove_faults_on_absent_slot_witness :
  ∃ b d,
    mount name_ok text_parser (new_BMulti 1) 0 container_store = Ok b d ∧
    block_children b = Some [None] ∧
    remove b d = Throw TypeError.
Proof.
  eexists _, _. split; [vm_compute; reflexivity|]. split; [reflexivity|].
  apply BMulti_remove_faults_on_absent_slot. apply elem_of_cons. by left.
Defined.


Lemma BNode_patch_fewer_slots_witness :
  ∃ oid cls el cs ms data handlers d ncs,
    two_slots_mounted
      = Ok (BNode oid cls el (Some cs) (Some ms) data handlers) d ∧
    block_children one_slot_successor = Some ncs ∧
    length ncs ≤ length cs ∧
    patch name_ok text_parser (BNode oid cls el (Some cs) (Some ms) data handlers)
          one_slot_successor d
    = (update name_ok cls el (block_data one_slot_successor);;
       cs1 ← forM_from
               (λ i child,
                  documented_transition name_ok text_parser (ms !! i) child
                                        (js_get ncs i))
               0 (take (length ncs) cs);
       mret (BNode oid cls el (Some (cs1 ++ drop (length ncs) cs)) (Some ms)
                   (block_data one_slot_successor) handlers)) d.
Proof.
  eexists _, _, _, _, _, _, _, _, _. split; [reflexivity|].
  split; [reflexivity|].
  split; [simpl; lia|].
  apply (BNode_patch_fewer_slots name_ok text_parser); [reflexivity|simpl; lia].
Defined.


Lemma BHtml_mount_appends_witness :
  closed container_store = true ∧ is_element container_store 0 = true ∧
  ∃ content a d',
    (b ← new_BHtml "a"; mount name_ok text_parser b 0) container_store
      = Ok (BHtml "a" content a (content !! 0)) d' ∧
    length content = length (text_parser "a") ∧
    children_of d' 0 = children_of container_store 0 ++ content ++ [a].
Proof.
  split; [reflexivity|]. split; [reflexivity|].
  destruct (BHtml_mount_appends name_ok text_parser "a" container_store 0
              eq_refl eq_refl) as (content & a & d' & H1 & H2 & _ & H3 & _).
  exists content, a, d'. split; [exact H1|]. split; [exact H2|exact H3].
Defined.

Lemma BHtml_mount_remove_restores_witness :
  closed container_store = true ∧ is_element container_store 0 = true ∧
  ∃ b d' d'',
    (b ← new_BHtml "a"; mount name_ok text_parser b 0) container_store = Ok b d' ∧
    remove b d' = Ok () d'' ∧
    children_of d'' 0 = children_of container_store 0.
Proof.
  split; [reflexivity|]. split; [reflexivity|].
  destruct (BHtml_mount_remove_restores name_ok text_parser "a" container_store 0
              eq_refl eq_refl) as (b & d' & d'' & H1 & H2 & _ & H3).
  exists b, d', d''. split; [exact H1|]. split; [exact H2|].
  apply (H3 0). simpl. lia.
Defined.

Lemma BHtml_patch_replaces_leaves_witness :
  ∃ html content a el d other,
    html_mounted = Ok (BHtml html content a el) d ∧
    new_BHtml "b" d = Ok other (d ++ [new_node KText None EmptyString [] []]) ∧
    closed d = true ∧
    parent_of d a = Some 0 ∧
    children_of d 0 = [] ++ content ++ a :: [] ∧
    NoDup ([] ++ content ++ a :: []) ∧
    (∀ c, c ∈ content → parent_of d c = Some 0) ∧
    ∃ content' d',
      patch name_ok text_parser (BHtml html content a el) other d
        = Ok (BHtml html content' a (content' !! 0)) d' ∧
      length content' = length (text_parser html) ∧
      children_of d' 0 = [] ++ content' ++ a :: [].
Proof.
  eexists _, _, _, _, _, _. split; [reflexivity|]. split; [reflexivity|].
  match goal with
  | |- closed ?d = true ∧ _ =>
      assert (closed d = true) as Hcl by reflexivity;
      assert (parent_of d 1 = Some 0) as Hpa by reflexivity;
      assert (children_of d 0 = [] ++ [4] ++ 1 :: []) as Hch by reflexivity;
      assert (∀ c, c ∈ [4] → parent_of d c = Some 0) as Hpc
        by (intros c Hc%list_elem_of_singleton; by subst c)
  end.
  assert (NoDup ([] ++ [4] ++ 1 :: [])) as Hnd
    by (apply (bool_decide_unpack _); reflexivity).
  split; [exact Hcl|]. split; [exact Hpa|]. split; [exact Hch|].
  split; [exact Hnd|]. split; [exact Hpc|].
  match goal with
  | |- context [patch _ _ _ ?other ?d] =>
      destruct (BHtml_patch_replaces_leaves name_ok text_parser "a" [4] 1 (Some 4)
                  other d 0 [] [] Hcl Hpa Hch Hnd Hpc)
        as (content' & d' & H1 & H2 & _ & _ & _ & H3 & _)
  end.
  exists content', d'. split; [exact H1|]. split; [exact H2|exact H3].
Defined.

Lemma BNode_slotless_mount_remove_witness :
  closed marked_store = true ∧
  parent_of marked_store 1 = Some 0 ∧
  children_of marked_store 0 = [] ++ 1 :: [] ∧
  (1 ∉ ([] : list nat)) ∧
  ∃ b1 d1,
    mountBefore name_ok text_parser (leaf_node 5) (Some 1) marked_store = Ok b1 d1 ∧
    b1 = BNode 5 cls_p (Some 2) None None None None ∧
    children_of d1 0 = [2; 1].
Proof.
  assert (1 ∉ ([] : list nat)) as Hn by apply not_elem_of_nil.
  split; [reflexivity|]. split; [reflexivity|]. split; [reflexivity|].
  split; [exact Hn|].
  destruct (BNode_slotless_mount_remove name_ok text_parser 5 cls_p None None None
              None 1 0 [] [] marked_store eq_refl eq_refl eq_refl Hn)
    as [Htotal Hspec].
  destruct (Htotal eq_refl eq_refl) as (b1 & d1 & Hm).
  destruct (Hspec b1 d1 Hm) as (Hb & _ & _ & Hch & _).
  exists b1, d1. split; [exact Hm|]. split; [exact Hb|exact Hch].
Defined.

Lemma BMulti_mountBefore_markers_witness :
  ∃ b' d',
    length [@None nat; None] = length [Some (leaf_node 1); Some (leaf_node 2)] ∧
    mountBefore name_ok text_parser multi_both (Some 1) marked_store = Ok b' d' ∧
    ∃ cs' ms,
      b' = BMulti cs' (Some <$> ms) ∧ length cs' = 2 ∧ length ms = 2.
Proof.
  eexists _, _.
  assert (mountBefore name_ok text_parser multi_both (Some 1) marked_store
          = Ok _ _) as Hm by (vm_compute; reflexivity).
  split; [reflexivity|]. split; [exact Hm|].
  destruct (BMulti_mountBefore_markers name_ok text_parser
              [Some (leaf_node 1); Some (leaf_node 2)] [None; None] (Some 1)
              marked_store _ _ eq_refl Hm)
    as (cs' & ms & H1 & H2 & H3 & _).
  exists cs', ms. split; [exact H1|]. split; [exact H2|exact H3].
Defined.

Lemma BMulti_empty_mount_witness :
  closed container_store = true ∧ is_element container_store 0 = true ∧
  ∃ d',
    mount name_ok text_parser (new_BMulti 2) 0 container_store
      = Ok (BMulti [None; None] [Some 2; Some 3]) d' ∧
    children_of d' 0 = [2; 3].
Proof.
  split; [reflexivity|]. split; [reflexivity|].
  destruct (BMulti_empty_mount name_ok text_parser 2 container_store 0
              eq_refl eq_refl) as (d' & H1 & H2 & _).
  exists d'. split; [exact H1|exact H2].
Defined.

Lemma BMulti_toString_concatenates_witness :
  Forall (λ c, from_option
                 (λ b, is_Some (leaf_string marked_store b)) True c)
         [Some (BHtml "x" [] 1 None); None; Some (BHtml "y" [] 1 None)] ∧
  toString name_ok text_parser text_serializer
    (BMulti [Some (BHtml "x" [] 1 None); None; Some (BHtml "y" [] 1 None)]
            [None; None; None]) marked_store
  = Ok ("xy",
        BMulti [Some (BHtml "x" [] 1 None); None; Some (BHtml "y" [] 1 None)]
               [None; None; None]) marked_store.
Proof.
  assert (Forall (λ c, from_option
                         (λ b, is_Some (leaf_string marked_store b)) True c)
            [Some (BHtml "x" [] 1 None); None; Some (BHtml "y" [] 1 None)])
    as H.
  { repeat constructor; by eexists. }
  split; [exact H|].
  exact (BMulti_toString_concatenates name_ok text_parser text_serializer _
           [None; None; None] marked_store H).
Defined.

Lemma BNode_toString_rebuilds_witness :
  closed marked_store = true ∧
  ∃ r d',
    toString name_ok text_parser text_serializer
      (BNode 5 cls_p (Some 1) None None None None) marked_store = Ok r d' ∧
    r.2 = BNode 5 cls_p (Some 4) None None None None.
Proof.
  split; [reflexivity|].
  destruct (BNode_toString_rebuilds name_ok text_parser text_serializer 5 cls_p
              (Some 1) None None None marked_store eq_refl)
    as [Htotal Hspec].
  destruct (Htotal eq_refl eq_refl) as ([s b'] & d' & Hm).
  destruct (Hspec s b' d' Hm) as (Hb & _).
  exists (s, b'), d'. split; [exact Hm|exact Hb].
Defined.


Lemma BMulti_patch_without_removal_witness :
  ∃ cs ms d ncs b' d',
    multi_first_mounted = Ok (BMulti cs ms) d ∧
    block_children multi_both = Some ncs ∧
    (∀ i c, cs !! i = Some (Some c) → is_Some (js_get ncs i)) ∧
    Forall (from_option (mounted d) True) cs ∧
    (∀ i m, js_get ms i = Some m → marker_at d m) ∧
    patch name_ok text_parser (BMulti cs ms) multi_both d = Ok b' d' ∧
    children_of d 0 = [3; 2; 4] ∧ children_of d' 0 = [3; 2; 5; 4] ∧
    ∃ cs',
      b' = BMulti cs' ms ∧
      transitions name_ok text_parser (js_get ms) ncs 0 cs d cs' d' ∧
      (∀ i m, js_get ms i = Some m → marker_at d' m).
Proof.
  eexists _, _, _, _, _, _. split; [reflexivity|]. split; [reflexivity|].
  assert (∀ i c,
            [Some (BNode 1 cls_p (Some 3) None None None None); None] !! i
              = Some (Some c) →
            is_Some (js_get [Some (leaf_node 1); Some (leaf_node 2)] i)) as H.
  { intros [|[|i]] c; [eexists; reflexivity|discriminate|discriminate]. }
  split; [exact H|].
  match goal with
  | |- Forall _ ?cs ∧ (∀ i m, js_get ?ms i = _ → marker_at ?d m) ∧ _ =>
      assert (Forall (from_option (mounted d) True) cs) as Hmt;
      [|assert (∀ i m, js_get ms i = Some m → marker_at d m) as Hmk]
  end.
  { apply Forall_cons. split; [|by apply Forall_cons].
    split; [|done]. by exists 3. }
  { intros [|[|i]] m; [| |discriminate]; intros [= <-];
      (split; [reflexivity|]); exists 0; (split; [reflexivity|]).
    - by apply (list_elem_of_lookup_2 _ 1).
    - by apply (list_elem_of_lookup_2 _ 2). }
  split; [exact Hmt|]. split; [exact Hmk|].
  split; [vm_compute; reflexivity|].
  split; [reflexivity|]. split; [reflexivity|].
  match type of Hmt with
  | Forall (from_option (mounted ?d) True) ?cs =>
      match type of Hmk with
      | ∀ i m, js_get ?ms i = _ → _ =>
          destruct (BMulti_patch_without_removal name_ok text_parser cs ms
                      multi_both _ d eq_refl H) as [_ Hok]
      end
  end.
  edestruct Hok as (cs' & Hb' & _ & Htr & Hmk' & _);
    [reflexivity|reflexivity| |exact Hmt|exact Hmk|by apply closed_up| |].
  { intros [|[|i]] c n; [|discriminate|discriminate].
    by intros [= <-] [= <-]. }
  { vm_compute. reflexivity. }
  exists cs'. split; [exact Hb'|].
  split; [exact Htr|exact Hmk'].
Defined.
